(** * EduFlow learning analytics: the privacy pipeline and the audited store

    A shallow embedding of [scripts/utils/privacy_utils.py] (class
    [PrivacyUtils]) and [scripts/utils/mongodb_client.py] (class
    [MongoDBClient]), with the library routines they call ([str.encode],
    [hashlib], [base64], [re], [datetime], [pymongo]) written out as far as
    the two classes depend on them.

    Python strings are lists of Unicode code points, byte strings are lists
    of octets, dictionaries are finite maps that live in a heap of objects,
    and every method is a computation over an explicit [world]. *)

From Stdlib Require Import ZArith NArith List Ascii String Lia Bool DecimalString.
From stdpp Require Import gmap list fin_maps.

Local Open Scope N_scope.

(** ** Strings *)

(** A [str] is a sequence of code points; [py] reads a literal. *)
Abbreviation pystr := (list N).

Definition py (s : string) : pystr :=
  map N_of_ascii (list_ascii_of_string s).

(** [str.encode()], i.e. UTF-8 in strict mode: a lone surrogate raises
    [UnicodeEncodeError], written [None] here. *)
Definition utf8_char (c : N) : option (list N) :=
  if c <? 0x80 then Some [c]
  else if c <? 0x800 then Some [0xC0 + c / 64; 0x80 + c mod 64]
  else if c <? 0x10000 then
    if (0xD800 <=? c) && (c <=? 0xDFFF) then None
    else Some [0xE0 + c / 4096; 0x80 + (c / 64) mod 64; 0x80 + c mod 64]
  else Some [0xF0 + c / 262144; 0x80 + (c / 4096) mod 64;
             0x80 + (c / 64) mod 64; 0x80 + c mod 64].

Fixpoint encode (s : pystr) : option (list N) :=
  match s with
  | [] => Some []
  | c :: s' =>
      match utf8_char c, encode s' with
      | Some b, Some bs => Some (b ++ bs)
      | _, _ => None
      end
  end.

(** Lower-case hexadecimal, as [hexdigest] prints it. *)
Definition hex_digit (d : N) : N :=
  if d <? 10 then 48 + d else 87 + d.

Definition hex_byte (b : N) : pystr :=
  [hex_digit ((b / 16) mod 16); hex_digit (b mod 16)].

Definition hex_word32 (w : N) : pystr :=
  hex_byte ((w / 16777216) mod 256) ++ hex_byte ((w / 65536) mod 256) ++
  hex_byte ((w / 256) mod 256) ++ hex_byte (w mod 256).

Definition is_hex_digit (c : N) : bool :=
  ((48 <=? c) && (c <=? 57)) || ((97 <=? c) && (c <=? 102)).

(** ** hashlib.sha256 (FIPS 180-4) *)

Module SHA256.

Definition w32 (x : N) : N := x mod 4294967296.
Definition add32 (x y : N) : N := w32 (x + y).
Definition rotr (n x : N) : N :=
  N.lor (N.shiftr x n) (w32 (N.shiftl x (32 - n))).
Definition not32 (x : N) : N := N.lxor x 0xFFFFFFFF.

Definition Ch (x y z : N) : N := N.lxor (N.land x y) (N.land (not32 x) z).
Definition Maj (x y z : N) : N :=
  N.lxor (N.lxor (N.land x y) (N.land x z)) (N.land y z).
Definition Sigma0 (x : N) : N := N.lxor (N.lxor (rotr 2 x) (rotr 13 x)) (rotr 22 x).
Definition Sigma1 (x : N) : N := N.lxor (N.lxor (rotr 6 x) (rotr 11 x)) (rotr 25 x).
Definition sigma0 (x : N) : N := N.lxor (N.lxor (rotr 7 x) (rotr 18 x)) (N.shiftr x 3).
Definition sigma1 (x : N) : N := N.lxor (N.lxor (rotr 17 x) (rotr 19 x)) (N.shiftr x 10).

(** The primes below [n], by trial division. *)
Definition is_prime (n : N) : bool :=
  (2 <=? n) &&
  forallb (fun d => negb (n mod N.of_nat d =? 0)) (seq 2 (N.to_nat n - 2)).

Definition primes_below (n : nat) : list N :=
  List.filter is_prime (map N.of_nat (seq 0 n)).

(** Integer cube root: the bits of the root from bit [n] down. *)
Fixpoint cube_root_bits (n : nat) (x r : N) : N :=
  match n with
  | O => r
  | S n' =>
      let r' := r + 2 ^ N.of_nat n' in
      cube_root_bits n' x (if r' * r' * r' <=? x then r' else r)
  end.

Definition cube_root (x : N) : N := cube_root_bits 36 x 0.

(** The round constants: the first 32 bits of the fractional parts of the
    cube roots of the first 64 primes. *)
Definition K : list N :=
  map (fun p => w32 (cube_root (p * 2 ^ 96))) (primes_below 312).

(** The eight working variables. *)
Record regs := Regs { ra : N; rb : N; rc : N; rd : N; re : N; rf : N; rg : N; rh : N }.

(** The initial hash value: the first 32 bits of the fractional parts of the
    square roots of the first 8 primes. *)
Definition H0 : regs :=
  match map (fun p => w32 (N.sqrt (p * 2 ^ 64))) (primes_below 20) with
  | [a; b; c; d; e; f; g; h] => Regs a b c d e f g h
  | _ => Regs 0 0 0 0 0 0 0 0
  end.

(** Big-endian length in [n] octets. *)
Fixpoint be_bytes (n : nat) (x : N) : list N :=
  match n with
  | O => []
  | S n' => be_bytes n' (x / 256) ++ [x mod 256]
  end.

Definition pad (msg : list N) : list N :=
  let l := N.of_nat (length msg) in
  let k := (119 - l mod 64) mod 64 in
  msg ++ [0x80] ++ repeat 0 (N.to_nat k) ++ be_bytes 8 (8 * l).

Fixpoint be_words (n : nat) (bs : list N) : list N :=
  match n with
  | O => []
  | S n' =>
      match bs with
      | b0 :: b1 :: b2 :: b3 :: bs' =>
          (((b0 * 256 + b1) * 256 + b2) * 256 + b3) :: be_words n' bs'
      | _ => []
      end
  end.

(** The message schedule, most recent word first. *)
Fixpoint extend (n : nat) (rev_w : list N) : list N :=
  match n with
  | O => rev_w
  | S n' =>
      let w := add32 (add32 (sigma1 (nth 1 rev_w 0)) (nth 6 rev_w 0))
                     (add32 (sigma0 (nth 14 rev_w 0)) (nth 15 rev_w 0)) in
      extend n' (w :: rev_w)
  end.

Definition schedule (block : list N) : list N :=
  rev (extend 48 (rev (be_words 16 block))).

Definition round (r : regs) (kw : N * N) : regs :=
  let t1 := add32 (add32 (add32 (rh r) (Sigma1 (re r))) (Ch (re r) (rf r) (rg r)))
                  (add32 (fst kw) (snd kw)) in
  let t2 := add32 (Sigma0 (ra r)) (Maj (ra r) (rb r) (rc r)) in
  Regs (add32 t1 t2) (ra r) (rb r) (rc r) (add32 (rd r) t1) (re r) (rf r) (rg r).

Definition compress (h : regs) (block : list N) : regs :=
  let r := fold_left round (combine K (schedule block)) h in
  Regs (add32 (ra h) (ra r)) (add32 (rb h) (rb r)) (add32 (rc h) (rc r))
       (add32 (rd h) (rd r)) (add32 (re h) (re r)) (add32 (rf h) (rf r))
       (add32 (rg h) (rg r)) (add32 (rh h) (rh r)).

Fixpoint blocks (n : nat) (h : regs) (bs : list N) : regs :=
  match n with
  | O => h
  | S n' => blocks n' (compress h (firstn 64 bs)) (skipn 64 bs)
  end.

Definition digest_regs (msg : list N) : regs :=
  let p := pad msg in blocks (length p / 64)%nat H0 p.

Definition hex_regs (r : regs) : pystr :=
  hex_word32 (ra r) ++ hex_word32 (rb r) ++ hex_word32 (rc r) ++ hex_word32 (rd r) ++
  hex_word32 (re r) ++ hex_word32 (rf r) ++ hex_word32 (rg r) ++ hex_word32 (rh r).

Definition hexdigest (msg : list N) : pystr := hex_regs (digest_regs msg).

End SHA256.

(** ** hashlib.md5 (RFC 1321), the digest the fallback branches name *)

Module MD5.

Definition w32 (x : N) : N := x mod 4294967296.
Definition add32 (x y : N) : N := w32 (x + y).
Definition rotl (n x : N) : N :=
  N.lor (w32 (N.shiftl x n)) (N.shiftr x (32 - n)).
Definition not32 (x : N) : N := N.lxor x 0xFFFFFFFF.

Definition T : list N :=
  [0xd76aa478; 0xe8c7b756; 0x242070db; 0xc1bdceee; 0xf57c0faf; 0x4787c62a;
   0xa8304613; 0xfd469501; 0x698098d8; 0x8b44f7af; 0xffff5bb1; 0x895cd7be;
   0x6b901122; 0xfd987193; 0xa679438e; 0x49b40821; 0xf61e2562; 0xc040b340;
   0x265e5a51; 0xe9b6c7aa; 0xd62f105d; 0x02441453; 0xd8a1e681; 0xe7d3fbc8;
   0x21e1cde6; 0xc33707d6; 0xf4d50d87; 0x455a14ed; 0xa9e3e905; 0xfcefa3f8;
   0x676f02d9; 0x8d2a4c8a; 0xfffa3942; 0x8771f681; 0x6d9d6122; 0xfde5380c;
   0xa4beea44; 0x4bdecfa9; 0xf6bb4b60; 0xbebfbc70; 0x289b7ec6; 0xeaa127fa;
   0xd4ef3085; 0x04881d05; 0xd9d4d039; 0xe6db99e5; 0x1fa27cf8; 0xc4ac5665;
   0xf4292244; 0x432aff97; 0xab9423a7; 0xfc93a039; 0x655b59c3; 0x8f0ccc92;
   0xffeff47d; 0x85845dd1; 0x6fa87e4f; 0xfe2ce6e0; 0xa3014314; 0x4e0811a1;
   0xf7537e82; 0xbd3af235; 0x2ad7d2bb; 0xeb86d391].

Definition shifts : list N :=
  [7; 12; 17; 22; 7; 12; 17; 22; 7; 12; 17; 22; 7; 12; 17; 22;
   5; 9; 14; 20; 5; 9; 14; 20; 5; 9; 14; 20; 5; 9; 14; 20;
   4; 11; 16; 23; 4; 11; 16; 23; 4; 11; 16; 23; 4; 11; 16; 23;
   6; 10; 15; 21; 6; 10; 15; 21; 6; 10; 15; 21; 6; 10; 15; 21].

Record regs := Regs { ra : N; rb : N; rc : N; rd : N }.

Definition init : regs := Regs 0x67452301 0xefcdab89 0x98badcfe 0x10325476.

(** Little-endian octets of a word, and back. *)
Fixpoint le_bytes (n : nat) (x : N) : list N :=
  match n with
  | O => []
  | S n' => (x mod 256) :: le_bytes n' (x / 256)
  end.

Fixpoint le_words (n : nat) (bs : list N) : list N :=
  match n with
  | O => []
  | S n' =>
      match bs with
      | b0 :: b1 :: b2 :: b3 :: bs' =>
          (b0 + 256 * (b1 + 256 * (b2 + 256 * b3))) :: le_words n' bs'
      | _ => []
      end
  end.

Definition pad (msg : list N) : list N :=
  let l := N.of_nat (length msg) in
  let k := (119 - l mod 64) mod 64 in
  msg ++ [0x80] ++ repeat 0 (N.to_nat k) ++ le_bytes 8 (8 * l).

Definition step (m : list N) (r : regs) (i : nat) : regs :=
  let '(Regs a b c d) := r in
  let n := N.of_nat i in
  let '(f, g) :=
    if n <? 16 then (N.lor (N.land b c) (N.land (not32 b) d), n)
    else if n <? 32 then (N.lor (N.land d b) (N.land (not32 d) c), (5 * n + 1) mod 16)
    else if n <? 48 then (N.lxor (N.lxor b c) d, (3 * n + 5) mod 16)
    else (N.lxor c (N.lor b (not32 d)), (7 * n) mod 16) in
  let f' := add32 (add32 f a) (add32 (nth i T 0) (nth (N.to_nat g) m 0)) in
  Regs d (add32 b (rotl (nth i shifts 0) f')) b c.

Definition compress (h : regs) (block : list N) : regs :=
  let r := fold_left (step (le_words 16 block)) (seq 0 64) h in
  Regs (add32 (ra h) (ra r)) (add32 (rb h) (rb r))
       (add32 (rc h) (rc r)) (add32 (rd h) (rd r)).

Fixpoint blocks (n : nat) (h : regs) (bs : list N) : regs :=
  match n with
  | O => h
  | S n' => blocks n' (compress h (firstn 64 bs)) (skipn 64 bs)
  end.

Definition digest_regs (msg : list N) : regs :=
  let p := pad msg in blocks (length p / 64)%nat init p.

Definition hexdigest (msg : list N) : pystr :=
  let r := digest_regs msg in
  flat_map hex_byte
    (le_bytes 4 (ra r) ++ le_bytes 4 (rb r) ++ le_bytes 4 (rc r) ++ le_bytes 4 (rd r)).

End MD5.

(** ** base64 and bytes.decode *)

Definition b64_char (i : N) : N :=
  if i <? 26 then 65 + i
  else if i <? 52 then 71 + i
  else if i <? 62 then i - 4
  else if i =? 62 then 43 else 47.

Fixpoint b64encode (bs : list N) : list N :=
  match bs with
  | [] => []
  | [b0] => [b64_char (b0 / 4); b64_char ((b0 mod 4) * 16); 61; 61]
  | [b0; b1] =>
      [b64_char (b0 / 4); b64_char ((b0 mod 4) * 16 + b1 / 16);
       b64_char ((b1 mod 16) * 4); 61]
  | b0 :: b1 :: b2 :: rest =>
      [b64_char (b0 / 4); b64_char ((b0 mod 4) * 16 + b1 / 16);
       b64_char ((b1 mod 16) * 4 + b2 / 64); b64_char (b2 mod 64)] ++ b64encode rest
  end.

(** [bytes.decode()]: strict UTF-8; [None] stands for [UnicodeDecodeError]. *)
Definition is_cont (b : N) : bool := (0x80 <=? b) && (b <? 0xC0).

Fixpoint decode (bs : list N) : option pystr :=
  match bs with
  | [] => Some []
  | b0 :: r0 =>
      if b0 <? 0x80 then option_map (cons b0) (decode r0)
      else if b0 <? 0xC2 then None
      else if b0 <? 0xE0 then
        match r0 with
        | b1 :: r1 =>
            if is_cont b1
            then option_map (cons ((b0 - 0xC0) * 64 + (b1 - 0x80))) (decode r1)
            else None
        | _ => None
        end
      else if b0 <? 0xF0 then
        match r0 with
        | b1 :: b2 :: r2 =>
            let c := ((b0 - 0xE0) * 64 + (b1 - 0x80)) * 64 + (b2 - 0x80) in
            if is_cont b1 && is_cont b2 && (0x800 <=? c)
               && negb ((0xD800 <=? c) && (c <=? 0xDFFF))
            then option_map (cons c) (decode r2)
            else None
        | _ => None
        end
      else if b0 <? 0xF5 then
        match r0 with
        | b1 :: b2 :: b3 :: r3 =>
            let c := (((b0 - 0xF0) * 64 + (b1 - 0x80)) * 64 + (b2 - 0x80)) * 64
                     + (b3 - 0x80) in
            if is_cont b1 && is_cont b2 && is_cont b3
               && (0x10000 <=? c) && (c <? 0x110000)
            then option_map (cons c) (decode r3)
            else None
        | _ => None
        end
      else None
  end.

(** ** datetime

    A naive [datetime] is an instant: the microseconds since
    0001-01-01T00:00:00 in the proleptic Gregorian calendar, below
    [max_instant], the first instant of the year 10000. *)

Definition max_instant : Z := 3652059 * 86400000000.

(** Decimal digits of fixed width, most significant first. *)
Fixpoint digits (width : nat) (n : Z) : pystr :=
  match width with
  | O => []
  | S k => Z.to_N (48 + n / 10 ^ Z.of_nat k)%Z :: digits k (n mod 10 ^ Z.of_nat k)%Z
  end.

(** The calendar of the standard library ([datetime]): month lengths of a
    common year, indexed from 1. *)
Definition _DAYS_IN_MONTH : list Z := [-1; 31; 28; 31; 30; 31; 30; 31; 31; 30; 31; 30; 31]%Z.

Fixpoint running_sums (acc : Z) (l : list Z) : list Z :=
  match l with
  | [] => []
  | x :: l' => acc :: running_sums (acc + x)%Z l'
  end.

(** Days of a common year before the first of each month. *)
Definition _DAYS_BEFORE_MONTH : list Z := (-1)%Z :: running_sums 0 (tl _DAYS_IN_MONTH).

Definition _is_leap (year : Z) : bool :=
  ((year mod 4 =? 0) && (negb (year mod 100 =? 0) || (year mod 400 =? 0)))%Z.

(** Days before the first of January of [year]. *)
Definition _days_before_year (year : Z) : Z :=
  let y := (year - 1)%Z in (y * 365 + y / 4 - y / 100 + y / 400)%Z.

(** The end of [_ord2ymd]: month and day of the [n]-th day of a year, from
    the estimate [(n + 50) >> 5], which is exact or one too large. *)
Definition month_and_day (leapyear : bool) (n : Z) : Z * Z :=
  let month := Z.shiftr (n + 50) 5 in
  let preceding :=
    (nth (Z.to_nat month) _DAYS_BEFORE_MONTH 0 +
     (if (2 <? month) && leapyear then 1 else 0))%Z in
  if (n <? preceding)%Z then
    let month := (month - 1)%Z in
    let preceding :=
      (preceding - (nth (Z.to_nat month) _DAYS_IN_MONTH 0 +
                    (if (month =? 2) && leapyear then 1 else 0)))%Z in
    (month, n - preceding + 1)%Z
  else (month, n - preceding + 1)%Z.

(** Year, month and day of a proleptic Gregorian ordinal; 0001-01-01 is
    ordinal 1. *)
Definition _ord2ymd (n : Z) : Z * Z * Z :=
  let n := (n - 1)%Z in
  let n400 := (n / 146097)%Z in
  let n := (n mod 146097)%Z in
  let year := (n400 * 400 + 1)%Z in
  let n100 := (n / 36524)%Z in
  let n := (n mod 36524)%Z in
  let n4 := (n / 1461)%Z in
  let n := (n mod 1461)%Z in
  let n1 := (n / 365)%Z in
  let n := (n mod 365)%Z in
  let year := (year + n100 * 100 + n4 * 4 + n1)%Z in
  if ((n1 =? 4) || (n100 =? 4))%Z then ((year - 1)%Z, 12%Z, 31%Z)
  else
    let leapyear := ((n1 =? 3) && (negb (n4 =? 24) || (n100 =? 3)))%Z in
    let '(month, day) := month_and_day leapyear n in
    (year, month, day).

(** The fraction of a second, which [isoformat] omits when it is zero. *)
Definition fraction (us : Z) : pystr :=
  if (us =? 0)%Z then [] else 46 :: digits 6 us.

(** [t.isoformat(sep)] *)
Definition isoformat_sep (sep : N) (t : Z) : pystr :=
  let '(y, m, d) := _ord2ymd (t / 86400000000 + 1) in
  let r := (t mod 86400000000)%Z in
  let us := (r mod 1000000)%Z in
  let q1 := (r / 1000000)%Z in
  let s := (q1 mod 60)%Z in
  let q2 := (q1 / 60)%Z in
  digits 4 y ++ 45 :: digits 2 m ++ 45 :: digits 2 d ++ sep ::
  digits 2 (q2 / 60) ++ 58 :: digits 2 (q2 mod 60) ++ 58 :: digits 2 s ++ fraction us.

(** [t.isoformat()] *)
Definition isoformat (t : Z) : pystr := isoformat_sep 84 t.

(** ** Values, dictionaries and exceptions *)

(** The scalars a record carries: [None], [bool], [int], [str], and the two
    the store adds, [datetime] (microseconds since 0001-01-01) and
    [ObjectId]. *)
Inductive value :=
  | VNone
  | VBool (b : bool)
  | VInt (z : Z)
  | VStr (s : pystr)
  | VDate (t : Z)
  | VOid (n : N).

#[export] Instance value_eq_dec : EqDecision value.
Proof. solve_decision. Defined.

(** A [dict] keeps its keys in insertion order. *)
Abbreviation dict := (list (pystr * value)).

(** [d.get(k)] *)
Fixpoint dict_get (d : dict) (k : pystr) : option value :=
  match d with
  | [] => None
  | (k', v) :: d' => if bool_decide (k' = k) then Some v else dict_get d' k
  end.

(** [d[k] = v]: an existing key keeps its place, a new key goes last. *)
Fixpoint dict_set (d : dict) (k : pystr) (v : value) : dict :=
  match d with
  | [] => [(k, v)]
  | (k', v') :: d' =>
      if bool_decide (k' = k) then (k', v) :: d' else (k', v') :: dict_set d' k v
  end.

(** [del d[k]] on a dictionary that has [k]. *)
Fixpoint dict_del (d : dict) (k : pystr) : dict :=
  match d with
  | [] => []
  | (k', v') :: d' =>
      if bool_decide (k' = k) then dict_del d' k else (k', v') :: dict_del d' k
  end.

(** [k in d] *)
Definition dict_has (d : dict) (k : pystr) : bool :=
  match dict_get d k with Some _ => true | None => false end.

Inductive exn :=
  | UnicodeEncodeError
  | UnicodeDecodeError
  | KeyError (k : pystr)
  | AttributeError
  | InvalidToken
  | OverflowError
  | ValueError
  | DuplicateKeyError
  | WriteError
  | BulkWriteError.

#[export] Instance exn_eq_dec : EqDecision exn.
Proof. solve_decision. Defined.

Inductive outcome (A : Type) :=
  | Ok (a : A)
  | Raise (e : exn).
Arguments Ok {A} a.
Arguments Raise {A} e.

(** ** What the interpreter and the operating system provide *)

(** The Unicode tables behind [\d] and [\w] for code points from 128 on, the
    clock behind [datetime.utcnow] and [os.urandom]. The clock and the
    random source are indexed by the number of readings taken so far. *)
Record platform := Platform {
  isdecimal : N -> bool;
  isalnum : N -> bool;
  utcnow_at : nat -> Z;
  urandom_at : nat -> list N
}.

(** [cryptography.fernet.Fernet]: a token is made from fresh random octets,
    the current time and the plaintext. *)
Record Fernet := {
  fernet_encrypt : list N -> Z -> list N -> list N;
  fernet_decrypt : list N -> option (list N)
}.

(** The attributes of a [PrivacyUtils] object that its methods read; the
    field lists are the same for every object. *)
Record PrivacyUtils := {
  cipher : Fernet;
  ferpa_enabled : bool;
  audit_enabled : bool;
  anonymization_enabled : bool
}.

(** ** The world a call runs in *)

Inductive level := INFO | WARNING | ERROR.

(** One line of the [logging] output: level, text and the exception the
    text was formatted from. *)
Record log_record := Log { log_level : level; log_text : pystr; log_cause : option exn }.

(** A MongoDB database: its collections (documents in natural order), the
    fields under a unique index per collection, and the ObjectId counter of
    the driver. *)
Record database := Database {
  collections : gmap pystr (list dict);
  unique_indexes : gmap pystr (list pystr);
  oid_seq : N
}.

Record world := World {
  heap : gmap nat dict;
  ticks : nat;
  draws : nat;
  logs : list log_record;
  mongo : database
}.

Definition set_heap (h : gmap nat dict) (w : world) : world :=
  World h (ticks w) (draws w) (logs w) (mongo w).
Definition set_ticks (n : nat) (w : world) : world :=
  World (heap w) n (draws w) (logs w) (mongo w).
Definition set_draws (n : nat) (w : world) : world :=
  World (heap w) (ticks w) n (logs w) (mongo w).
Definition set_logs (l : list log_record) (w : world) : world :=
  World (heap w) (ticks w) (draws w) l (mongo w).
Definition set_mongo (m : database) (w : world) : world :=
  World (heap w) (ticks w) (draws w) (logs w) m.

(** A computation may change the world and either returns or raises. *)
Definition M (A : Type) : Type := world -> outcome A * world.

Definition ret {A} (a : A) : M A := fun w => (Ok a, w).
Definition raise {A} (e : exn) : M A := fun w => (Raise e, w).
Definition bind {A B} (m : M A) (k : A -> M B) : M B :=
  fun w => match m w with
           | (Ok a, w') => k a w'
           | (Raise e, w') => (Raise e, w')
           end.
(** [try: m  except Exception as e: h e] *)
Definition try_except {A} (m : M A) (h : exn -> M A) : M A :=
  fun w => match m w with
           | (Ok a, w') => (Ok a, w')
           | (Raise e, w') => h e w'
           end.

Notation "'let*' x ':=' m 'in' k" := (bind m (fun x => k))
  (at level 10, x pattern, m at level 100, k at level 200).
Notation "m ';;;' k" := (bind m (fun _ => k))
  (at level 100, k at level 200, right associativity).

(** [for x in xs: body x] *)
Fixpoint for_each {A} (xs : list A) (body : A -> M unit) : M unit :=
  match xs with
  | [] => ret tt
  | x :: xs' => body x ;;; for_each xs' body
  end.

(** [[f x for x in xs]], built by appending. *)
Fixpoint collect {A B} (xs : list A) (f : A -> M B) : M (list B) :=
  match xs with
  | [] => ret []
  | x :: xs' => let* y := f x in let* ys := collect xs' f in ret (y :: ys)
  end.

(** *** Objects *)

Definition deref (l : nat) : M dict :=
  fun w => match heap w !! l with
           | Some d => (Ok d, w)
           | None => (Raise AttributeError, w)
           end.

Definition store (l : nat) (d : dict) : M unit :=
  fun w => (Ok tt, set_heap (<[l := d]> (heap w)) w).

(** A new dictionary object. *)
Definition new_dict (d : dict) : M nat :=
  fun w => let l := fresh (dom (heap w)) in
           (Ok l, set_heap (<[l := d]> (heap w)) w).

(** [d.copy()]: a new object with the same items. *)
Definition copy (l : nat) : M nat :=
  let* d := deref l in new_dict d.

(** [k in d] *)
Definition contains (l : nat) (k : pystr) : M bool :=
  let* d := deref l in ret (dict_has d k).

(** [d[k]] *)
Definition getitem (l : nat) (k : pystr) : M value :=
  let* d := deref l in
  match dict_get d k with
  | Some v => ret v
  | None => raise (KeyError k)
  end.

(** [d[k] = v] *)
Definition setitem (l : nat) (k : pystr) (v : value) : M unit :=
  let* d := deref l in store l (dict_set d k v).

(** [del d[k]] *)
Definition delitem (l : nat) (k : pystr) : M unit :=
  let* d := deref l in
  if dict_has d k then store l (dict_del d k) else raise (KeyError k).

(** [list(d.items())] *)
Definition items (l : nat) : M dict := deref l.

(** *** Logging, clock, randomness *)

Definition logger (lv : level) (text : pystr) (cause : option exn) : M unit :=
  fun w => (Ok tt, set_logs (logs w ++ [Log lv text cause]) w).

(** Decimal numerals, as [str] prints an [int]. *)
Definition str_of_Z (z : Z) : pystr :=
  py (DecimalString.NilZero.string_of_int (Z.to_int z)).
Definition str_of_nat (n : nat) : pystr := str_of_Z (Z.of_nat n).

(** [str(v)] *)
Definition py_str (v : value) : pystr :=
  match v with
  | VNone => py "None"
  | VBool true => py "True"
  | VBool false => py "False"
  | VInt z => str_of_Z z
  | VStr s => s
  | VDate t => isoformat_sep 32 t
  | VOid n => flat_map hex_byte (SHA256.be_bytes 12 n)
  end.

(** [bool(v)] *)
Definition truthy (v : value) : bool :=
  match v with
  | VNone => false
  | VBool b => b
  | VInt z => negb (z =? 0)%Z
  | VStr s => negb (bool_decide (s = []))
  | VDate _ => true
  | VOid _ => true
  end.

(** *** Tactics *)

(** Decide a closed proposition by evaluation. *)
Ltac by_compute :=
  match goal with |- ?G => apply (bool_decide_unpack G); vm_compute; exact I end.

(** Reduce the projections of an updated world. *)
Ltac world_simpl :=
  cbn [heap ticks draws logs mongo set_heap set_ticks set_draws set_logs set_mongo
       collections unique_indexes oid_seq fst snd default].


(** ** A platform and a deployment for the examples *)

(** An interpreter that classifies ASCII only, a clock that starts on
    2025-01-01 at noon and advances a millisecond per reading, and a random
    source that counts. *)
Definition demo_platform : platform := {|
  isdecimal := fun _ => false;
  isalnum := fun _ => false;
  utcnow_at := fun n => (63871329600000000 + 1000 * Z.of_nat n)%Z;
  urandom_at := fun n => repeat (N.of_nat n mod 256) 16
|}.

(** A cipher whose token shows its parts: version octet, random octets,
    plaintext. *)
Definition demo_cipher : Fernet := {|
  fernet_encrypt := fun iv _ data => 0x80 :: iv ++ data;
  fernet_decrypt := fun token =>
    match token with
    | 0x80 :: rest => Some (skipn 16 rest)
    | _ => None
    end
|}.

Definition demo_self : PrivacyUtils := {|
  cipher := demo_cipher;
  ferpa_enabled := true;
  audit_enabled := true;
  anonymization_enabled := true
|}.

Definition empty_database : database := Database ∅ ∅ 0.

(** Three raw student records; the name of the third holds a lone
    surrogate, which UTF-8 cannot encode. *)
Definition ann : dict :=
  [(py "student_id", VStr (py "1001"));
   (py "name", VStr (py "Ann Lee"));
   (py "email", VStr (py "ann.lee@example.edu"));
   (py "notes", VStr (py "jo@x.com 555-123-4567"));
   (py "credits", VInt 42)].

Definition bob : dict :=
  [(py "student_id", VInt 1002);
   (py "name", VStr (py "Bob Ray"));
   (py "phone", VStr (py "555-987-6543"))].

Definition eve : dict :=
  [(py "student_id", VStr (py "1003"));
   (py "name", VStr [69; 0xD800; 101])].

(** A record that comes with a field named like a derived one. *)
Definition dan : dict :=
  [(py "email", VStr (py "dan@example.edu"));
   (py "email_hash", VStr (py "0000"))].

Definition demo_world : world :=
  World (<[0%nat := ann]> (<[1%nat := bob]> (<[2%nat := eve]> (<[3%nat := dan]> ∅))))
        0 0 [] empty_database.

(** Records as the anonymizer hands them to the store: two pseudonyms, the
    third record equal to the first. *)
Definition rec_a : dict :=
  [(py "anonymous_id", VStr (py "anon_fe675fe7aaee830b")); (py "credits", VInt 42)].
Definition rec_b : dict :=
  [(py "anonymous_id", VStr (py "anon_b281bc2c616cb3c3")); (py "credits", VInt 30)].
Definition rec_a' : dict :=
  [(py "anonymous_id", VStr (py "anon_fe675fe7aaee830b")); (py "credits", VInt 45)].

Definition store_world : world :=
  World (<[0%nat := rec_a]> (<[1%nat := rec_b]> (<[2%nat := rec_a]> (<[3%nat := rec_a']> ∅))))
        0 0 [] empty_database.

(** A database with three collected documents, two of them older than the
    first reading of the clock. *)
Definition collected (id : Z) (t : Z) : dict :=
  [(py "_id", VInt id); (py "collected_at", VStr (isoformat t))].

Definition aged_world : world :=
  World ∅ 0 0 []
    (Database (<[py "canvas_students" := [collected 1 63871286400000000;
                                          collected 2 63871329600000001]]>
                 (<[py "moodle_users" := [collected 3 63871329599999999]]> ∅))
              ∅ 0).

(** ** The pattern language of [re], as far as [pii_patterns] uses it *)

(** A pattern is a sequence of word-boundary assertions and bounded or
    unbounded repetitions of a character class. *)
Inductive item :=
  | Bnd
  | Rep (cls : N -> bool) (lo : nat) (hi : option nat).

Definition Lit (c : N) : item := Rep (N.eqb c) 1 (Some 1%nat).

Definition below (n : nat) (hi : option nat) : bool :=
  match hi with Some h => (n <? h)%nat | None => true end.

Definition ascii_digit (c : N) : bool := (48 <=? c) && (c <=? 57).
Definition ascii_upper (c : N) : bool := (65 <=? c) && (c <=? 90).
Definition ascii_lower (c : N) : bool := (97 <=? c) && (c <=? 122).
Definition ascii_alnum (c : N) : bool := ascii_digit c || ascii_upper c || ascii_lower c.

Section Pipeline.

Variable P : platform.

(** [\d] and [\w] on [str] patterns follow the Unicode tables. *)
Definition is_digit (c : N) : bool :=
  if c <? 128 then ascii_digit c else isdecimal P c.
Definition is_word (c : N) : bool :=
  if c <? 128 then ascii_alnum c || (c =? 95) else isalnum P c.

(** [\b] holds between a word character and a non-word character or an end
    of the string. *)
Definition at_boundary (prev : option N) (s : pystr) : bool :=
  let before := match prev with Some c => is_word c | None => false end in
  let after := match s with c :: _ => is_word c | [] => false end in
  xorb before after.

(** Does the pattern match some prefix of [s], the character before [s]
    being [prev]? *)
Fixpoint match_here (p : list item) (prev : option N) (s : pystr) : bool :=
  match p with
  | [] => true
  | Bnd :: p' => at_boundary prev s && match_here p' prev s
  | Rep cls lo hi :: p' =>
      (fix rep (n : nat) (prev : option N) (s : pystr) {struct s} : bool :=
         ((lo <=? n)%nat && match_here p' prev s) ||
         match s with
         | c :: s' => cls c && below n hi && rep (S n) (Some c) s'
         | [] => false
         end) 0%nat prev s
  end.

Fixpoint search_from (p : list item) (prev : option N) (s : pystr) : bool :=
  match_here p prev s ||
  match s with
  | c :: s' => search_from p (Some c) s'
  | [] => false
  end.

(** [bool(re.search(p, s))] *)
Definition re_search (p : list item) (s : pystr) : bool := search_from p None s.

(** [self.pii_patterns] *)
Definition email_local (c : N) : bool :=
  ascii_alnum c || (c =? 46) || (c =? 95) || (c =? 37) || (c =? 43) || (c =? 45).
Definition email_host (c : N) : bool := ascii_alnum c || (c =? 46) || (c =? 45).
Definition email_tld (c : N) : bool := ascii_upper c || (c =? 124) || ascii_lower c.
Definition dash_or_dot (c : N) : bool := (c =? 45) || (c =? 46).

(** [\b[A-Za-z0-9._%+-]+@[A-Za-z0-9.-]+\.[A-Z|a-z]{2,}\b] *)
Definition pattern_email : list item :=
  [Bnd; Rep email_local 1 None; Lit 64; Rep email_host 1 None; Lit 46;
   Rep email_tld 2 None; Bnd].
(** [\b\d{3}[-.]?\d{3}[-.]?\d{4}\b] *)
Definition pattern_phone : list item :=
  [Bnd; Rep is_digit 3 (Some 3%nat); Rep dash_or_dot 0 (Some 1%nat);
   Rep is_digit 3 (Some 3%nat); Rep dash_or_dot 0 (Some 1%nat);
   Rep is_digit 4 (Some 4%nat); Bnd].
(** [\b\d{3}-?\d{2}-?\d{4}\b] *)
Definition pattern_ssn : list item :=
  [Bnd; Rep is_digit 3 (Some 3%nat); Rep (N.eqb 45) 0 (Some 1%nat);
   Rep is_digit 2 (Some 2%nat); Rep (N.eqb 45) 0 (Some 1%nat);
   Rep is_digit 4 (Some 4%nat); Bnd].
(** [\b\d{6,10}\b] *)
Definition pattern_student_id : list item :=
  [Bnd; Rep is_digit 6 (Some 10%nat); Bnd].

(** ** class PrivacyUtils *)

Definition pii_fields : list pystr :=
  map py ["email"; "login_id"; "name"; "sortable_name"; "short_name";
          "phone"; "address"; "ssn"; "student_number"; "sis_user_id"]%string.

Definition sensitive_fields : list pystr :=
  map py ["email"; "phone"; "address"; "ssn"; "student_number"]%string.

Definition is_sensitive (f : pystr) : bool := bool_decide (f ∈ sensitive_fields).

Variable self : PrivacyUtils.

(** [datetime.utcnow()] *)
Definition utcnow : M Z :=
  fun w => (Ok (utcnow_at P (ticks w)), set_ticks (S (ticks w)) w).

(** [os.urandom(16)] *)
Definition urandom : M (list N) :=
  fun w => (Ok (urandom_at P (draws w)), set_draws (S (draws w)) w).

(** [s.encode()] *)
Definition encode_str (s : pystr) : M (list N) :=
  match encode s with
  | Some b => ret b
  | None => raise UnicodeEncodeError
  end.

(** [b.decode()] *)
Definition decode_bytes (b : list N) : M pystr :=
  match decode b with
  | Some s => ret s
  | None => raise UnicodeDecodeError
  end.

(** [s.split('@', 1)] when [s] has an ['@']. *)
Fixpoint split_once (sep : N) (s : pystr) : option (pystr * pystr) :=
  match s with
  | [] => None
  | c :: s' =>
      if c =? sep then Some ([], s')
      else match split_once sep s' with
           | Some (a, b) => Some (c :: a, b)
           | None => None
           end
  end.

(** The [try] of [_mask_email] guards only total string operations, so its
    handler is never entered. *)
Definition _mask_email (email : pystr) : pystr :=
  match split_once 64 email with
  | Some (local, domain) =>
      let masked_local :=
        if (2 <? length local)%nat
        then firstn 1 local ++ repeat 42 (length local - 2) ++ [List.last local 0]
        else repeat 42 (length local) in
      masked_local ++ [64] ++ domain
  | None => email
  end.

(** [s[-n:]] *)
Definition last_n {A} (n : nat) (s : list A) : list A := skipn (length s - n) s.

Definition _mask_phone (phone : pystr) : pystr :=
  let digits := List.filter is_digit phone in
  if (10 <=? length digits)%nat
  then py "***-***-" ++ last_n 4 digits
  else py "***-***-****".

Definition _mask_ssn (ssn : pystr) : pystr := py "***-**-****".

(** The body of [for key, value in record.items()] in [_anonymize_record]. *)
Definition mask_item (record : nat) (kv : pystr * value) : M unit :=
  match snd kv with
  | VStr s =>
      if re_search pattern_email s then setitem record (fst kv) (VStr (_mask_email s))
      else if re_search pattern_phone s then setitem record (fst kv) (VStr (_mask_phone s))
      else if re_search pattern_ssn s then setitem record (fst kv) (VStr (_mask_ssn s))
      else ret tt
  | _ => ret tt
  end.

Definition _anonymize_record (record : nat) : M nat :=
  try_except
    (let* its := items record in
     for_each its (mask_item record) ;;;
     ret record)
    (fun e => logger ERROR (py "Record anonymization failed: ") (Some e) ;;; ret record).

Definition _generate_anonymous_id (original_id : pystr) : M pystr :=
  try_except
    (let* b := encode_str original_id in
     ret (py "anon_" ++ firstn 16 (SHA256.hexdigest b)))
    (fun e =>
       logger ERROR (py "Anonymous ID generation failed: ") (Some e) ;;;
       let* b := encode_str original_id in
       ret (py "anon_" ++ firstn 16 (MD5.hexdigest b))).

Definition _hash_field (v : pystr) : M pystr :=
  try_except
    (let* b := encode_str v in ret (SHA256.hexdigest b))
    (fun e =>
       logger ERROR (py "Field hashing failed: ") (Some e) ;;;
       let* b := encode_str v in ret (MD5.hexdigest b)).

(** [self.cipher.encrypt(data)] *)
Definition cipher_encrypt (data : list N) : M (list N) :=
  let* iv := urandom in
  let* t := utcnow in
  ret (fernet_encrypt (cipher self) iv t data).

(** [self.cipher.decrypt(token)] *)
Definition cipher_decrypt (token : list N) : M (list N) :=
  match fernet_decrypt (cipher self) token with
  | Some data => ret data
  | None => raise InvalidToken
  end.

Definition _encrypt_field (v : pystr) : M pystr :=
  try_except
    (let* b := encode_str v in
     let* encrypted_value := cipher_encrypt b in
     decode_bytes (b64encode encrypted_value))
    (fun e =>
       logger ERROR (py "Field encryption failed: ") (Some e) ;;;
       _hash_field v).

(** A JSON string literal of plain text. *)
Definition quoted (s : pystr) : pystr := [34] ++ s ++ [34].

Definition _log_privacy_event (event_type details : pystr) : M unit :=
  if negb (audit_enabled self) then ret tt
  else
    try_except
      (let* now := utcnow in
       logger INFO
         (py "Privacy audit: {" ++
          quoted (py "timestamp") ++ py ": " ++ quoted (isoformat now) ++ py ", " ++
          quoted (py "event_type") ++ py ": " ++ quoted event_type ++ py ", " ++
          quoted (py "details") ++ py ": " ++ quoted details ++ py ", " ++
          quoted (py "compliance_framework") ++ py ": " ++ quoted (py "FERPA") ++ py ", " ++
          quoted (py "source") ++ py ": " ++ quoted (py "privacy_utils") ++ py "}")
         None)
      (fun e => logger ERROR (py "Privacy event logging failed: ") (Some e)).

(** One turn of the loop over [self.pii_fields] in [anonymize_student_data]. *)
Definition replace_pii_field (anonymized_student : nat) (field : pystr) : M unit :=
  let* present := contains anonymized_student field in
  if present then
    if is_sensitive field then
      let* v := getitem anonymized_student field in
      let* c := _encrypt_field (py_str v) in
      setitem anonymized_student (field ++ py "_encrypted") (VStr c) ;;;
      delitem anonymized_student field
    else
      let* v := getitem anonymized_student field in
      let* h := _hash_field (py_str v) in
      setitem anonymized_student (field ++ py "_hash") (VStr h) ;;;
      delitem anonymized_student field
  else ret tt.

(** The body of [for student in students] in [anonymize_student_data]. *)
Definition anonymize_student (student : nat) : M nat :=
  let* c := copy student in
  let* anonymized_student := _anonymize_record c in
  let* has_id := contains student (py "student_id") in
  (if has_id then
     let* sid := getitem student (py "student_id") in
     let* a := _generate_anonymous_id (py_str sid) in
     setitem anonymized_student (py "anonymous_id") (VStr a)
   else ret tt) ;;;
  for_each pii_fields (replace_pii_field anonymized_student) ;;;
  let* now := utcnow in
  setitem anonymized_student (py "anonymized_at") (VStr (isoformat now)) ;;;
  setitem anonymized_student (py "privacy_level") (VStr (py "ferpa_compliant")) ;;;
  ret anonymized_student.

Definition anonymize_student_data (students : list nat) : M (list nat) :=
  if negb (anonymization_enabled self) then
    logger INFO (py "Data anonymization is disabled") None ;;;
    ret students
  else
    try_except
      (let* anonymized_students := collect students anonymize_student in
       logger INFO (py "Anonymized " ++ str_of_nat (length anonymized_students)
                    ++ py " student records") None ;;;
       (if audit_enabled self then
          _log_privacy_event (py "student_data_anonymization")
            (py "Anonymized " ++ str_of_nat (length students) ++ py " student records")
        else ret tt) ;;;
       ret anonymized_students)
      (fun e =>
         logger ERROR (py "Student data anonymization failed: ") (Some e) ;;;
         raise e).

(** The body shared by [anonymize_attendance_data] and
    [anonymize_library_data], which differ in their log texts only. *)
Definition anonymize_usage_record (record : nat) : M nat :=
  let* c := copy record in
  let* anonymized_record := _anonymize_record c in
  let* has_id := contains record (py "student_id") in
  (if has_id then
     let* sid := getitem record (py "student_id") in
     let* a := _generate_anonymous_id (py_str sid) in
     setitem anonymized_record (py "anonymous_id") (VStr a) ;;;
     delitem anonymized_record (py "student_id")
   else ret tt) ;;;
  for_each pii_fields (fun field =>
    let* present := contains anonymized_record field in
    if present then delitem anonymized_record field else ret tt) ;;;
  let* now := utcnow in
  setitem anonymized_record (py "anonymized_at") (VStr (isoformat now)) ;;;
  ret anonymized_record.

Definition anonymize_attendance_data (attendance_records : list nat) : M (list nat) :=
  if negb (anonymization_enabled self) then ret attendance_records
  else
    try_except
      (let* anonymized_records := collect attendance_records anonymize_usage_record in
       logger INFO (py "Anonymized " ++ str_of_nat (length anonymized_records)
                    ++ py " attendance records") None ;;;
       ret anonymized_records)
      (fun e =>
         logger ERROR (py "Attendance data anonymization failed: ") (Some e) ;;;
         raise e).

Definition anonymize_library_data (library_records : list nat) : M (list nat) :=
  if negb (anonymization_enabled self) then ret library_records
  else
    try_except
      (let* anonymized_records := collect library_records anonymize_usage_record in
       logger INFO (py "Anonymized " ++ str_of_nat (length anonymized_records)
                    ++ py " library records") None ;;;
       ret anonymized_records)
      (fun e =>
         logger ERROR (py "Library data anonymization failed: ") (Some e) ;;;
         raise e).

(** ** MongoDB, as far as [MongoDBClient] drives it

    The server is reachable and collection names are valid; a lost
    connection is outside this model. *)

(** A missing field compares as [null], both in an equality filter and
    under a unique index. *)
Definition doc_field (d : dict) (k : pystr) : value :=
  default VNone (dict_get d k).

(** The driver sends [_id] first. *)
Definition bson_doc (d : dict) : dict :=
  match dict_get d (py "_id") with
  | Some i => (py "_id", i) :: dict_del d (py "_id")
  | None => d
  end.

Definition get_collection (name : pystr) : M (list dict) :=
  fun w => (Ok (default [] (collections (mongo w) !! name)), w).

Definition put_collection (name : pystr) (docs : list dict) : M unit :=
  fun w => (Ok tt,
            set_mongo (Database (<[name := docs]> (collections (mongo w)))
                                (unique_indexes (mongo w)) (oid_seq (mongo w))) w).

(** The fields with a unique index: [_id] always. *)
Definition unique_fields (name : pystr) : M (list pystr) :=
  fun w => (Ok (py "_id" :: default [] (unique_indexes (mongo w) !! name)), w).

Definition clashes (fields : list pystr) (docs : list dict) (d : dict) : bool :=
  existsb (fun f =>
    existsb (fun d' => bool_decide (doc_field d' f = doc_field d f)) docs) fields.

(** [ObjectId()]: a value no document of the collection carries yet. *)
Definition next_oid (docs : list dict) (seq : N) : N :=
  fold_right (fun d n =>
    match dict_get d (py "_id") with
    | Some (VOid m) => N.max (m + 1) n
    | _ => n
    end) seq docs.

Definition new_oid (name : pystr) : M value :=
  let* docs := get_collection name in
  fun w =>
    let n := next_oid docs (oid_seq (mongo w)) in
    (Ok (VOid n),
     set_mongo (Database (collections (mongo w)) (unique_indexes (mongo w)) (n + 1)) w).

(** The write of one document on the server. *)
Definition server_insert (name : pystr) (doc : dict) : M unit :=
  let* docs := get_collection name in
  let* fields := unique_fields name in
  if clashes fields docs doc then raise DuplicateKeyError
  else put_collection name (docs ++ [doc]).

(** The driver gives a document without [_id] a new one, in place. *)
Definition ensure_id (name : pystr) (document : nat) : M unit :=
  let* has := contains document (py "_id") in
  if has then ret tt
  else let* oid := new_oid name in setitem document (py "_id") oid.

(** [collection.insert_one(document)] *)
Definition insert_one (name : pystr) (document : nat) : M value :=
  ensure_id name document ;;;
  let* d := deref document in
  server_insert name (bson_doc d) ;;;
  ret (doc_field d (py "_id")).

(** [collection.insert_many(data, ordered=False)]: every document is
    attempted, and any failed write raises after the last one. *)
Definition insert_many (name : pystr) (data : list nat) : M (list value) :=
  for_each data (ensure_id name) ;;;
  let* results := collect data (fun document =>
    let* d := deref document in
    try_except (server_insert name (bson_doc d) ;;; ret (Some (doc_field d (py "_id"))))
               (fun _ => ret None)) in
  if forallb (fun r => match r with Some _ => true | None => false end) results
  then ret (omap id results)
  else raise BulkWriteError.

Record UpdateResult := {
  matched_count : nat;
  modified_count : nat;
  upserted_id : option value
}.

(** Index of the first document a predicate accepts. *)
Fixpoint find_first {A} (p : A -> bool) (l : list A) : option nat :=
  match l with
  | [] => None
  | x :: l' => if p x then Some 0%nat else option_map S (find_first p l')
  end.

(** Is the first key of the dictionary an operator such as [$set]? *)
Definition operator_first (d : dict) : bool :=
  match d with
  | (36 :: _, _) :: _ => true
  | _ => false
  end.

(** [collection.replace_one({key: v}, document, upsert=True)]. The driver
    refuses a replacement whose first key is an operator. A replacement
    equal to the stored document is a no-op: it matches without modifying. *)
Definition replace_one (name : pystr) (key : pystr) (v : value) (document : nat)
  : M UpdateResult :=
  let* d := deref document in
  (if operator_first d then raise ValueError else ret tt) ;;;
  let* docs := get_collection name in
  let* fields := unique_fields name in
  match find_first (fun d' => bool_decide (doc_field d' key = v)) docs with
  | Some i =>
      let old := default [] (docs !! i) in
      let old_id := doc_field old (py "_id") in
      if dict_has d (py "_id") && negb (bool_decide (doc_field d (py "_id") = old_id))
      then raise WriteError
      else
        let new := (py "_id", old_id) :: dict_del d (py "_id") in
        if bool_decide (new = old) then ret {| matched_count := 1; modified_count := 0; upserted_id := None |}
        else if clashes fields (delete i docs) new then raise DuplicateKeyError
        else put_collection name (<[i := new]> docs) ;;;
             ret {| matched_count := 1; modified_count := 1; upserted_id := None |}
  | None =>
      let* new_id :=
        match dict_get d (py "_id") with
        | Some i => ret i
        | None => new_oid name
        end in
      server_insert name ((py "_id", new_id) :: dict_del d (py "_id")) ;;;
      ret {| matched_count := 0; modified_count := 0; upserted_id := Some new_id |}
  end.

(** Code-point order, which is the order of the UTF-8 encodings that [$lt]
    compares. *)
Fixpoint str_ltb (a b : pystr) : bool :=
  match a, b with
  | _, [] => false
  | [], _ :: _ => true
  | x :: a', y :: b' => (x <? y) || ((x =? y) && str_ltb a' b')
  end.

(** [{'collected_at': {'$lt': bound}}]: only strings compare with a string. *)
Definition collected_before (bound : pystr) (d : dict) : bool :=
  match dict_get d (py "collected_at") with
  | Some (VStr s) => str_ltb s bound
  | _ => false
  end.

(** [collection.delete_many({'collected_at': {'$lt': bound}}).deleted_count] *)
Definition delete_many (name : pystr) (bound : pystr) : M nat :=
  let* docs := get_collection name in
  let gone := List.filter (collected_before bound) docs in
  (if bool_decide (gone = []) then ret tt
   else put_collection name (List.filter (fun d => negb (collected_before bound d)) docs)) ;;;
  ret (length gone).

(** [collection.create_index([(field, ASCENDING)], unique=True)] *)
Definition create_unique_index (name field : pystr) : M unit :=
  let* docs := get_collection name in
  if bool_decide (NoDup (map (fun d => doc_field d field) docs)) then
    fun w => (Ok tt,
              set_mongo (Database (collections (mongo w))
                           (<[name := default [] (unique_indexes (mongo w) !! name) ++ [field]]>
                              (unique_indexes (mongo w)))
                           (oid_seq (mongo w))) w)
  else raise DuplicateKeyError.

(** ** class MongoDBClient *)

(** The unique indexes of [_setup_indexes]; its other indexes do not change
    what a query returns. *)
Definition _setup_indexes : M unit :=
  try_except
    (create_unique_index (py "canvas_students") (py "student_id") ;;;
     create_unique_index (py "moodle_users") (py "user_id") ;;;
     create_unique_index (py "canvas_courses") (py "course_id") ;;;
     create_unique_index (py "moodle_courses") (py "course_id") ;;;
     create_unique_index (py "canvas_assignments") (py "assignment_id") ;;;
     logger INFO (py "MongoDB indexes created successfully") None)
    (fun e => logger ERROR (py "Failed to create MongoDB indexes: ") (Some e)).

Definition _log_data_operation (collection_name operation : pystr)
    (total_records inserted updated : nat) : M unit :=
  try_except
    (let* now := utcnow in
     let* audit_record := new_dict
       [(py "timestamp", VDate now);
        (py "operation", VStr operation);
        (py "collection", VStr collection_name);
        (py "total_records", VInt (Z.of_nat total_records));
        (py "inserted_records", VInt (Z.of_nat inserted));
        (py "updated_records", VInt (Z.of_nat updated));
        (py "source", VStr (py "mongodb_client"))] in
     insert_one (py "audit_logs") audit_record ;;;
     ret tt)
    (fun e => logger ERROR (py "Failed to log data operation: ") (Some e)).

(** The dictionary [store_data] returns. *)
Record counts := Counts { inserted : nat; updated : nat; failed : nat }.

(** One turn of the upsert loop of [store_data]. *)
Definition upsert_document (collection_name upsert_key : pystr) (c : counts)
    (document : nat) : M counts :=
  try_except
    (let* has_key := contains document upsert_key in
     if has_key then
       let* v := getitem document upsert_key in
       let* result := replace_one collection_name upsert_key v document in
       if match upserted_id result with Some i => truthy i | None => false end
       then ret (Counts (S (inserted c)) (updated c) (failed c))
       else if (0 <? modified_count result)%nat
       then ret (Counts (inserted c) (S (updated c)) (failed c))
       else ret c
     else
       insert_one collection_name document ;;;
       ret (Counts (S (inserted c)) (updated c) (failed c)))
    (fun e =>
       logger ERROR (py "Failed to upsert document: ") (Some e) ;;;
       ret (Counts (inserted c) (updated c) (S (failed c)))).

(** [for x in xs: c = body c x] *)
Fixpoint fold_each {A S} (xs : list A) (body : S -> A -> M S) (c : S) : M S :=
  match xs with
  | [] => ret c
  | x :: xs' => let* c' := body c x in fold_each xs' body c'
  end.

(** One turn of the one-by-one loop that follows a failed bulk insert. *)
Definition insert_document (collection_name : pystr) (c : counts) (document : nat)
  : M counts :=
  try_except
    (insert_one collection_name document ;;;
     ret (Counts (S (inserted c)) (updated c) (failed c)))
    (fun e =>
       match e with
       | DuplicateKeyError => ret c
       | _ =>
           logger ERROR (py "Failed to insert document: ") (Some e) ;;;
           ret (Counts (inserted c) (updated c) (S (failed c)))
       end).

Definition counts_text (c : counts) : pystr :=
  py "{'inserted': " ++ str_of_nat (inserted c) ++ py ", 'updated': " ++
  str_of_nat (updated c) ++ py ", 'failed': " ++ str_of_nat (failed c) ++ py "}".

(** The [else] branch of [store_data]: one bulk insert, then one by one. *)
Definition insert_all (collection_name : pystr) (data : list nat) : M counts :=
  try_except
    (let* result := insert_many collection_name data in
     ret (Counts (length result) 0 0))
    (fun e =>
       logger ERROR (py "Bulk insert failed: ") (Some e) ;;;
       fold_each data (insert_document collection_name) (Counts 0 0 0)).

(** [if upsert_key:] on an optional string. *)
Definition key_given (upsert_key : option pystr) : bool :=
  match upsert_key with
  | Some key => negb (bool_decide (key = []))
  | None => false
  end.

Definition store_data (collection_name : pystr) (data : list nat)
    (upsert_key : option pystr) : M counts :=
  if bool_decide (data = []) then
    logger WARNING (py "No data provided for collection " ++ collection_name) None ;;;
    ret (Counts 0 0 0)
  else
    try_except
      (let* c :=
         if key_given upsert_key
         then fold_each data (upsert_document collection_name (default [] upsert_key))
                (Counts 0 0 0)
         else insert_all collection_name data in
       _log_data_operation collection_name (py "store") (length data)
         (inserted c) (updated c) ;;;
       logger INFO (py "Stored data in " ++ collection_name ++ py ": " ++ counts_text c) None ;;;
       ret c)
      (fun e =>
         logger ERROR (py "Failed to store data in " ++ collection_name ++ py ": ") (Some e) ;;;
         raise e).

(** [datetime.utcnow() - timedelta(days=n)]: [timedelta] takes at most
    999999999 days either way, and the result must be a date of the years 1
    to 9999. *)
Definition minus_days (now days : Z) : M Z :=
  if (Z.abs days <=? 999999999)%Z then
    let t := (now - days * 86400000000)%Z in
    if (0 <=? t)%Z && (t <? max_instant)%Z then ret t else raise OverflowError
  else raise OverflowError.

Definition collections_to_clean : list pystr :=
  map py ["canvas_students"; "canvas_courses"; "canvas_enrollments";
          "canvas_assignments"; "canvas_submissions";
          "moodle_users"; "moodle_courses"; "moodle_enrollments";
          "attendance_records"; "library_checkouts"]%string.

(** One turn of the loop of [cleanup_old_data]; the handler keeps the total as
    it stands when the exception arrives. *)
Definition clean_collection (bound : pystr) (total_deleted : nat)
    (collection_name : pystr) : M nat :=
  try_except
    (let* deleted_count := delete_many collection_name bound in
     let total_deleted' := (total_deleted + deleted_count)%nat in
     try_except
       ((if (0 <? deleted_count)%nat then
           logger INFO (py "Deleted " ++ str_of_nat deleted_count
                        ++ py " old records from " ++ collection_name) None ;;;
           _log_data_operation collection_name (py "cleanup") deleted_count 0 0
         else ret tt) ;;;
        ret total_deleted')
       (fun e =>
          logger ERROR (py "Failed to cleanup " ++ collection_name ++ py ": ") (Some e) ;;;
          ret total_deleted'))
    (fun e =>
       logger ERROR (py "Failed to cleanup " ++ collection_name ++ py ": ") (Some e) ;;;
       ret total_deleted).

Definition default_days_to_keep : Z := 2555.

Definition cleanup_old_data (days_to_keep : Z) : M nat :=
  try_except
    (let* now := utcnow in
     let* cutoff_date := minus_days now days_to_keep in
     let* total_deleted :=
       fold_each collections_to_clean (clean_collection (isoformat cutoff_date)) 0%nat in
     logger INFO (py "Data cleanup completed: " ++ str_of_nat total_deleted
                  ++ py " total records deleted") None ;;;
     ret total_deleted)
    (fun e =>
       logger ERROR (py "Data cleanup failed: ") (Some e) ;;;
       raise e).

(** ** Vocabulary of the properties *)

(** A dictionary has each key once. *)
Definition is_dict (d : dict) : Prop := NoDup (map fst d).

(** [writes_at c m]: on the heap, [m] changes at most the object [c]. *)
Definition writes_at {A} (c : nat) (m : M A) : Prop :=
  forall w r w', m w = (r, w') -> is_Some (heap w !! c) ->
    exists dc, heap w' = <[c := dc]> (heap w).

(** [heap_kept m]: [m] leaves the heap as it is. *)
Definition heap_kept {A} (m : M A) : Prop :=
  forall w r w', m w = (r, w') -> heap w' = heap w.

(** [extends w w']: every object of [w] is in [w'] with the same items. *)
Definition extends (w w' : world) : Prop :=
  forall l d, heap w !! l = Some d -> heap w' !! l = Some d.

(** What the loop of [_anonymize_record] makes of one string. *)
Definition mask_text (s : pystr) : pystr :=
  if re_search pattern_email s then _mask_email s
  else if re_search pattern_phone s then _mask_phone s
  else if re_search pattern_ssn s then _mask_ssn s
  else s.

(** What [_anonymize_record] leaves in place of a value. *)
Definition mask_value (v : value) : value :=
  match v with
  | VStr s => VStr (mask_text s)
  | _ => v
  end.

Definition mask_dict (d : dict) : dict :=
  map (fun kv => (fst kv, mask_value (snd kv))) d.

(** The name under which [anonymize_student_data] keeps a PII field, and
    the other of the two suffixed names. *)
Definition derived_key (f : pystr) : pystr :=
  f ++ (if is_sensitive f then py "_encrypted" else py "_hash").
Definition other_key (f : pystr) : pystr :=
  f ++ (if is_sensitive f then py "_hash" else py "_encrypted").

(** [x] is what is kept for the value [v] of the PII field [f]: the base64
    text of a Fernet token of the UTF-8 octets of [str(v)], or the SHA-256
    hex digest of these octets. *)
Definition derived_value (f : pystr) (v : value) (x : pystr) : Prop :=
  exists b, encode (py_str v) = Some b /\
    if is_sensitive f
    then exists iv t, x = b64encode (fernet_encrypt (cipher self) iv t b)
    else x = SHA256.hexdigest b.

(** The pseudonym of an identifier value. *)
Definition pseudonym_of (sid : value) (a : pystr) : Prop :=
  exists b, encode (py_str sid) = Some b /\
    a = py "anon_" ++ firstn 16 (SHA256.hexdigest b).

(** The effect of one turn of the PII loop on the dictionary, and of the
    whole loop. *)
Definition pii_step (d : dict) (f : pystr) (d' : dict) : Prop :=
  match dict_get d f with
  | None => d' = d
  | Some v =>
      exists x, derived_value f v x /\
        d' = dict_del (dict_set d (derived_key f) (VStr x)) f
  end.

Fixpoint pii_steps (fs : list pystr) (d d' : dict) : Prop :=
  match fs with
  | [] => d' = d
  | f :: fs' => exists d1, pii_step d f d1 /\ pii_steps fs' d1 d'
  end.

(** [d'] is a record [anonymize_student_data] returns for the record [d]. *)
Definition student_record (d d' : dict) : Prop :=
  exists d1 d2 t,
    match dict_get d (py "student_id") with
    | Some sid =>
        exists a, pseudonym_of sid a /\
          d1 = dict_set (mask_dict d) (py "anonymous_id") (VStr a)
    | None => d1 = mask_dict d
    end /\
    pii_steps pii_fields d1 d2 /\
    d' = dict_set (dict_set d2 (py "anonymized_at") (VStr (isoformat t)))
           (py "privacy_level") (VStr (py "ferpa_compliant")).

(** The names [anonymize_student_data] writes besides the derived ones. *)
Definition reserved_keys : list pystr :=
  map py ["anonymous_id"; "anonymized_at"; "privacy_level"]%string.

(** Every string [anonymize_student_data] has to encode for the record [d]
    has a UTF-8 encoding: the identifier and the masked PII values. *)
Definition record_ok (d : dict) : Prop :=
  (forall sid, dict_get d (py "student_id") = Some sid ->
     is_Some (encode (py_str sid))) /\
  (forall f v, f ∈ pii_fields -> dict_get d f = Some v ->
     is_Some (encode (py_str (mask_value v)))).

(** [grows m]: [m] leaves every object it finds as it is. *)
Definition grows {A} (m : M A) : Prop := forall w, extends w (snd (m w)).

(** The records of a batch are dictionaries of the heap. *)
Definition records_in (w : world) (records : list nat) : Prop :=
  Forall (fun s => exists d, heap w !! s = Some d /\ is_dict d) records.

(** The documents of a collection; a collection that was never written is
    empty. *)
Definition stored (w : world) (name : pystr) : list dict :=
  default [] (collections (mongo w) !! name).

(** The audit document [_log_data_operation] stores. *)
Definition audit_entry (oid : N) (now : Z) (operation collection_name : pystr)
    (total_records inserted updated : nat) : dict :=
  [(py "_id", VOid oid);
   (py "timestamp", VDate now);
   (py "operation", VStr operation);
   (py "collection", VStr collection_name);
   (py "total_records", VInt (Z.of_nat total_records));
   (py "inserted_records", VInt (Z.of_nat inserted));
   (py "updated_records", VInt (Z.of_nat updated));
   (py "source", VStr (py "mongodb_client"))].

(** [m] writes to the collection [name] at most, and to no index. *)
Definition db_writes_at {A} (name : pystr) (m : M A) : Prop :=
  forall w r w', m w = (r, w') ->
    unique_indexes (mongo w') = unique_indexes (mongo w) /\
    forall n, n <> name -> stored w' n = stored w n.

(** [m] leaves collections and indexes as they are. *)
Definition db_kept {A} (m : M A) : Prop :=
  forall w r w', m w = (r, w') ->
    unique_indexes (mongo w') = unique_indexes (mongo w) /\
    collections (mongo w') = collections (mongo w).

(** [m] returns in every world. *)
Definition total {A} (m : M A) : Prop := forall w, exists a w', m w = (Ok a, w').

(** What one turn of the upsert loop does to the collection and to the
    counts, for a document that has the key and no [_id] of its own. *)
Definition upsert_effect (fields : list pystr) (docs : list dict) (seq : N)
    (key : pystr) (v : value) (d : dict) (c : counts) : counts * list dict :=
  match find_first (fun d' => bool_decide (doc_field d' key = v)) docs with
  | None =>
      let new := (py "_id", VOid (next_oid docs seq)) :: d in
      if clashes fields docs new
      then (Counts (inserted c) (updated c) (S (failed c)), docs)
      else (Counts (S (inserted c)) (updated c) (failed c), docs ++ [new])
  | Some i =>
      let old := default [] (docs !! i) in
      let new := (py "_id", doc_field old (py "_id")) :: d in
      if bool_decide (new = old) then (c, docs)
      else if clashes fields (delete i docs) new
      then (Counts (inserted c) (updated c) (S (failed c)), docs)
      else (Counts (inserted c) (S (updated c)) (failed c), <[i := new]> docs)
  end.


(** The documents of a collection that [cleanup_old_data] deletes for a
    bound, and those it keeps. *)
Definition expired (bound : pystr) (docs : list dict) : list dict :=
  List.filter (collected_before bound) docs.
Definition retained (bound : pystr) (docs : list dict) : list dict :=
  List.filter (fun d => negb (collected_before bound d)) docs.

(** [m] leaves the unique indexes of collection [n] as they are. *)
Definition index_kept {A} (n : pystr) (m : M A) : Prop :=
  forall w, unique_indexes (mongo (snd (m w))) !! n = unique_indexes (mongo w) !! n.

(** *** The calendar *)

(** Month and day of the [n]-th day of a year, the 366th included. *)
Definition day_of_year (leap : bool) (n : Z) : Z * Z :=
  if (n =? 365)%Z then (12, 31)%Z else month_and_day leap n.

Definition year_length (leap : bool) : Z := if leap then 366%Z else 365%Z.

(** Dates compare as these numbers do. *)
Definition packed_day (c : Z * Z) : Z := let '(m, d) := c in (32 * m + d)%Z.
Definition packed_date (c : Z * Z * Z) : Z :=
  let '(y, m, d) := c in (512 * y + 32 * m + d)%Z.

(** Day [n] of a year is a date of the calendar and comes before day [n + 1]
    of that year. *)
Definition day_ok (leap : bool) (n : Z) : bool :=
  let '(m, d) := day_of_year leap n in
  ((1 <=? m) && (m <=? 12) && (1 <=? d) && (d <=? 31) &&
   ((year_length leap <=? n + 1) ||
    (packed_day (m, d) <? packed_day (day_of_year leap (n + 1)))))%Z.

Fixpoint all_from (k : nat) (i : Z) (p : Z -> bool) : bool :=
  match k with
  | O => true
  | S k' => p i && all_from k' (i + 1)%Z p
  end.

(** No derived name is itself a PII field of the list. *)
Definition closed_fields (fs : list pystr) : Prop :=
  forall f g, f ∈ fs -> g ∈ fs -> derived_key f <> g.


(** ** The rest of [PrivacyUtils] *)

(** [table_a2b_base64] of [binascii]: the value of a character of the
    base64 alphabet. *)
Definition b64_value (c : N) : option N :=
  if (65 <=? c) && (c <=? 90) then Some (c - 65)
  else if (97 <=? c) && (c <=? 122) then Some (c - 71)
  else if (48 <=? c) && (c <=? 57) then Some (c + 4)
  else if c =? 43 then Some 62
  else if c =? 47 then Some 63
  else None.

(** [binascii.a2b_base64] without strict mode, which is what
    [base64.b64decode] calls: characters outside the alphabet are skipped,
    a pad that completes a quad ends the input, and input that ends inside a
    quad is refused ([None] stands for [binascii.Error]). *)
Fixpoint a2b_base64 (s : list N) (quad_pos : nat) (leftchar : N) (pads : nat)
  : option (list N) :=
  match s with
  | [] => if (quad_pos =? 0)%nat then Some [] else None
  | this_ch :: s' =>
      if this_ch =? 61 then
        if (2 <=? quad_pos)%nat then
          if (4 <=? quad_pos + S pads)%nat then Some []
          else a2b_base64 s' quad_pos leftchar (S pads)
        else a2b_base64 s' quad_pos leftchar pads
      else
        match b64_value this_ch with
        | None => a2b_base64 s' quad_pos leftchar pads
        | Some v =>
            match quad_pos with
            | 0%nat => a2b_base64 s' 1 v 0
            | 1%nat =>
                option_map (cons (N.lor (N.shiftl leftchar 2) (N.shiftr v 4) mod 256))
                  (a2b_base64 s' 2 (N.land v 0x0f) 0)
            | 2%nat =>
                option_map (cons (N.lor (N.shiftl leftchar 4) (N.shiftr v 2) mod 256))
                  (a2b_base64 s' 3 (N.land v 0x03) 0)
            | _ =>
                option_map (cons (N.lor (N.shiftl leftchar 6) v mod 256))
                  (a2b_base64 s' 0 0 0)
            end
        end
  end.

Definition b64decode (s : list N) : option (list N) := a2b_base64 s 0 0 0.

(** [binascii.Error] is a [ValueError]. *)
Definition _decrypt_field (encrypted_value : pystr) : M pystr :=
  try_except
    (let* b := encode_str encrypted_value in
     let* encrypted_bytes :=
       match b64decode b with
       | Some x => ret x
       | None => raise ValueError
       end in
     let* decrypted_value := cipher_decrypt encrypted_bytes in
     decode_bytes decrypted_value)
    (fun e =>
       logger ERROR (py "Field decryption failed: ") (Some e) ;;;
       raise e).

Definition default_retention_days : Z := 2555.

Definition cleanup_expired_data (retention_days : Z) : M Z :=
  try_except
    (logger INFO (py "Data cleanup initiated with " ++ str_of_Z retention_days
                  ++ py " day retention") None ;;;
     (if audit_enabled self then
        _log_privacy_event (py "data_cleanup")
          (py "Initiated cleanup with " ++ str_of_Z retention_days
           ++ py " day retention policy")
      else ret tt) ;;;
     ret 0%Z)
    (fun e =>
       logger ERROR (py "Data cleanup failed: ") (Some e) ;;;
       raise e).

(** *** validate_ferpa_compliance *)

(** Data as [validate_ferpa_compliance] looks at it: dictionaries with
    string keys, lists, and everything else. *)
#[local] Unset Elimination Schemes.
Inductive pyobj :=
  | OLeaf (v : value)
  | ODict (entries : list (pystr * pyobj))
  | OList (elements : list pyobj).
#[local] Set Elimination Schemes.

Section Interpreter.

(** [str.lower] of a string that has a character beyond ASCII follows the
    Unicode tables of the interpreter. *)
Variable unicode_lower : pystr -> pystr.

Definition ascii_lower_char (c : N) : N := if ascii_upper c then c + 32 else c.

(** [s.lower()] *)
Definition lower (s : pystr) : pystr :=
  if forallb (fun c => c <? 128) s then map ascii_lower_char s else unicode_lower s.

(** [self.pii_patterns], in the order of the dictionary. *)
Definition pii_patterns : list (pystr * list item) :=
  [(py "email", pattern_email); (py "phone", pattern_phone);
   (py "ssn", pattern_ssn); (py "student_id", pattern_student_id)].

(** The findings one dictionary entry adds by itself: its path when the
    lower-cased key is a PII field, and one entry for each pattern found in
    a string value. *)
Definition entry_findings (current_path key : pystr) (value : pyobj) : list pystr :=
  (if bool_decide (lower key ∈ pii_fields) then [current_path] else []) ++
  match value with
  | OLeaf (VStr s) =>
      flat_map (fun tp =>
        if re_search (snd tp) s then [current_path ++ py " (" ++ fst tp ++ py ")"]
        else []) pii_patterns
  | _ => []
  end.

(** The nested function [check_for_pii], with the list [pii_found] it
    appends to. [frames] is the number of nested calls of it that the
    recursion limit of the interpreter leaves room for; [None] stands for
    [RecursionError]. *)
Fixpoint check_for_pii (frames : nat) (obj : pyobj) (path : pystr)
    (pii_found : list pystr) : option (list pystr) :=
  match frames with
  | O => None
  | S frames' =>
      match obj with
      | ODict entries =>
          (fix each (entries : list (pystr * pyobj)) (pii_found : list pystr) :=
             match entries with
             | [] => Some pii_found
             | (key, value) :: rest =>
                 let current_path :=
                   if bool_decide (path = []) then key else path ++ [46] ++ key in
                 match check_for_pii frames' value current_path
                         (pii_found ++ entry_findings current_path key value) with
                 | Some found => each rest found
                 | None => None
                 end
             end) entries pii_found
      | OList elements =>
          (fix each (i : nat) (elements : list pyobj) (pii_found : list pystr) :=
             match elements with
             | [] => Some pii_found
             | element :: rest =>
                 match check_for_pii frames' element
                         (path ++ [91] ++ str_of_nat i ++ [93]) pii_found with
                 | Some found => each (S i) rest found
                 | None => None
                 end
             end) 0%nat elements pii_found
      | OLeaf _ => Some pii_found
      end
  end.

(** The dictionary [validate_ferpa_compliance] returns. *)
Record validation := Validation {
  compliant : bool;
  issues : list pystr;
  recommendations : list pystr
}.

(** [k in data] for the dictionary [data]. *)
Definition has_entry (entries : list (pystr * pyobj)) (k : pystr) : bool :=
  existsb (fun kv => bool_decide (fst kv = k)) entries.

(** What the recursion limit allows here, and the text of the error it
    raises. *)
Variable recursion_frames : nat.
Variable recursion_error : pystr.

(** The handler is entered by [RecursionError] only; the log line and the
    issue carry its text. *)
Definition validate_ferpa_compliance (data : pyobj) : M validation :=
  let recommendations0 :=
    if ferpa_enabled self then [] else [py "FERPA compliance mode is disabled"] in
  match check_for_pii recursion_frames data [] [] with
  | Some pii_found =>
      let found := negb (bool_decide (pii_found = [])) in
      let issues1 :=
        if found then map (fun field => py "PII found in field: " ++ field) pii_found
        else [] in
      let recommendations1 :=
        if found
        then recommendations0 ++
             [py "Apply data anonymization before storing or sharing data"]
        else recommendations0 in
      match data with
      | ODict entries =>
          ret (Validation (negb found)
                 (if negb (has_entry entries (py "anonymized_at")) && found
                  then issues1 ++ [py "Data contains PII but lacks anonymization metadata"]
                  else issues1)
                 (if negb (has_entry entries (py "privacy_level"))
                  then recommendations1 ++
                       [py "Add privacy_level metadata to indicate compliance status"]
                  else recommendations1))
      | _ => ret (Validation (negb found) issues1 recommendations1)
      end
  | None =>
      logger ERROR (py "FERPA compliance validation failed: " ++ recursion_error) None ;;;
      ret (Validation false [py "Validation error: " ++ recursion_error]
             [py "Review data structure and try again"])
  end.

End Interpreter.

(** ** Reading the store *)

Definition _log_audit_event (action : pystr) (user_id : value) (details : pystr) : M unit :=
  try_except
    (let* now := utcnow in
     let* audit_record := new_dict
       [(py "timestamp", VDate now);
        (py "action", VStr action);
        (py "user_id", user_id);
        (py "details", VStr details);
        (py "source", VStr (py "mongodb_client"))] in
     insert_one (py "audit_logs") audit_record ;;;
     ret tt)
    (fun e => logger ERROR (py "Failed to log audit event: ") (Some e)).

(** A [datetime] comes back from the server with the milliseconds that BSON
    keeps. *)
Definition from_bson (v : value) : value :=
  match v with
  | VDate t => VDate (t - t mod 1000)
  | _ => v
  end.

Definition decode_doc (d : dict) : dict := map (fun kv => (fst kv, from_bson (snd kv))) d.

(** A filter [{k1: v1, ...}] whose keys are names of top-level fields and
    whose values are scalars: every named field equals its value, a missing
    field being [null]. *)
Definition matches (filter_query : dict) (d : dict) : bool :=
  forallb (fun kv =>
    bool_decide (from_bson (doc_field d (fst kv)) = from_bson (snd kv))) filter_query.

Section Server.

(** [cursor.sort(field, direction)]: the order is the server's. *)
Variable server_sort : pystr -> Z -> list dict -> list dict.

(** [cursor.limit(n)]: a negative limit counts like its absolute value. *)
Definition limited (limit : option Z) (docs : list dict) : list dict :=
  match limit with
  | Some n => if (n =? 0)%Z then docs else firstn (Z.abs_nat n) docs
  | None => docs
  end.

(** The body of [for doc in cursor]: the document is a new dictionary, and
    its [_id] becomes a string. *)
Definition fetch_document (doc : dict) : M nat :=
  let* l := new_dict (decode_doc doc) in
  let* has := contains l (py "_id") in
  (if has then
     let* i := getitem l (py "_id") in
     setitem l (py "_id") (VStr (py_str i))
   else ret tt) ;;;
  ret l.

Definition get_collection_data (collection_name : pystr) (filter_query : option dict)
    (limit : option Z) (sort_field : option pystr) (sort_direction : Z) : M (list nat) :=
  try_except
    (let* docs := get_collection collection_name in
     let found := List.filter (matches (default [] filter_query)) docs in
     let sorted :=
       if key_given sort_field
       then server_sort (default [] sort_field) sort_direction found
       else found in
     let* documents := collect (limited limit sorted) fetch_document in
     logger INFO (py "Retrieved " ++ str_of_nat (length documents)
                  ++ py " documents from " ++ collection_name) None ;;;
     ret documents)
    (fun e =>
       logger ERROR (py "Failed to retrieve data from " ++ collection_name ++ py ": ")
         (Some e) ;;;
       raise e).

(** [pymongo.DESCENDING], the default direction. *)
Definition DESCENDING : Z := (-1)%Z.

(** [d[k] = v] on a dictionary of any values. *)
Fixpoint assoc_set {V} (d : list (pystr * V)) (k : pystr) (v : V) : list (pystr * V) :=
  match d with
  | [] => [(k, v)]
  | (k', v') :: d' =>
      if bool_decide (k' = k) then (k', v) :: d' else (k', v') :: assoc_set d' k v
  end.

Definition default_include_collections : list pystr :=
  map py ["canvas_students"; "canvas_enrollments"; "canvas_submissions";
          "moodle_users"; "moodle_enrollments";
          "attendance_records"; "library_checkouts"]%string.

Definition id_fields : list pystr := map py ["student_id"; "user_id"]%string.

(** [for id_field in id_fields] with its [break]: the documents of the
    first field that finds some. *)
Fixpoint first_match (collection_name : pystr) (student_id : value)
    (fields : list pystr) : M (option (list nat)) :=
  match fields with
  | [] => ret None
  | id_field :: rest =>
      let* data := get_collection_data collection_name
                     (Some [(id_field, student_id)]) None None DESCENDING in
      if bool_decide (data = []) then first_match collection_name student_id rest
      else ret (Some data)
  end.

(** One turn of the loop over [include_collections]. *)
Definition collect_student_data (student_id : value)
    (student_data : list (pystr * list nat)) (collection_name : pystr)
  : M (list (pystr * list nat)) :=
  try_except
    (let* hit := first_match collection_name student_id id_fields in
     match hit with
     | Some data => ret (assoc_set student_data collection_name data)
     | None => ret student_data
     end)
    (fun e =>
       logger WARNING (py "Failed to get student data from " ++ collection_name ++ py ": ")
         (Some e) ;;;
       ret student_data).

Definition get_student_data (student_id : value)
    (include_collections : option (list pystr)) : M (list (pystr * list nat)) :=
  try_except
    (let* student_data :=
       fold_each (default default_include_collections include_collections)
         (collect_student_data student_id) [] in
     _log_audit_event (py "student_data_access") student_id
       (py "Accessed data from " ++ str_of_nat (length student_data)
        ++ py " collections") ;;;
     ret student_data)
    (fun e =>
       logger ERROR (py "Failed to get student data for " ++ py_str student_id ++ py ": ")
         (Some e) ;;;
       raise e).

End Server.

(** ** Vocabulary of the further properties *)

(** [d'] is a record [anonymize_attendance_data] or [anonymize_library_data]
    returns for the record [d]. *)
Definition usage_record (d d' : dict) : Prop :=
  exists d1 t,
    match dict_get d (py "student_id") with
    | Some sid =>
        exists a, pseudonym_of sid a /\
          d1 = dict_del (dict_set (mask_dict d) (py "anonymous_id") (VStr a))
                 (py "student_id")
    | None => d1 = mask_dict d
    end /\
    d' = dict_set (fold_left dict_del pii_fields d1) (py "anonymized_at")
           (VStr (isoformat t)).

(** The values of the base64 alphabet. *)
Definition sextets : list N := map N.of_nat (seq 0 64).

(** The calls of [check_for_pii] that are open at once on [obj]. *)
Fixpoint depth (obj : pyobj) : nat :=
  match obj with
  | OLeaf _ => 1%nat
  | ODict entries =>
      S ((fix deepest (l : list (pystr * pyobj)) : nat :=
            match l with
            | [] => 0%nat
            | (_, v) :: l' => Nat.max (depth v) (deepest l')
            end) entries)
  | OList elements =>
      S ((fix deepest (l : list pyobj) : nat :=
            match l with
            | [] => 0%nat
            | v :: l' => Nat.max (depth v) (deepest l')
            end) elements)
  end.

(** No pattern of [pii_patterns] is found in the string. *)
Definition pattern_free (s : pystr) : bool :=
  forallb (fun tp => negb (re_search (snd tp) s)) pii_patterns.

(** What [check_for_pii] looks for, said directly: no key of a dictionary,
    at any depth, is a PII field when lower-cased, and no string that is the
    value of a dictionary entry holds a pattern. A string that is an
    element of a list is not looked at. *)
Fixpoint pii_free (unicode_lower : pystr -> pystr) (obj : pyobj) : bool :=
  match obj with
  | OLeaf _ => true
  | ODict entries =>
      (fix all (l : list (pystr * pyobj)) : bool :=
         match l with
         | [] => true
         | (k, v) :: l' =>
             negb (bool_decide (lower unicode_lower k ∈ pii_fields)) &&
             match v with OLeaf (VStr s) => pattern_free s | _ => true end &&
             pii_free unicode_lower v && all l'
         end) entries
  | OList elements =>
      (fix all (l : list pyobj) : bool :=
         match l with
         | [] => true
         | v :: l' => pii_free unicode_lower v && all l'
         end) elements
  end.

(** The verdict when the recursion limit is hit. *)
Definition validation_error (recursion_error : pystr) : validation :=
  Validation false [py "Validation error: " ++ recursion_error]
    [py "Review data structure and try again"].

(** [m] keeps the document [d] of the collection [n]: whatever else it
    writes, [d] is still stored afterwards. *)
Definition keeps {A} (d : dict) (n : pystr) (m : M A) : Prop :=
  forall w, d ∈ stored w n -> d ∈ stored (snd (m w)) n.

(** The document has no timestamp that [cleanup_old_data] can compare: no
    [collected_at], or one that is not a string. *)
Definition undated (d : dict) : Prop :=
  forall s, dict_get d (py "collected_at") <> Some (VStr s).

(** The unique indexes [_setup_indexes] asks for: collection and field. *)
Definition unique_index_specs : list (pystr * pystr) :=
  [(py "canvas_students", py "student_id");
   (py "moodle_users", py "user_id");
   (py "canvas_courses", py "course_id");
   (py "moodle_courses", py "course_id");
   (py "canvas_assignments", py "assignment_id")].

(** No two documents have the same value of the field, a missing field
    counting as [null]. *)
Definition distinct_on (field : pystr) (docs : list dict) : Prop :=
  NoDup (map (fun d => doc_field d field) docs).

(** The audit document [_log_audit_event] stores. *)
Definition access_entry (oid : N) (now : Z) (action : pystr) (user_id : value)
    (details : pystr) : dict :=
  [(py "_id", VOid oid);
   (py "timestamp", VDate now);
   (py "action", VStr action);
   (py "user_id", user_id);
   (py "details", VStr details);
   (py "source", VStr (py "mongodb_client"))].

(** The dictionary [get_collection_data] returns for a stored document:
    dates with the milliseconds of BSON, and [_id] as a string. *)
Definition fetched (doc : dict) : dict :=
  match dict_get (decode_doc doc) (py "_id") with
  | Some i => dict_set (decode_doc doc) (py "_id") (VStr (py_str i))
  | None => decode_doc doc
  end.

(** A key of a filter that names a top-level field: no operator such as
    [$or], and no path such as [a.b]. *)
Definition field_name (k : pystr) : bool :=
  match k with
  | 36 :: _ => false
  | _ => negb (bool_decide (46 ∈ k))
  end.

(** The filter, if there is one, is made of equalities on top-level
    fields. *)
Definition equalities (filter_query : option dict) : Prop :=
  Forall (fun kv => field_name (fst kv) = true) (default [] filter_query).

(** The documents [get_collection_data] selects. *)
Definition selected (server_sort : pystr -> Z -> list dict -> list dict)
    (filter_query : option dict) (limit : option Z)
    (sort_field : option pystr) (sort_direction : Z) (docs : list dict) : list dict :=
  let found := List.filter (matches (default [] filter_query)) docs in
  limited limit
    (if key_given sort_field
     then server_sort (default [] sort_field) sort_direction found
     else found).

(** The documents of a collection that [get_student_data] returns for an
    identifier: those whose [student_id] is the identifier, and only when
    there is none, those whose [user_id] is. *)
Definition student_documents (student_id : value) (docs : list dict) : list dict :=
  let by_student_id := List.filter (matches [(py "student_id", student_id)]) docs in
  if bool_decide (by_student_id = [])
  then List.filter (matches [(py "user_id", student_id)]) docs
  else by_student_id.

(** The new objects [locs] hold what is returned for the documents. *)
Definition holds (w : world) (locs : list nat) (docs : list dict) : Prop :=
  Forall2 (fun l doc => heap w !! l = Some (fetched doc)) locs docs.

(** The record is an object that has an [_id]. *)
Definition has_id_at (w : world) (l : nat) : Prop :=
  exists d, heap w !! l = Some d /\ dict_has d (py "_id") = true.

(** The records of a bulk insert once the driver has given each its
    [_id], counting up from [n]. *)
Fixpoint with_ids (n : N) (ds : list dict) : list dict :=
  match ds with
  | [] => []
  | d :: ds' => dict_set d (py "_id") (VOid n) :: with_ids (n + 1) ds'
  end.

(** The documents the server keeps for them. *)
Fixpoint new_documents (n : N) (ds : list dict) : list dict :=
  match ds with
  | [] => []
  | d :: ds' => ((py "_id", VOid n) :: d) :: new_documents (n + 1) ds'
  end.

(** Every [ObjectId] of the documents is below [n]. *)
Definition oids_below (n : N) (docs : list dict) : Prop :=
  forall d m, d ∈ docs -> dict_get d (py "_id") = Some (VOid m) -> m < n.

(** The dictionary has no [student_id] and none of the PII fields. *)
Definition anonymous (d : dict) : Prop :=
  dict_get d (py "student_id") = None /\ forall f, f ∈ pii_fields -> dict_get d f = None.

(** The objects [records] are such dictionaries. *)
Definition anonymous_at (records : list nat) (w : world) : Prop :=
  forall l, l ∈ records -> exists d, heap w !! l = Some d /\ anonymous d.

(** [m] leaves the records so and stores nothing but such documents. *)
Definition adds_anonymous {A} (records : list nat) (m : M A) : Prop :=
  forall w, anonymous_at records w ->
    anonymous_at records (snd (m w)) /\
    forall n x, x ∈ stored (snd (m w)) n -> x ∈ stored w n \/ anonymous x.

(** ** More surroundings for the examples *)

(** An interpreter that leaves characters beyond ASCII as they are and has
    room for a thousand nested calls, and a server that is never asked to
    sort. *)
Definition demo_lower : pystr -> pystr := fun s => s.
Definition demo_frames : nat := 1000.
Definition demo_recursion_error : pystr := py "maximum recursion depth exceeded".
Definition demo_sort : pystr -> Z -> list dict -> list dict := fun _ _ docs => docs.

(** Stored documents: Kim in both systems, the Canvas document with a
    [datetime] for [collected_at], and Lee, whose [user_id] is Kim's
    [student_id]. *)
Definition kim_canvas : dict :=
  [(py "_id", VOid 0); (py "student_id", VStr (py "1001"));
   (py "collected_at", VDate 63871286400000123)].
Definition lee_canvas : dict :=
  [(py "_id", VOid 1); (py "student_id", VStr (py "1002")); (py "user_id", VStr (py "1001"))].
Definition kim_moodle : dict :=
  [(py "_id", VOid 0); (py "user_id", VStr (py "1001"))].

Definition campus : database :=
  Database (<[py "canvas_students" := [kim_canvas; lee_canvas]]>
              (<[py "moodle_users" := [kim_moodle]]> ∅))
           ∅ 2.

Definition campus_world : world :=
  World (<[0%nat := rec_a]> (<[1%nat := rec_b]> ∅)) 0 0 [] campus.

(** The same with a second document for Kim's [student_id]. *)
Definition twin_world : world :=
  World ∅ 0 0 []
    (Database (<[py "canvas_students" := [kim_canvas; lee_canvas; kim_canvas]]> ∅) ∅ 2).

(** The records of [store_world] and a collection that takes one document
    for each [anonymous_id]. *)
Definition indexed_world : world :=
  World (heap store_world) 0 0 []
    (Database ∅ (<[py "students" := [py "anonymous_id"]]> ∅) 0).

(** * Properties *)

(** ** Dictionaries *)

Lemma dict_get_set (d : dict) k v k' :
  dict_get (dict_set d k v) k' = if bool_decide (k = k') then Some v else dict_get d k'.
Proof.
  induction d as [|[k0 v0] d IH]; simpl.
  - reflexivity.
  - destruct (bool_decide (k0 = k)) eqn:E0; simpl.
    + apply bool_decide_eq_true in E0; subst k0.
      destruct (bool_decide (k = k')); reflexivity.
    + rewrite IH. apply bool_decide_eq_false in E0.
      destruct (bool_decide (k0 = k')) eqn:E1; [|reflexivity].
      apply bool_decide_eq_true in E1; subst k0.
      rewrite bool_decide_eq_false_2 by congruence. reflexivity.
Qed.

Lemma dict_get_del (d : dict) k k' :
  dict_get (dict_del d k) k' = if bool_decide (k = k') then None else dict_get d k'.
Proof.
  induction d as [|[k0 v0] d IH]; simpl.
  - destruct (bool_decide (k = k')); reflexivity.
  - destruct (bool_decide (k0 = k)) eqn:E0; simpl.
    + apply bool_decide_eq_true in E0; subst k0. rewrite IH.
      destruct (bool_decide (k = k')); reflexivity.
    + rewrite IH. apply bool_decide_eq_false in E0.
      destruct (bool_decide (k0 = k')) eqn:E1; [|reflexivity].
      apply bool_decide_eq_true in E1; subst k0.
      rewrite bool_decide_eq_false_2 by congruence. reflexivity.
Qed.

Lemma dict_has_get (d : dict) k : dict_has d k = true <-> is_Some (dict_get d k).
Proof.
  unfold dict_has. destruct (dict_get d k); split; intros H; eauto; try discriminate.
  destruct H; discriminate.
Qed.

Lemma dict_get_None_fst (d : dict) k : dict_get d k = None <-> k ∉ map fst d.
Proof.
  induction d as [|[k0 v0] d IH]; simpl.
  - split; [intros _; apply not_elem_of_nil | reflexivity].
  - rewrite not_elem_of_cons. case_bool_decide; subst.
    + split; [discriminate | intros [? _]; congruence].
    + rewrite IH. split; [intros ?; split; congruence | tauto].
Qed.

(** ** The monad *)

Lemma for_each_app {A} (xs ys : list A) (body : A -> M unit) w :
  for_each (xs ++ ys) body w = (for_each xs body ;;; for_each ys body) w.
Proof.
  revert w. induction xs as [|x xs IH]; intros w; simpl.
  - reflexivity.
  - unfold bind. destruct (body x w) as [[[]|e] w1]; [apply IH | reflexivity].
Qed.

(** ** What a computation may write *)

Lemma heap_kept_writes_at {A} c (m : M A) : heap_kept m -> writes_at c m.
Proof.
  intros H w r w' E [dc Hc]. exists dc. rewrite (H _ _ _ E).
  symmetry. apply insert_id, Hc.
Qed.

Lemma writes_at_bind {A B} c (m : M A) (k : A -> M B) :
  writes_at c m -> (forall a, writes_at c (k a)) -> writes_at c (bind m k).
Proof.
  intros Hm Hk w r w' E Hc. unfold bind in E.
  destruct (m w) as [[a|e] w1] eqn:E1.
  - destruct (Hm _ _ _ E1 Hc) as [d1 H1].
    destruct (Hk a _ _ _ E) as [d2 H2].
    { rewrite H1, lookup_insert_eq. eauto. }
    exists d2. rewrite H2, H1. apply insert_insert_eq.
  - inversion E; subst. eapply Hm; eauto.
Qed.

Lemma writes_at_try {A} c (m : M A) (h : exn -> M A) :
  writes_at c m -> (forall e, writes_at c (h e)) -> writes_at c (try_except m h).
Proof.
  intros Hm Hh w r w' E Hc. unfold try_except in E.
  destruct (m w) as [[a|e] w1] eqn:E1.
  - inversion E; subst. eapply Hm; eauto.
  - destruct (Hm _ _ _ E1 Hc) as [d1 H1].
    destruct (Hh e _ _ _ E) as [d2 H2].
    { rewrite H1, lookup_insert_eq. eauto. }
    exists d2. rewrite H2, H1. apply insert_insert_eq.
Qed.

Lemma writes_at_for_each {A} c (xs : list A) (body : A -> M unit) :
  (forall x, writes_at c (body x)) -> writes_at c (for_each xs body).
Proof.
  intros Hb. induction xs as [|x xs IH]; simpl.
  - apply heap_kept_writes_at. intros w r w' E. inversion E; reflexivity.
  - apply writes_at_bind; auto.
Qed.

Lemma heap_kept_bind {A B} (m : M A) (k : A -> M B) :
  heap_kept m -> (forall a, heap_kept (k a)) -> heap_kept (bind m k).
Proof.
  intros Hm Hk w r w' E. unfold bind in E.
  destruct (m w) as [[a|e] w1] eqn:E1.
  - rewrite (Hk _ _ _ _ E). eauto.
  - inversion E; subst. eauto.
Qed.

Lemma heap_kept_try {A} (m : M A) (h : exn -> M A) :
  heap_kept m -> (forall e, heap_kept (h e)) -> heap_kept (try_except m h).
Proof.
  intros Hm Hh w r w' E. unfold try_except in E.
  destruct (m w) as [[a|e] w1] eqn:E1.
  - inversion E; subst. eauto.
  - rewrite (Hh _ _ _ _ E). eauto.
Qed.

Lemma heap_kept_ret {A} (a : A) : heap_kept (ret a).
Proof. intros w r w' E. inversion E; reflexivity. Qed.

Lemma heap_kept_raise {A} e : heap_kept (@raise A e).
Proof. intros w r w' E. inversion E; reflexivity. Qed.

Lemma heap_kept_logger lv t c : heap_kept (logger lv t c).
Proof. intros w r w' E. inversion E; reflexivity. Qed.

Lemma heap_kept_deref l : heap_kept (deref l).
Proof.
  intros w r w' E. unfold deref in E.
  destruct (heap w !! l); inversion E; reflexivity.
Qed.

Lemma heap_kept_utcnow : heap_kept utcnow.
Proof. intros w r w' E. inversion E; reflexivity. Qed.

Lemma heap_kept_urandom : heap_kept urandom.
Proof. intros w r w' E. inversion E; reflexivity. Qed.

Lemma heap_kept_encode_str s : heap_kept (encode_str s).
Proof. unfold encode_str. destruct (encode s); [apply heap_kept_ret | apply heap_kept_raise]. Qed.

Lemma heap_kept_decode_bytes b : heap_kept (decode_bytes b).
Proof. unfold decode_bytes. destruct (decode b); [apply heap_kept_ret | apply heap_kept_raise]. Qed.

Lemma writes_at_store c d : writes_at c (store c d).
Proof. intros w r w' E _. inversion E; subst. simpl. eauto. Qed.

Create HintDb frame.
#[local] Hint Resolve heap_kept_ret heap_kept_raise heap_kept_logger heap_kept_deref
  heap_kept_utcnow heap_kept_urandom heap_kept_encode_str heap_kept_decode_bytes : frame.
#[local] Hint Resolve writes_at_store : frame.
#[local] Hint Extern 2 (heap_kept (bind _ _)) => apply heap_kept_bind; [|intros] : frame.
#[local] Hint Extern 2 (heap_kept (try_except _ _)) => apply heap_kept_try; [|intros] : frame.
#[local] Hint Extern 2 (writes_at _ (bind _ _)) => apply writes_at_bind; [|intros] : frame.
#[local] Hint Extern 2 (writes_at _ (try_except _ _)) => apply writes_at_try; [|intros] : frame.
#[local] Hint Extern 2 (writes_at _ (for_each _ _)) => apply writes_at_for_each; intros : frame.
#[local] Hint Extern 5 (writes_at _ _) => apply heap_kept_writes_at : frame.
#[local] Hint Extern 3 (heap_kept (if ?b then _ else _)) => destruct b : frame.
#[local] Hint Extern 3 (writes_at _ (if ?b then _ else _)) => destruct b : frame.
#[local] Hint Extern 3 (heap_kept (match ?x with _ => _ end)) => destruct x : frame.
#[local] Hint Extern 3 (writes_at _ (match ?x with _ => _ end)) => destruct x : frame.

Ltac frame := unfold contains, getitem, setitem, delitem, items; eauto 30 with frame.

Lemma heap_kept_contains l k : heap_kept (contains l k).
Proof. frame. Qed.
Lemma heap_kept_getitem l k : heap_kept (getitem l k).
Proof. frame. Qed.
Lemma writes_at_setitem c k v : writes_at c (setitem c k v).
Proof. frame. Qed.
Lemma writes_at_delitem c k : writes_at c (delitem c k).
Proof. frame. Qed.
#[local] Hint Resolve heap_kept_contains heap_kept_getitem writes_at_setitem writes_at_delitem : frame.

(** ** Running the helpers of [PrivacyUtils] *)

Lemma set_heap_id c d w : heap w !! c = Some d -> set_heap (<[c := d]> (heap w)) w = w.
Proof. intros H. rewrite (insert_id _ _ _ H). destruct w; reflexivity. Qed.

Lemma dict_set_middle (pre suf : dict) k v v' :
  k ∉ map fst pre -> dict_set (pre ++ (k, v) :: suf) k v' = pre ++ (k, v') :: suf.
Proof.
  induction pre as [|[k0 v0] pre IH]; simpl; intros Hk.
  - rewrite bool_decide_eq_true_2 by reflexivity. reflexivity.
  - apply not_elem_of_cons in Hk as [Hne Hk].
    rewrite bool_decide_eq_false_2 by congruence. rewrite IH by assumption. reflexivity.
Qed.

Lemma setitem_run c k v d w :
  heap w !! c = Some d ->
  setitem c k v w = (Ok tt, set_heap (<[c := dict_set d k v]> (heap w)) w).
Proof. intros H. unfold setitem, bind, deref. rewrite H. reflexivity. Qed.

Lemma contains_run c k d w :
  heap w !! c = Some d -> contains c k w = (Ok (dict_has d k), w).
Proof. intros H. unfold contains, bind, deref. rewrite H. reflexivity. Qed.

Lemma getitem_run c k d v w :
  heap w !! c = Some d -> dict_get d k = Some v -> getitem c k w = (Ok v, w).
Proof. intros H Hk. unfold getitem, bind, deref. rewrite H, Hk. reflexivity. Qed.

Lemma delitem_run c k d w :
  heap w !! c = Some d -> dict_has d k = true ->
  delitem c k w = (Ok tt, set_heap (<[c := dict_del d k]> (heap w)) w).
Proof. intros H Hk. unfold delitem, bind, deref. rewrite H, Hk. reflexivity. Qed.

Lemma mask_item_run c (pre suf : dict) k v w :
  k ∉ map fst pre -> heap w !! c = Some (pre ++ (k, v) :: suf) ->
  mask_item c (k, v) w =
    (Ok tt, set_heap (<[c := pre ++ (k, mask_value v) :: suf]> (heap w)) w).
Proof.
  intros Hk Hc. unfold mask_item; simpl.
  destruct v; simpl; try (unfold ret; rewrite set_heap_id by assumption; reflexivity).
  unfold mask_text.
  destruct (re_search pattern_email s);
    [|destruct (re_search pattern_phone s); [|destruct (re_search pattern_ssn s)]];
    try (rewrite (setitem_run _ _ _ _ _ Hc), dict_set_middle by assumption; reflexivity).
  unfold ret; rewrite set_heap_id by assumption; reflexivity.
Qed.

Lemma mask_loop_run c (suf : dict) : forall (pre : dict) w,
  NoDup (map fst (pre ++ suf)) -> heap w !! c = Some (pre ++ suf) ->
  for_each suf (mask_item c) w =
    (Ok tt, set_heap (<[c := pre ++ mask_dict suf]> (heap w)) w).
Proof.
  induction suf as [|[k v] suf IH]; intros pre w Hnd Hc; simpl.
  - unfold ret. rewrite set_heap_id by assumption. reflexivity.
  - assert (Hk : k ∉ map fst pre).
    { rewrite map_app in Hnd. apply NoDup_app in Hnd as (_ & Hd & _).
      intros Hin. apply (Hd _ Hin). simpl. left. }
    unfold bind. rewrite (mask_item_run _ _ _ _ _ _ Hk Hc).
    rewrite (IH (pre ++ [(k, mask_value v)])).
    + simpl. rewrite insert_insert_eq, <- app_assoc. reflexivity.
    + rewrite <- app_assoc. simpl.
      rewrite map_app in *. simpl in *. exact Hnd.
    + simpl. rewrite lookup_insert_eq, <- app_assoc. reflexivity.
Qed.

Lemma anonymize_record_run c d w :
  heap w !! c = Some d -> is_dict d ->
  _anonymize_record c w = (Ok c, set_heap (<[c := mask_dict d]> (heap w)) w).
Proof.
  intros Hc Hd. unfold _anonymize_record, try_except, bind, items, deref.
  rewrite Hc. rewrite (mask_loop_run c d [] w Hd Hc). reflexivity.
Qed.

Lemma writes_at_mask_item c kv : writes_at c (mask_item c kv).
Proof. unfold mask_item. frame. Qed.

Lemma writes_at_anonymize_record c : writes_at c (_anonymize_record c).
Proof. unfold _anonymize_record. pose proof (writes_at_mask_item c). frame. Qed.

(** The three string helpers never write to the heap; they return exactly
    when the string has a UTF-8 encoding. *)
Lemma hash_field_run v w :
  _hash_field v w =
    match encode v with
    | Some b => (Ok (SHA256.hexdigest b), w)
    | None => (Raise UnicodeEncodeError,
               set_logs (logs w ++ [Log ERROR (py "Field hashing failed: ")
                                      (Some UnicodeEncodeError)]) w)
    end.
Proof.
  unfold _hash_field, try_except, bind, encode_str.
  destruct (encode v); reflexivity.
Qed.

Lemma generate_anonymous_id_run x w :
  _generate_anonymous_id x w =
    match encode x with
    | Some b => (Ok (py "anon_" ++ firstn 16 (SHA256.hexdigest b)), w)
    | None => (Raise UnicodeEncodeError,
               set_logs (logs w ++ [Log ERROR (py "Anonymous ID generation failed: ")
                                      (Some UnicodeEncodeError)]) w)
    end.
Proof.
  unfold _generate_anonymous_id, try_except, bind, encode_str.
  destruct (encode x); reflexivity.
Qed.

Lemma decode_ascii (bs : list N) : Forall (fun b => b < 128) bs -> decode bs = Some bs.
Proof.
  induction 1 as [|b bs Hb _ IH]; simpl; [reflexivity|].
  apply N.ltb_lt in Hb as Hb'.
  replace (b <? 128) with true. rewrite IH. reflexivity.
Qed.

Lemma b64_char_ascii i : b64_char i < 128.
Proof.
  unfold b64_char.
  destruct (i <? 26) eqn:E1; [apply N.ltb_lt in E1; lia|].
  destruct (i <? 52) eqn:E2; [apply N.ltb_lt in E2; lia|].
  destruct (i <? 62) eqn:E3; [apply N.ltb_lt in E3; lia|].
  destruct (i =? 62); lia.
Qed.

Lemma b64encode_ascii : forall bs, Forall (fun b => b < 128) (b64encode bs).
Proof.
  fix IH 1. intros [|b0 [|b1 [|b2 rest]]]; simpl.
  - constructor.
  - repeat constructor; try apply b64_char_ascii; lia.
  - repeat constructor; try apply b64_char_ascii; lia.
  - repeat (constructor; [apply b64_char_ascii|]). apply IH.
Qed.

Lemma encrypt_field_run v w :
  _encrypt_field v w =
    match encode v with
    | Some b =>
        (Ok (b64encode (fernet_encrypt (cipher self) (urandom_at P (draws w))
                          (utcnow_at P (ticks w)) b)),
         set_ticks (S (ticks w)) (set_draws (S (draws w)) w))
    | None =>
        (Raise UnicodeEncodeError,
         set_logs (logs w ++ [Log ERROR (py "Field encryption failed: ")
                                (Some UnicodeEncodeError);
                              Log ERROR (py "Field hashing failed: ")
                                (Some UnicodeEncodeError)]) w)
    end.
Proof.
  unfold _encrypt_field, try_except, bind, encode_str.
  destruct (encode v) as [b|] eqn:E; simpl.
  - unfold decode_bytes. rewrite decode_ascii by apply b64encode_ascii. reflexivity.
  - rewrite hash_field_run, E. unfold set_logs; simpl.
    rewrite <- app_assoc. reflexivity.
Qed.

Lemma heap_kept_hash_field v : heap_kept (_hash_field v).
Proof. unfold _hash_field. frame. Qed.
Lemma heap_kept_generate_anonymous_id x : heap_kept (_generate_anonymous_id x).
Proof. unfold _generate_anonymous_id. frame. Qed.
Lemma heap_kept_encrypt_field v : heap_kept (_encrypt_field v).
Proof.
  pose proof heap_kept_hash_field.
  unfold _encrypt_field, cipher_encrypt. frame.
Qed.
Lemma heap_kept_log_privacy_event a b : heap_kept (_log_privacy_event a b).
Proof. unfold _log_privacy_event. frame. Qed.
#[local] Hint Resolve writes_at_mask_item writes_at_anonymize_record heap_kept_hash_field
  heap_kept_generate_anonymous_id heap_kept_encrypt_field heap_kept_log_privacy_event : frame.

(** ** One record through [anonymize_student_data] *)

Lemma dict_get_set_ne (d : dict) k v k' :
  k <> k' -> dict_get (dict_set d k v) k' = dict_get d k'.
Proof. intros H. rewrite dict_get_set, bool_decide_eq_false_2 by exact H. reflexivity. Qed.

Lemma app_ne_self (f s : pystr) : s <> [] -> f ++ s <> f.
Proof.
  intros Hs E. apply (f_equal (@length N)) in E. rewrite length_app in E.
  destruct s; [congruence | simpl in E; lia].
Qed.

Lemma derived_key_ne f : derived_key f <> f.
Proof.
  unfold derived_key. apply app_ne_self. destruct (is_sensitive f); discriminate.
Qed.

Lemma replace_pii_field_spec c f dc w r w' :
  heap w !! c = Some dc ->
  replace_pii_field c f w = (r, w') ->
  exists dc', heap w' = <[c := dc']> (heap w) /\
    match r with
    | Ok _ => pii_step dc f dc'
    | Raise e => e = UnicodeEncodeError /\
        exists v, dict_get dc f = Some v /\ encode (py_str v) = None
    end.
Proof.
  intros Hc E. unfold replace_pii_field in E. unfold bind at 1 in E.
  rewrite (contains_run _ _ _ _ Hc) in E. unfold pii_step, dict_has in *.
  destruct (dict_get dc f) as [v|] eqn:Hf.
  2:{ inversion E; subst. exists dc. split; [symmetry; apply insert_id, Hc | reflexivity]. }
  assert (Hset : forall x w1, heap w1 = heap w ->
    (setitem c (derived_key f) (VStr x) ;;; delitem c f) w1 =
      (Ok tt, set_heap (<[c := dict_del (dict_set dc (derived_key f) (VStr x)) f]> (heap w)) w1)).
  { intros x w1 Hw1. unfold bind. rewrite <- Hw1 in Hc.
    rewrite (setitem_run _ _ _ _ _ Hc).
    erewrite delitem_run.
    - simpl. rewrite insert_insert_eq, Hw1. reflexivity.
    - simpl. apply lookup_insert_eq.
    - unfold dict_has. rewrite dict_get_set.
      rewrite bool_decide_eq_false_2 by apply derived_key_ne. rewrite Hf. reflexivity. }
  unfold derived_key, derived_value in *.
  destruct (is_sensitive f) eqn:Hs.
  - unfold bind at 1 in E. rewrite (getitem_run _ _ _ _ _ Hc Hf) in E.
    unfold bind at 1 in E. rewrite encrypt_field_run in E.
    destruct (encode (py_str v)) as [b|] eqn:Eb.
    + rewrite Hset in E by reflexivity. inversion E; subst; simpl.
      eexists; split; [reflexivity|]. eexists; split; [|reflexivity].
      exists b. split; [reflexivity|]. eauto.
    + inversion E; subst; simpl. exists dc.
      split; [symmetry; apply insert_id, Hc | eauto].
  - unfold bind at 1 in E. rewrite (getitem_run _ _ _ _ _ Hc Hf) in E.
    unfold bind at 1 in E. rewrite hash_field_run in E.
    destruct (encode (py_str v)) as [b|] eqn:Eb.
    + rewrite Hset in E by reflexivity. inversion E; subst; simpl.
      eexists; split; [reflexivity|]. eexists; split; [|reflexivity].
      exists b. split; reflexivity.
    + inversion E; subst; simpl. exists dc.
      split; [symmetry; apply insert_id, Hc | eauto].
Qed.

Lemma fresh_heap_None (h : gmap nat dict) : h !! fresh (dom h) = None.
Proof. apply not_elem_of_dom, is_fresh. Qed.

Lemma bind_run {A B} (m : M A) (k : A -> M B) w a w1 :
  m w = (Ok a, w1) -> bind m k w = k a w1.
Proof. intros H. unfold bind. rewrite H. reflexivity. Qed.

Lemma bind_raise {A B} (m : M A) (k : A -> M B) w e w1 :
  m w = (Raise e, w1) -> bind m k w = (Raise e, w1).
Proof. intros H. unfold bind. rewrite H. reflexivity. Qed.

Lemma heap_set_heap h w : heap (set_heap h w) = h.
Proof. reflexivity. Qed.

Lemma set_heap_twice h h' w : set_heap h (set_heap h' w) = set_heap h w.
Proof. reflexivity. Qed.

Lemma copy_run s d w :
  heap w !! s = Some d ->
  copy s w = (Ok (fresh (dom (heap w))),
              set_heap (<[fresh (dom (heap w)) := d]> (heap w)) w).
Proof. intros H. unfold copy, bind, deref, new_dict. rewrite H. reflexivity. Qed.


(** ** What the PII loop leaves under each key *)


Lemma dict_get_mask_dict (d : dict) k :
  dict_get (mask_dict d) k = mask_value <$> dict_get d k.
Proof.
  induction d as [|[k0 v0] d IH]; simpl; [reflexivity|].
  destruct (bool_decide (k0 = k)); [reflexivity | exact IH].
Qed.

Lemma map_fst_mask_dict (d : dict) : map fst (mask_dict d) = map fst d.
Proof. unfold mask_dict. rewrite map_map. reflexivity. Qed.

Lemma pii_step_get_self d f d' : pii_step d f d' -> dict_get d' f = None.
Proof.
  unfold pii_step. destruct (dict_get d f) eqn:E.
  - intros (x & _ & ->). rewrite dict_get_del, bool_decide_eq_true_2; reflexivity.
  - intros ->. exact E.
Qed.

Lemma pii_step_get_derived d f d' v :
  pii_step d f d' -> dict_get d f = Some v ->
  exists x, dict_get d' (derived_key f) = Some (VStr x) /\ derived_value f v x.
Proof.
  unfold pii_step. intros H E. rewrite E in H. destruct H as (x & Hx & ->).
  exists x. split; [|exact Hx].
  rewrite dict_get_del, bool_decide_eq_false_2 by (intros Hf; symmetry in Hf; revert Hf; apply derived_key_ne).
  rewrite dict_get_set, bool_decide_eq_true_2; reflexivity.
Qed.

Lemma pii_step_get_other d f d' k :
  pii_step d f d' -> k <> f -> (is_Some (dict_get d f) -> k <> derived_key f) ->
  dict_get d' k = dict_get d k.
Proof.
  unfold pii_step. intros H Hk Hd. destruct (dict_get d f) eqn:E.
  - destruct H as (x & _ & ->).
    rewrite dict_get_del, bool_decide_eq_false_2 by congruence.
    rewrite dict_get_set, bool_decide_eq_false_2; [reflexivity|].
    intros Heq. apply Hd; eauto.
  - subst d'. reflexivity.
Qed.

Lemma closed_fields_tail f fs : closed_fields (f :: fs) -> closed_fields fs.
Proof. intros H a b Ha Hb. apply H; right; assumption. Qed.

Lemma derived_key_inj f g : derived_key f = derived_key g -> f = g.
Proof.
  unfold derived_key. intros H.
  destruct (is_sensitive f), (is_sensitive g).
  - apply app_inv_tail in H. exact H.
  - apply (f_equal (@rev N)) in H. rewrite !rev_app_distr in H. discriminate H.
  - apply (f_equal (@rev N)) in H. rewrite !rev_app_distr in H. discriminate H.
  - apply app_inv_tail in H. exact H.
Qed.

Lemma pii_steps_get_other fs : forall d d' k,
  pii_steps fs d d' -> closed_fields fs -> k ∉ fs ->
  (forall f, f ∈ fs -> is_Some (dict_get d f) -> k <> derived_key f) ->
  dict_get d' k = dict_get d k.
Proof.
  induction fs as [|f fs IH]; simpl; intros d d' k H Hc Hk Hd.
  - subst. reflexivity.
  - destruct H as (d1 & H1 & H2).
    apply not_elem_of_cons in Hk as [Hkf Hk].
    rewrite (IH d1 d' k H2 (closed_fields_tail _ _ Hc) Hk).
    + apply (pii_step_get_other _ _ _ _ H1 Hkf). intros Hs. apply Hd; [left | exact Hs].
    + intros g Hg Hs1. apply Hd; [right; exact Hg|].
      destruct (decide (g = f)) as [->|Hgf].
      { rewrite (pii_step_get_self _ _ _ H1) in Hs1. destruct Hs1; discriminate. }
      rewrite (pii_step_get_other _ _ _ _ H1 Hgf) in Hs1; [exact Hs1|].
      intros _ Heq. apply (Hc f g); [left | right; exact Hg | congruence].
Qed.

Lemma pii_steps_get_self fs : forall d d' k,
  pii_steps fs d d' -> closed_fields fs -> k ∈ fs -> dict_get d' k = None.
Proof.
  induction fs as [|f fs IH]; simpl; intros d d' k H Hc Hk.
  - apply elem_of_nil in Hk. contradiction.
  - destruct H as (d1 & H1 & H2).
    destruct (decide (k ∈ fs)) as [Hin|Hnin].
    + apply (IH d1 d' k H2 (closed_fields_tail _ _ Hc) Hin).
    + apply elem_of_cons in Hk as [->|Hk]; [|contradiction].
      rewrite (pii_steps_get_other fs d1 d' f H2 (closed_fields_tail _ _ Hc) Hnin).
      * apply (pii_step_get_self _ _ _ H1).
      * intros g Hg _ Heq. apply (Hc g f); [right; exact Hg | left | congruence].
Qed.

Lemma pii_steps_get_derived fs : forall d d' f v,
  pii_steps fs d d' -> closed_fields fs -> f ∈ fs -> dict_get d f = Some v ->
  exists x, dict_get d' (derived_key f) = Some (VStr x) /\ derived_value f v x.
Proof.
  induction fs as [|g fs IH]; simpl; intros d d' f v H Hc Hf Hv.
  - apply elem_of_nil in Hf. contradiction.
  - destruct H as (d1 & H1 & H2).
    destruct (decide (f = g)) as [->|Hfg].
    + destruct (pii_step_get_derived _ _ _ _ H1 Hv) as (x & Hx & Dx).
      exists x. split; [|exact Dx]. rewrite <- Hx.
      apply (pii_steps_get_other fs d1 d' _ H2 (closed_fields_tail _ _ Hc)).
      * intros Hin. apply (Hc g (derived_key g)); [left | right; exact Hin | reflexivity].
      * intros h Hh Hs Heq. apply derived_key_inj in Heq. subst h.
        rewrite (pii_step_get_self _ _ _ H1) in Hs. destruct Hs; discriminate.
    + apply elem_of_cons in Hf as [?|Hf]; [contradiction|].
      apply (IH d1 d' f v H2 (closed_fields_tail _ _ Hc) Hf).
      rewrite (pii_step_get_other _ _ _ _ H1 Hfg); [exact Hv|].
      intros _ Heq. apply (Hc g f); [left | right; exact Hf | congruence].
Qed.

Lemma pii_fields_closed : closed_fields pii_fields.
Proof.
  assert (H : Forall (fun f => Forall (fun g => derived_key f <> g) pii_fields) pii_fields)
    by by_compute.
  intros f g Hf Hg. rewrite Forall_forall in H. specialize (H f Hf).
  rewrite Forall_forall in H. apply H, Hg.
Qed.

Lemma pii_loop_spec c fs : forall dc w r w',
  heap w !! c = Some dc -> closed_fields fs ->
  for_each fs (replace_pii_field c) w = (r, w') ->
  exists dc', heap w' = <[c := dc']> (heap w) /\
    match r with
    | Ok _ => pii_steps fs dc dc'
    | Raise e => e = UnicodeEncodeError /\
        exists f v, f ∈ fs /\ dict_get dc f = Some v /\
                    encode (py_str v) = None
    end.
Proof.
  induction fs as [|f fs IH]; intros dc w r w' Hc Hcl E; simpl in *.
  - inversion E; subst. exists dc. split; [symmetry; apply insert_id, Hc | reflexivity].
  - unfold bind in E.
    destruct (replace_pii_field c f w) as [[[]|e] w1] eqn:E1.
    + destruct (replace_pii_field_spec _ _ _ _ _ _ Hc E1) as (d1 & H1 & S1).
      destruct (IH d1 w1 r w') as (d2 & H2 & S2);
        [rewrite H1; apply lookup_insert_eq | exact (closed_fields_tail _ _ Hcl) | exact E |].
      exists d2. split; [rewrite H2, H1; apply insert_insert_eq|].
      destruct r as [[]|e].
      * exists d1. split; assumption.
      * destruct S2 as (-> & g & v & Hg & Hv & Hn). split; [reflexivity|].
        exists g, v. split; [right; exact Hg|]. split; [|exact Hn].
        assert (Hgf : g <> f).
        { intros ->. rewrite (pii_step_get_self _ _ _ S1) in Hv. discriminate. }
        rewrite <- Hv. symmetry. apply (pii_step_get_other _ _ _ _ S1 Hgf).
        intros _ Heq. apply (Hcl f g); [left | right; exact Hg | congruence].
    + inversion E; subst.
      destruct (replace_pii_field_spec _ _ _ _ _ _ Hc E1) as (d1 & H1 & -> & v & Hv & Hn).
      exists d1. split; [exact H1|]. split; [reflexivity|].
      exists f, v. split; [left | split; assumption].
Qed.

(** A record that is an object of the heap goes through [anonymize_student]
    with one new object and nothing else written; the call raises exactly
    when one of the strings it has to encode has no encoding. *)
Lemma anonymize_student_spec s d w r w' :
  heap w !! s = Some d -> is_dict d ->
  anonymize_student s w = (r, w') ->
  exists dc, heap w' = <[fresh (dom (heap w)) := dc]> (heap w) /\
    match r with
    | Ok c => c = fresh (dom (heap w)) /\ student_record d dc
    | Raise e => e = UnicodeEncodeError /\ ~ record_ok d
    end.
Proof.
  intros Hs Hd E. unfold anonymize_student in E.
  set (c := fresh (dom (heap w))) in *.
  assert (Hsc : s <> c).
  { intros ->. unfold c in Hs. rewrite fresh_heap_None in Hs. discriminate. }
  rewrite (bind_run _ _ _ _ _ (copy_run _ _ _ Hs)) in E. fold c in E.
  erewrite bind_run in E
    by (apply anonymize_record_run; [simpl; apply lookup_insert_eq | exact Hd]).
  rewrite heap_set_heap, set_heap_twice, insert_insert_eq in E.
  set (w1 := set_heap (<[c := mask_dict d]> (heap w)) w) in *.
  assert (H1s : heap w1 !! s = Some d) by (simpl; rewrite lookup_insert_ne by congruence; exact Hs).
  assert (H1c : heap w1 !! c = Some (mask_dict d)) by (simpl; apply lookup_insert_eq).
  rewrite (bind_run _ _ _ _ _ (contains_run _ _ _ _ H1s)) in E.
  (* the pseudonym *)
  assert (Hid : exists r2 w2 d1,
    (if dict_has d (py "student_id")
     then let* sid := getitem s (py "student_id") in
          let* a := _generate_anonymous_id (py_str sid) in
          setitem c (py "anonymous_id") (VStr a)
     else ret tt) w1 = (r2, w2) /\
    heap w2 = <[c := d1]> (heap w) /\
    match r2 with
    | Ok _ =>
       match dict_get d (py "student_id") with
       | Some sid => exists a, pseudonym_of sid a /\
                       d1 = dict_set (mask_dict d) (py "anonymous_id") (VStr a)
       | None => d1 = mask_dict d
       end
    | Raise e => e = UnicodeEncodeError /\ ~ record_ok d
    end).
  { unfold dict_has. destruct (dict_get d (py "student_id")) as [sid|] eqn:Hsid.
    - unfold bind. rewrite (getitem_run _ _ _ _ _ H1s Hsid).
      rewrite generate_anonymous_id_run.
      destruct (encode (py_str sid)) as [b|] eqn:Eb.
      + rewrite (setitem_run _ _ _ _ _ H1c). do 3 eexists. split; [reflexivity|].
        simpl. split; [apply insert_insert_eq|].
        eexists. split; [|reflexivity]. exists b. split; [exact Eb | reflexivity].
      + do 3 eexists. split; [reflexivity|]. simpl. split; [reflexivity|].
        split; [reflexivity|]. intros [Hok _]. specialize (Hok sid Hsid).
        rewrite Eb in Hok. destruct Hok; discriminate.
    - do 3 eexists. split; [reflexivity|]. simpl. split; [reflexivity|]. reflexivity. }
  destruct Hid as (r2 & w2 & d1 & E2 & H2 & S2).
  unfold bind at 1 in E. rewrite E2 in E. destruct r2 as [[]|e].
  2:{ inversion E; subst. exists d1. split; [exact H2 | exact S2]. }
  assert (H2c : heap w2 !! c = Some d1) by (rewrite H2; apply lookup_insert_eq).
  assert (Hd1 : forall f, f ∈ pii_fields -> dict_get d1 f = mask_value <$> dict_get d f).
  { intros f Hf. rewrite <- dict_get_mask_dict.
    destruct (dict_get d (py "student_id")).
    - destruct S2 as (a & _ & ->). apply dict_get_set_ne.
      intros <-. revert Hf. by_compute.
    - subst d1. reflexivity. }
  unfold bind at 1 in E.
  destruct (for_each pii_fields (replace_pii_field c) w2) as [r3 w3] eqn:E3.
  destruct (pii_loop_spec _ _ _ _ _ _ H2c pii_fields_closed E3) as (d2 & H3 & S3).
  rewrite H2, insert_insert_eq in H3.
  destruct r3 as [[]|e].
  2:{ inversion E; subst. exists d2. split; [exact H3|].
      destruct S3 as (-> & f & v & Hf & Hv & Hn). split; [reflexivity|].
      intros [_ Hok]. rewrite (Hd1 f Hf) in Hv.
      destruct (dict_get d f) as [v0|] eqn:Hv0; [|discriminate].
      simpl in Hv. inversion Hv; subst v.
      specialize (Hok f v0 Hf Hv0). rewrite Hn in Hok. destruct Hok; discriminate. }
  assert (H3c : heap w3 !! c = Some d2) by (rewrite H3; apply lookup_insert_eq).
  unfold bind at 1 in E. unfold utcnow in E.
  erewrite bind_run in E by (apply setitem_run; simpl; exact H3c).
  erewrite bind_run in E by (apply setitem_run; simpl; apply lookup_insert_eq).
  unfold ret in E. simpl in E. inversion E; subst r w'. simpl.
  eexists. split; [rewrite insert_insert_eq, H3, insert_insert_eq; reflexivity|].
  split; [reflexivity|].
  exists d1, d2, (utcnow_at P (ticks w3)).
  split; [exact S2|]. split; [exact S3 | reflexivity].
Qed.

(** ** Lookups in a returned student record *)

Lemma pii_field_facts :
  Forall (fun f => (f ∉ reserved_keys) /\ (derived_key f ∉ reserved_keys) /\
                   (other_key f ∉ reserved_keys) /\ (other_key f ∉ pii_fields) /\
                   Forall (fun g => other_key f <> derived_key g) pii_fields) pii_fields.
Proof. by_compute. Qed.

Lemma plain_key_facts :
  Forall (fun k => (k ∉ pii_fields) /\ Forall (fun g => k <> derived_key g) pii_fields)
         [py "student_id"; py "anonymous_id"].
Proof. by_compute. Qed.

Lemma student_record_get d d' k :
  student_record d d' -> k ∉ reserved_keys -> k ∉ pii_fields ->
  (forall g, g ∈ pii_fields -> k <> derived_key g) ->
  dict_get d' k = mask_value <$> dict_get d k.
Proof.
  intros (d1 & d2 & t & H1 & H2 & ->) Hr Hp Hd.
  assert (Hk : k <> py "anonymous_id" /\ k <> py "anonymized_at" /\ k <> py "privacy_level").
  { unfold reserved_keys in Hr. simpl in Hr. rewrite !not_elem_of_cons in Hr. tauto. }
  destruct Hk as (Ha & Hb & Hc).
  rewrite !dict_get_set_ne by congruence.
  rewrite (pii_steps_get_other _ _ _ _ H2 pii_fields_closed Hp) by (intros; apply Hd; assumption).
  rewrite <- dict_get_mask_dict.
  destruct (dict_get d (py "student_id")).
  - destruct H1 as (a & _ & ->). apply dict_get_set_ne. congruence.
  - subst. reflexivity.
Qed.

Lemma student_record_get_pii d d' f :
  student_record d d' -> f ∈ pii_fields -> dict_get d' f = None.
Proof.
  intros (d1 & d2 & t & H1 & H2 & ->) Hf.
  pose proof pii_field_facts as F. rewrite Forall_forall in F.
  destruct (F f Hf) as (Hr & _).
  unfold reserved_keys in Hr. simpl in Hr. rewrite !not_elem_of_cons in Hr.
  rewrite !dict_get_set_ne by (intros E; symmetry in E; tauto).
  apply (pii_steps_get_self _ _ _ _ H2 pii_fields_closed Hf).
Qed.

Lemma student_record_get_derived d d' f v :
  student_record d d' -> f ∈ pii_fields -> dict_get d f = Some v ->
  exists x, dict_get d' (derived_key f) = Some (VStr x) /\ derived_value f (mask_value v) x.
Proof.
  intros (d1 & d2 & t & H1 & H2 & ->) Hf Hv.
  pose proof pii_field_facts as F. rewrite Forall_forall in F.
  destruct (F f Hf) as (Hr & Hr' & _).
  unfold reserved_keys in Hr, Hr'. simpl in Hr, Hr'. rewrite !not_elem_of_cons in Hr, Hr'.
  rewrite !dict_get_set_ne by (intros E; symmetry in E; tauto).
  apply (pii_steps_get_derived _ _ _ _ _ H2 pii_fields_closed Hf).
  assert (Hm : dict_get (mask_dict d) f = Some (mask_value v))
    by (rewrite dict_get_mask_dict, Hv; reflexivity).
  destruct (dict_get d (py "student_id")).
  - destruct H1 as (a & _ & ->). rewrite dict_get_set_ne by (intros E; symmetry in E; tauto).
    exact Hm.
  - subst. exact Hm.
Qed.

Lemma student_record_get_other d d' f :
  student_record d d' -> f ∈ pii_fields ->
  dict_get d' (other_key f) = mask_value <$> dict_get d (other_key f).
Proof.
  intros H Hf.
  pose proof pii_field_facts as F. rewrite Forall_forall in F.
  destruct (F f Hf) as (_ & _ & Hr & Hp & Hd). rewrite Forall_forall in Hd.
  apply (student_record_get _ _ _ H Hr Hp Hd).
Qed.

Lemma student_record_get_student_id d d' :
  student_record d d' ->
  dict_get d' (py "student_id") = mask_value <$> dict_get d (py "student_id").
Proof.
  intros H. pose proof plain_key_facts as F. rewrite Forall_forall in F.
  destruct (F (py "student_id")) as (Hp & Hd); [left|]. rewrite Forall_forall in Hd.
  apply (student_record_get _ _ _ H); [by_compute | exact Hp | exact Hd].
Qed.

Lemma student_record_get_anonymous_id d d' sid :
  student_record d d' -> dict_get d (py "student_id") = Some sid ->
  exists a, dict_get d' (py "anonymous_id") = Some (VStr a) /\ pseudonym_of sid a.
Proof.
  intros (d1 & d2 & t & H1 & H2 & ->) Hs. rewrite Hs in H1.
  destruct H1 as (a & Ha & ->). exists a. split; [|exact Ha].
  pose proof plain_key_facts as F. rewrite Forall_forall in F.
  destruct (F (py "anonymous_id")) as (Hp & Hd); [right; left|]. rewrite Forall_forall in Hd.
  rewrite !dict_get_set_ne by discriminate.
  rewrite (pii_steps_get_other _ _ _ _ H2 pii_fields_closed Hp) by (intros; apply Hd; assumption).
  rewrite dict_get_set, bool_decide_eq_true_2; reflexivity.
Qed.

Lemma student_record_ok d d' : student_record d d' -> record_ok d.
Proof.
  intros H. split.
  - intros sid Hs. destruct (student_record_get_anonymous_id _ _ _ H Hs) as (a & _ & b & Hb & _).
    rewrite Hb. eauto.
  - intros f v Hf Hv.
    destruct (student_record_get_derived _ _ _ _ H Hf Hv) as (x & _ & b & Hb & _).
    rewrite Hb. eauto.
Qed.

(** ** The objects a batch finds stay as they are *)

Lemma extends_refl w : extends w w.
Proof. intros l d H. exact H. Qed.

Lemma extends_trans w1 w2 w3 : extends w1 w2 -> extends w2 w3 -> extends w1 w3.
Proof. intros H1 H2 l d H. apply H2, H1, H. Qed.

Lemma extends_heap_eq w w' : heap w' = heap w -> extends w w'.
Proof. intros E l d H. rewrite E. exact H. Qed.

Lemma extends_fresh w w' dc :
  heap w' = <[fresh (dom (heap w)) := dc]> (heap w) -> extends w w'.
Proof.
  intros E l d H. rewrite E. rewrite lookup_insert_ne; [exact H|].
  intros <-. rewrite fresh_heap_None in H. discriminate.
Qed.

Lemma grows_heap_kept {A} (m : M A) : heap_kept m -> grows m.
Proof.
  intros H w. destruct (m w) as [r w'] eqn:E. apply extends_heap_eq. simpl. eauto.
Qed.

Lemma grows_bind {A B} (m : M A) (k : A -> M B) :
  grows m -> (forall a, grows (k a)) -> grows (bind m k).
Proof.
  intros Hm Hk w. unfold bind. specialize (Hm w).
  destruct (m w) as [[a|e] w1]; simpl in *; [|exact Hm].
  eapply extends_trans; [exact Hm | apply Hk].
Qed.

Lemma grows_try {A} (m : M A) (h : exn -> M A) :
  grows m -> (forall e, grows (h e)) -> grows (try_except m h).
Proof.
  intros Hm Hh w. unfold try_except. specialize (Hm w).
  destruct (m w) as [[a|e] w1]; simpl in *; [exact Hm|].
  eapply extends_trans; [exact Hm | apply Hh].
Qed.

Lemma grows_collect {A B} (xs : list A) (f : A -> M B) :
  (forall x, grows (f x)) -> grows (collect xs f).
Proof.
  intros Hf. induction xs as [|x xs IH]; simpl.
  - apply grows_heap_kept, heap_kept_ret.
  - apply grows_bind; [apply Hf|]. intros y.
    apply grows_bind; [exact IH|]. intros ys. apply grows_heap_kept, heap_kept_ret.
Qed.

(** A copy followed by writes to the copy. *)
Lemma grows_copy_then {A} (s : nat) (k : nat -> M A) :
  (forall c, writes_at c (k c)) -> grows (let* c := copy s in k c).
Proof.
  intros Hk w. unfold bind at 1. unfold copy, bind, deref, new_dict.
  destruct (heap w !! s) as [d|]; [|apply extends_refl].
  set (c := fresh (dom (heap w))).
  destruct (k c _) as [r w'] eqn:E.
  destruct (Hk c _ _ _ E) as [dc Hdc]; [simpl; rewrite lookup_insert_eq; eauto|].
  simpl in Hdc. rewrite insert_insert_eq in Hdc.
  apply (extends_fresh _ _ dc). exact Hdc.
Qed.

Lemma writes_at_replace_pii_field c f : writes_at c (replace_pii_field c f).
Proof. unfold replace_pii_field. frame. Qed.
#[local] Hint Resolve writes_at_replace_pii_field : frame.

Lemma anonymize_record_returns c w a w' : _anonymize_record c w = (Ok a, w') -> a = c.
Proof.
  unfold _anonymize_record, try_except, bind, items, logger, ret. intros E.
  destruct (deref c w) as [[d|e] w1]; [|inversion E; reflexivity].
  destruct (for_each d (mask_item c) w1) as [[[]|e] w2]; inversion E; reflexivity.
Qed.

(** [_anonymize_record] hands back the object it was given. *)
Lemma writes_at_after_anonymize_record {A} c (k : nat -> M A) :
  writes_at c (k c) -> writes_at c (let* a := _anonymize_record c in k a).
Proof.
  intros Hk w r w' E Hc. unfold bind in E.
  destruct (_anonymize_record c w) as [[a|e] w1] eqn:E1.
  - apply anonymize_record_returns in E1 as Ha. subst a.
    destruct (writes_at_anonymize_record c _ _ _ E1 Hc) as [d1 H1].
    destruct (Hk _ _ _ E) as [d2 H2]; [rewrite H1, lookup_insert_eq; eauto|].
    exists d2. rewrite H2, H1. apply insert_insert_eq.
  - inversion E; subst. eapply writes_at_anonymize_record; eauto.
Qed.

Lemma grows_anonymize_student s : grows (anonymize_student s).
Proof.
  unfold anonymize_student. apply grows_copy_then. intros c.
  apply writes_at_after_anonymize_record. frame.
Qed.

Lemma grows_anonymize_usage_record s : grows (anonymize_usage_record s).
Proof.
  unfold anonymize_usage_record. apply grows_copy_then. intros c.
  apply writes_at_after_anonymize_record. frame.
Qed.

Lemma grows_anonymize_student_data students : grows (anonymize_student_data students).
Proof.
  unfold anonymize_student_data.
  destruct (negb (anonymization_enabled self)).
  - apply grows_heap_kept. frame.
  - apply grows_try.
    + apply grows_bind; [apply grows_collect, grows_anonymize_student|].
      intros outs. apply grows_heap_kept. frame.
    + intros e. apply grows_heap_kept. frame.
Qed.

Lemma grows_anonymize_attendance_data records : grows (anonymize_attendance_data records).
Proof.
  unfold anonymize_attendance_data.
  destruct (negb (anonymization_enabled self)).
  - apply grows_heap_kept. frame.
  - apply grows_try.
    + apply grows_bind; [apply grows_collect, grows_anonymize_usage_record|].
      intros outs. apply grows_heap_kept. frame.
    + intros e. apply grows_heap_kept. frame.
Qed.

Lemma grows_anonymize_library_data records : grows (anonymize_library_data records).
Proof.
  unfold anonymize_library_data.
  destruct (negb (anonymization_enabled self)).
  - apply grows_heap_kept. frame.
  - apply grows_try.
    + apply grows_bind; [apply grows_collect, grows_anonymize_usage_record|].
      intros outs. apply grows_heap_kept. frame.
    + intros e. apply grows_heap_kept. frame.
Qed.

(** ** A batch of student records *)

Lemma records_in_extends w w' records :
  extends w w' -> records_in w records -> records_in w' records.
Proof.
  intros He H. unfold records_in in *. eapply Forall_impl; [exact H|].
  intros s (d & Hs & Hd). exists d. split; [apply He, Hs | exact Hd].
Qed.

Lemma collect_students_spec students : forall w outs w',
  records_in w students ->
  collect students anonymize_student w = (Ok outs, w') ->
  Forall2 (fun s o => forall d, heap w !! s = Some d ->
             exists d', heap w' !! o = Some d' /\ student_record d d')
          students outs.
Proof.
  induction students as [|s students IH]; intros w outs w' Hin E; simpl in E.
  - inversion E; subst. constructor.
  - apply Forall_cons in Hin as [(d & Hs & Hd) Hin].
    unfold bind at 1 in E.
    destruct (anonymize_student s w) as [[c|e] w1] eqn:E1; [|discriminate].
    destruct (anonymize_student_spec _ _ _ _ _ Hs Hd E1) as (dc & H1 & -> & Hrec).
    assert (Hext1 : extends w w1) by (apply (extends_fresh _ _ dc), H1).
    unfold bind at 1 in E.
    destruct (collect students anonymize_student w1) as [[ys|e] w2] eqn:E2; [|discriminate].
    inversion E; subst outs w2.
    pose proof (grows_collect students anonymize_student grows_anonymize_student w1) as Hext2.
    rewrite E2 in Hext2. simpl in Hext2.
    constructor.
    + intros d0 Hd0. rewrite Hs in Hd0. inversion Hd0; subst d0.
      exists dc. split; [|exact Hrec].
      apply Hext2. rewrite H1. apply lookup_insert_eq.
    + specialize (IH w1 ys w' (records_in_extends _ _ _ Hext1 Hin) E2).
      eapply Forall2_impl; [exact IH|].
      intros s' o' H d' Hd'. apply H, Hext1, Hd'.
Qed.

(** With anonymization on, the records returned are those of the loop and
    the heap is the one the loop leaves. *)
Lemma anonymize_student_data_Ok students w outs w' :
  anonymization_enabled self = true ->
  anonymize_student_data students w = (Ok outs, w') ->
  exists w1, collect students anonymize_student w = (Ok outs, w1) /\ heap w' = heap w1.
Proof.
  intros Hen E. unfold anonymize_student_data in E. rewrite Hen in E. simpl in E.
  unfold try_except in E. unfold bind at 1 in E.
  destruct (collect students anonymize_student w) as [[ys|e] w1] eqn:E1.
  - exists w1.
    assert (Hk : heap_kept
      (logger INFO (py "Anonymized " ++ str_of_nat (length ys) ++ py " student records") None ;;;
       (if audit_enabled self
        then _log_privacy_event (py "student_data_anonymization")
               (py "Anonymized " ++ str_of_nat (length students) ++ py " student records")
        else ret tt) ;;; ret ys)) by frame.
    match type of E with
    | match ?m with _ => _ end = _ => destruct m as [[a|e] w2] eqn:E2
    end; [|unfold bind, logger, raise in E; discriminate].
    inversion E; subst a w2. split; [|apply (Hk _ _ _ E2)].
    f_equal. f_equal.
    unfold bind, logger, ret in E2.
    destruct (audit_enabled self); simpl in E2.
    + destruct (_log_privacy_event _ _ _) as [[[]|e] w3]; inversion E2; reflexivity.
    + inversion E2; reflexivity.
  - unfold bind, logger, raise in E. discriminate.
Qed.

(** ** The records returned are new objects *)

Lemma bind_Ok_inv {A B} (m : M A) (k : A -> M B) w b w' :
  bind m k w = (Ok b, w') -> exists a w1, m w = (Ok a, w1) /\ k a w1 = (Ok b, w').
Proof.
  unfold bind. destruct (m w) as [[a|e] w1]; [eauto | discriminate].
Qed.

Lemma copy_fresh s w c w' : copy s w = (Ok c, w') -> heap w !! c = None.
Proof.
  unfold copy, bind, deref, new_dict. destruct (heap w !! s); [|discriminate].
  intros E. inversion E; subst. apply fresh_heap_None.
Qed.

Lemma anonymize_student_fresh s w c w' :
  anonymize_student s w = (Ok c, w') -> heap w !! c = None.
Proof.
  unfold anonymize_student. intros E.
  apply bind_Ok_inv in E as (c0 & w1 & E0 & E).
  apply bind_Ok_inv in E as (a & w2 & Ea & E).
  apply anonymize_record_returns in Ea. subst a.
  repeat (apply bind_Ok_inv in E as (? & ? & _ & E)).
  unfold ret in E. inversion E; subst. apply (copy_fresh _ _ _ _ E0).
Qed.

Lemma anonymize_usage_record_fresh s w c w' :
  anonymize_usage_record s w = (Ok c, w') -> heap w !! c = None.
Proof.
  unfold anonymize_usage_record. intros E.
  apply bind_Ok_inv in E as (c0 & w1 & E0 & E).
  apply bind_Ok_inv in E as (a & w2 & Ea & E).
  apply anonymize_record_returns in Ea. subst a.
  repeat (apply bind_Ok_inv in E as (? & ? & _ & E)).
  unfold ret in E. inversion E; subst. apply (copy_fresh _ _ _ _ E0).
Qed.

Lemma collect_fresh (f : nat -> M nat) :
  (forall s w c w', f s w = (Ok c, w') -> heap w !! c = None) ->
  (forall s, grows (f s)) ->
  forall xs w outs w', collect xs f w = (Ok outs, w') ->
    Forall (fun o => heap w !! o = None) outs.
Proof.
  intros Hf Hg. induction xs as [|x xs IH]; intros w outs w' E; simpl in E.
  - inversion E; subst. constructor.
  - apply bind_Ok_inv in E as (y & w1 & E1 & E).
    apply bind_Ok_inv in E as (ys & w2 & E2 & E).
    unfold ret in E. inversion E; subst. constructor; [apply (Hf _ _ _ _ E1)|].
    specialize (IH _ _ _ E2). eapply Forall_impl; [exact IH|].
    intros o Ho. simpl in Ho. destruct (heap w !! o) as [d|] eqn:Eo; [|reflexivity].
    pose proof (Hg x w) as Hx. rewrite E1 in Hx. simpl in Hx.
    rewrite (Hx _ _ Eo) in Ho. discriminate.
Qed.

Lemma collect_students_raise students : forall w e w',
  records_in w students ->
  collect students anonymize_student w = (Raise e, w') ->
  e = UnicodeEncodeError /\
  exists s d, s ∈ students /\ heap w !! s = Some d /\ ~ record_ok d.
Proof.
  induction students as [|s students IH]; intros w e w' Hin E; simpl in E.
  - discriminate.
  - apply Forall_cons in Hin as [(d & Hs & Hd) Hin].
    unfold bind at 1 in E.
    destruct (anonymize_student s w) as [[c|e1] w1] eqn:E1.
    + destruct (anonymize_student_spec _ _ _ _ _ Hs Hd E1) as (dc & H1 & _).
      assert (Hext1 : extends w w1) by (apply (extends_fresh _ _ dc), H1).
      unfold bind at 1 in E.
      destruct (collect students anonymize_student w1) as [[ys|e2] w2] eqn:E2; [discriminate|].
      inversion E; subst e2 w2.
      destruct (IH w1 e w' (records_in_extends _ _ _ Hext1 Hin) E2) as (-> & s' & d' & Hs' & Hd' & Hn).
      split; [reflexivity|]. exists s', d'. split; [right; exact Hs'|]. split; [|exact Hn].
      unfold records_in in Hin. rewrite Forall_forall in Hin.
      destruct (Hin s' Hs') as (d0 & Hd0 & _).
      rewrite (Hext1 _ _ Hd0) in Hd'. congruence.
    + inversion E; subst e1 w1.
      destruct (anonymize_student_spec _ _ _ _ _ Hs Hd E1) as (dc & _ & -> & Hn).
      split; [reflexivity|]. exists s, d. split; [left | split; assumption].
Qed.

(** ** The claims on [PrivacyUtils] *)


(** C2, as the code has it. A returned student record carries the
    pseudonym of its [student_id] under [anonymous_id], and it still carries
    [student_id] itself, with the value the masking pass leaves. *)
Theorem anonymize_student_data_keeps_student_id students w outs w' :
  anonymization_enabled self = true ->
  records_in w students ->
  anonymize_student_data students w = (Ok outs, w') ->
  Forall2 (fun s o => forall d sid,
             heap w !! s = Some d -> dict_get d (py "student_id") = Some sid ->
             exists d' a,
               heap w' !! o = Some d' /\
               dict_get d' (py "anonymous_id") = Some (VStr a) /\ pseudonym_of sid a /\
               dict_get d' (py "student_id") = Some (mask_value sid))
          students outs.
Proof.
  intros Hen Hin E.
  destruct (anonymize_student_data_Ok _ _ _ _ Hen E) as (w1 & E1 & Hh).
  eapply Forall2_impl; [apply (collect_students_spec _ _ _ _ Hin E1)|].
  intros s o H d sid Hd Hsid. destruct (H d Hd) as (d' & Hd' & Hrec).
  destruct (student_record_get_anonymous_id _ _ _ Hrec Hsid) as (a & Ha & Hp).
  exists d', a. rewrite Hh. split; [exact Hd'|]. split; [exact Ha|]. split; [exact Hp|].
  rewrite (student_record_get_student_id _ _ Hrec), Hsid. reflexivity.
Qed.

(** C3, as the code has it. For a PII field present on an input record, the
    returned record has no field of that name and has the derived field,
    [<field>_encrypted] with a Fernet token for a sensitive field and
    [<field>_hash] with a SHA-256 digest otherwise; the other of the two
    names is in the returned record exactly if the input record had a field
    of that name, which passes through like any other field. *)
Theorem anonymize_student_data_pii_fields students w outs w' :
  anonymization_enabled self = true ->
  records_in w students ->
  anonymize_student_data students w = (Ok outs, w') ->
  Forall2 (fun s o => forall d f v,
             heap w !! s = Some d -> f ∈ pii_fields -> dict_get d f = Some v ->
             exists d' x,
               heap w' !! o = Some d' /\
               dict_get d' f = None /\
               dict_get d' (derived_key f) = Some (VStr x) /\
               derived_value f (mask_value v) x /\
               dict_get d' (other_key f) = mask_value <$> dict_get d (other_key f))
          students outs.
Proof.
  intros Hen Hin E.
  destruct (anonymize_student_data_Ok _ _ _ _ Hen E) as (w1 & E1 & Hh).
  eapply Forall2_impl; [apply (collect_students_spec _ _ _ _ Hin E1)|].
  intros s o H d f v Hd Hf Hv. destruct (H d Hd) as (d' & Hd' & Hrec).
  destruct (student_record_get_derived _ _ _ _ Hrec Hf Hv) as (x & Hx & Dx).
  exists d', x. rewrite Hh. split; [exact Hd'|].
  split; [apply (student_record_get_pii _ _ _ Hrec Hf)|].
  split; [exact Hx|]. split; [exact Dx|].
  apply (student_record_get_other _ _ _ Hrec Hf).
Qed.

(** C8. Whatever the three anonymize operations return or raise, every
    object that was in the heap before the call, the records of the input
    among them, has the items it had before; and with anonymization on, the
    records they return are objects that did not exist before the call. *)
Theorem anonymize_leaves_input records w l d :
  heap w !! l = Some d ->
  (heap (snd (anonymize_student_data records w)) !! l = Some d /\
   heap (snd (anonymize_attendance_data records w)) !! l = Some d /\
   heap (snd (anonymize_library_data records w)) !! l = Some d) /\
  (anonymization_enabled self = true ->
   forall outs,
     fst (anonymize_student_data records w) = Ok outs \/
     fst (anonymize_attendance_data records w) = Ok outs \/
     fst (anonymize_library_data records w) = Ok outs ->
     Forall (fun o => heap w !! o = None) outs).
Proof.
  intros H. split; [split; [|split]|].
  - apply (grows_anonymize_student_data records w), H.
  - apply (grows_anonymize_attendance_data records w), H.
  - apply (grows_anonymize_library_data records w), H.
  - intros Hen outs [E|[E|E]].
    + destruct (anonymize_student_data records w) as [r w'] eqn:E0. simpl in E. subst r.
      destruct (anonymize_student_data_Ok _ _ _ _ Hen E0) as (w1 & E1 & _).
      apply (collect_fresh _ anonymize_student_fresh grows_anonymize_student _ _ _ _ E1).
    + destruct (anonymize_attendance_data records w) as [r w'] eqn:E0. simpl in E. subst r.
      unfold anonymize_attendance_data in E0. rewrite Hen in E0. change (negb true) with false in E0. cbv beta iota in E0.
      assert (E1 : exists w1, collect records anonymize_usage_record w = (Ok outs, w1)).
      { revert E0. unfold try_except, bind, logger, ret, raise.
        destruct (collect records anonymize_usage_record w) as [[ys|e] w1];
          [|intros E; cbv beta iota in E; discriminate].
        intros E. cbv beta iota in E. inversion E; subst. eauto. }
      destruct E1 as (w1 & E1).
      apply (collect_fresh _ anonymize_usage_record_fresh grows_anonymize_usage_record
               _ _ _ _ E1).
    + destruct (anonymize_library_data records w) as [r w'] eqn:E0. simpl in E. subst r.
      unfold anonymize_library_data in E0. rewrite Hen in E0. change (negb true) with false in E0. cbv beta iota in E0.
      assert (E1 : exists w1, collect records anonymize_usage_record w = (Ok outs, w1)).
      { revert E0. unfold try_except, bind, logger, ret, raise.
        destruct (collect records anonymize_usage_record w) as [[ys|e] w1];
          [|intros E; cbv beta iota in E; discriminate].
        intros E. cbv beta iota in E. inversion E; subst. eauto. }
      destruct E1 as (w1 & E1).
      apply (collect_fresh _ anonymize_usage_record_fresh grows_anonymize_usage_record
               _ _ _ _ E1).
Qed.

(** C10. [_anonymize_record] keeps the keys of the record and replaces each
    string value by at most one masked form, the one of the first pattern
    that matches in the order email, phone, SSN; a string that matches none
    and a value that is not a string stay as they are. *)
Theorem anonymize_record_first_pattern c d w :
  heap w !! c = Some d -> is_dict d ->
  exists d' w',
    _anonymize_record c w = (Ok c, w') /\
    heap w' = <[c := d']> (heap w) /\
    map fst d' = map fst d /\
    forall k v, dict_get d k = Some v ->
      dict_get d' k =
        Some match v with
             | VStr s =>
                 VStr (if re_search pattern_email s then _mask_email s
                       else if re_search pattern_phone s then _mask_phone s
                       else if re_search pattern_ssn s then _mask_ssn s
                       else s)
             | _ => v
             end.
Proof.
  intros Hc Hd. exists (mask_dict d). eexists.
  split; [apply (anonymize_record_run _ _ _ Hc Hd)|].
  split; [reflexivity|]. split; [apply map_fst_mask_dict|].
  intros k v Hk. rewrite dict_get_mask_dict, Hk. reflexivity.
Qed.

(** ** Masks and pseudonyms *)

Lemma split_once_found (local domain : pystr) :
  64 ∉ local -> split_once 64 (local ++ 64 :: domain) = Some (local, domain).
Proof.
  induction local as [|c local IH]; simpl; intros H.
  - reflexivity.
  - apply not_elem_of_cons in H as [Hc H].
    destruct (c =? 64) eqn:E; [apply N.eqb_eq in E; congruence|].
    rewrite IH by exact H. reflexivity.
Qed.

Lemma split_once_none (s : pystr) : 64 ∉ s -> split_once 64 s = None.
Proof.
  induction s as [|c s IH]; simpl; intros H.
  - reflexivity.
  - apply not_elem_of_cons in H as [Hc H].
    destruct (c =? 64) eqn:E; [apply N.eqb_eq in E; congruence|].
    rewrite IH by exact H. reflexivity.
Qed.

Lemma filter_all {A} (p : A -> bool) (l : list A) :
  List.filter p (List.filter p l) = List.filter p l.
Proof.
  induction l as [|x l IH]; simpl; [reflexivity|].
  destruct (p x) eqn:E; simpl; [rewrite E, IH; reflexivity | exact IH].
Qed.

Lemma filter_skipn_filter {A} (p : A -> bool) (l : list A) n :
  List.filter p (skipn n (List.filter p l)) = skipn n (List.filter p l).
Proof.
  revert n. induction l as [|x l IH]; intros n; simpl.
  - destruct n; reflexivity.
  - destruct (p x) eqn:E; [|apply IH].
    destruct n; simpl.
    + rewrite E. f_equal. apply filter_all.
    + apply IH.
Qed.


Lemma hex_digit_ok d : d < 16 -> is_hex_digit (hex_digit d) = true.
Proof.
  intros H. unfold hex_digit, is_hex_digit.
  destruct (d <? 10) eqn:E; [apply N.ltb_lt in E | apply N.ltb_ge in E].
  - replace (48 <=? 48 + d) with true by (symmetry; apply N.leb_le; lia).
    replace (48 + d <=? 57) with true by (symmetry; apply N.leb_le; lia).
    reflexivity.
  - replace (97 <=? 87 + d) with true by (symmetry; apply N.leb_le; lia).
    replace (87 + d <=? 102) with true by (symmetry; apply N.leb_le; lia).
    apply orb_true_r.
Qed.

Lemma hex_byte_ok b : Forall (fun c => is_hex_digit c = true) (hex_byte b).
Proof.
  unfold hex_byte. repeat constructor; apply hex_digit_ok; apply N.mod_lt; discriminate.
Qed.

Lemma hex_word32_ok x :
  length (hex_word32 x) = 8%nat /\ Forall (fun c => is_hex_digit c = true) (hex_word32 x).
Proof.
  split; [reflexivity|]. unfold hex_word32.
  repeat (apply Forall_app; split); apply hex_byte_ok.
Qed.

Lemma sha256_hexdigest_ok msg :
  length (SHA256.hexdigest msg) = 64%nat /\
  Forall (fun c => is_hex_digit c = true) (SHA256.hexdigest msg).
Proof.
  split; [reflexivity|]. unfold SHA256.hexdigest, SHA256.hex_regs.
  repeat (apply Forall_app; split); apply hex_byte_ok.
Qed.


(** ** The store *)

Lemma db_kept_writes_at {A} name (m : M A) : db_kept m -> db_writes_at name m.
Proof.
  intros H w r w' E. destruct (H _ _ _ E) as [H1 H2]. split; [exact H1|].
  intros n _. unfold stored. rewrite H2. reflexivity.
Qed.

Lemma db_writes_at_bind {A B} name (m : M A) (k : A -> M B) :
  db_writes_at name m -> (forall a, db_writes_at name (k a)) -> db_writes_at name (bind m k).
Proof.
  intros Hm Hk w r w' E. unfold bind in E.
  destruct (m w) as [[a|e] w1] eqn:E1.
  - destruct (Hm _ _ _ E1) as [I1 S1]. destruct (Hk _ _ _ _ E) as [I2 S2].
    split; [congruence|]. intros n Hn. rewrite S2, S1 by exact Hn. reflexivity.
  - inversion E; subst. eauto.
Qed.

Lemma db_writes_at_try {A} name (m : M A) (h : exn -> M A) :
  db_writes_at name m -> (forall e, db_writes_at name (h e)) ->
  db_writes_at name (try_except m h).
Proof.
  intros Hm Hh w r w' E. unfold try_except in E.
  destruct (m w) as [[a|e] w1] eqn:E1.
  - inversion E; subst. eauto.
  - destruct (Hm _ _ _ E1) as [I1 S1]. destruct (Hh _ _ _ _ E) as [I2 S2].
    split; [congruence|]. intros n Hn. rewrite S2, S1 by exact Hn. reflexivity.
Qed.

Lemma db_kept_bind {A B} (m : M A) (k : A -> M B) :
  db_kept m -> (forall a, db_kept (k a)) -> db_kept (bind m k).
Proof.
  intros Hm Hk w r w' E. unfold bind in E.
  destruct (m w) as [[a|e] w1] eqn:E1.
  - destruct (Hm _ _ _ E1) as [I1 S1]. destruct (Hk _ _ _ _ E) as [I2 S2].
    split; congruence.
  - inversion E; subst. eauto.
Qed.

Lemma db_kept_try {A} (m : M A) (h : exn -> M A) :
  db_kept m -> (forall e, db_kept (h e)) -> db_kept (try_except m h).
Proof.
  intros Hm Hh w r w' E. unfold try_except in E.
  destruct (m w) as [[a|e] w1] eqn:E1.
  - inversion E; subst. eauto.
  - destruct (Hm _ _ _ E1) as [I1 S1]. destruct (Hh _ _ _ _ E) as [I2 S2].
    split; congruence.
Qed.

Lemma db_writes_at_for_each {A} name (xs : list A) (body : A -> M unit) :
  (forall x, db_writes_at name (body x)) -> db_writes_at name (for_each xs body).
Proof.
  intros Hb. induction xs as [|x xs IH]; simpl.
  - intros w r w' E. inversion E; subst. auto.
  - apply db_writes_at_bind; auto.
Qed.

Lemma db_writes_at_collect {A B} name (xs : list A) (f : A -> M B) :
  (forall x, db_writes_at name (f x)) -> db_writes_at name (collect xs f).
Proof.
  intros Hf. induction xs as [|x xs IH]; simpl.
  - intros w r w' E. inversion E; subst. auto.
  - apply db_writes_at_bind; [apply Hf|]. intros y.
    apply db_writes_at_bind; [exact IH|]. intros ys w r w' E. inversion E; subst. auto.
Qed.

Lemma db_writes_at_fold_each {A S} name (xs : list A) (body : S -> A -> M S) : forall c,
  (forall c x, db_writes_at name (body c x)) -> db_writes_at name (fold_each xs body c).
Proof.
  induction xs as [|x xs IH]; intros c Hb; simpl.
  - intros w r w' E. inversion E; subst. auto.
  - apply db_writes_at_bind; [apply Hb|]. intros c'. apply IH, Hb.
Qed.

Lemma db_kept_ret {A} (a : A) : db_kept (ret a).
Proof. intros w r w' E. inversion E; auto. Qed.
Lemma db_kept_raise {A} e : db_kept (@raise A e).
Proof. intros w r w' E. inversion E; auto. Qed.
Lemma db_kept_logger lv t c : db_kept (logger lv t c).
Proof. intros w r w' E. inversion E; auto. Qed.
Lemma db_kept_deref l : db_kept (deref l).
Proof. intros w r w' E. unfold deref in E. destruct (heap w !! l); inversion E; auto. Qed.
Lemma db_kept_store l d : db_kept (store l d).
Proof. intros w r w' E. inversion E; auto. Qed.
Lemma db_kept_new_dict d : db_kept (new_dict d).
Proof. intros w r w' E. inversion E; auto. Qed.
Lemma db_kept_utcnow : db_kept utcnow.
Proof. intros w r w' E. inversion E; auto. Qed.
Lemma db_kept_get_collection n : db_kept (get_collection n).
Proof. intros w r w' E. inversion E; auto. Qed.
Lemma db_kept_unique_fields n : db_kept (unique_fields n).
Proof. intros w r w' E. inversion E; auto. Qed.

Lemma stored_put name docs w n :
  stored (set_mongo (Database (<[name := docs]> (collections (mongo w)))
                       (unique_indexes (mongo w)) (oid_seq (mongo w))) w) n =
  if bool_decide (name = n) then docs else stored w n.
Proof.
  unfold stored. simpl. case_bool_decide.
  - subst. rewrite lookup_insert_eq. reflexivity.
  - rewrite lookup_insert_ne by assumption. reflexivity.
Qed.

Lemma db_writes_at_put_collection name docs : db_writes_at name (put_collection name docs).
Proof.
  intros w r w' E. inversion E; subst. split; [reflexivity|].
  intros n Hn. rewrite stored_put, bool_decide_eq_false_2 by congruence. reflexivity.
Qed.

Create HintDb db.
#[local] Hint Resolve db_kept_ret db_kept_raise db_kept_logger db_kept_deref db_kept_store
  db_kept_new_dict db_kept_utcnow db_kept_get_collection db_kept_unique_fields
  db_writes_at_put_collection : db.
#[local] Hint Extern 2 (db_kept (bind _ _)) => apply db_kept_bind; [|intros] : db.
#[local] Hint Extern 2 (db_kept (try_except _ _)) => apply db_kept_try; [|intros] : db.
#[local] Hint Extern 2 (db_writes_at _ (bind _ _)) => apply db_writes_at_bind; [|intros] : db.
#[local] Hint Extern 2 (db_writes_at _ (try_except _ _)) => apply db_writes_at_try; [|intros] : db.
#[local] Hint Extern 2 (db_writes_at _ (for_each _ _)) => apply db_writes_at_for_each; intros : db.
#[local] Hint Extern 2 (db_writes_at _ (collect _ _)) => apply db_writes_at_collect; intros : db.
#[local] Hint Extern 2 (db_writes_at _ (fold_each _ _ _)) => apply db_writes_at_fold_each; intros : db.
#[local] Hint Extern 5 (db_writes_at _ _) => apply db_kept_writes_at : db.
#[local] Hint Extern 3 (db_kept (if ?b then _ else _)) => destruct b : db.
#[local] Hint Extern 3 (db_writes_at _ (if ?b then _ else _)) => destruct b : db.
#[local] Hint Extern 3 (db_kept (match ?x with _ => _ end)) => destruct x : db.
#[local] Hint Extern 3 (db_writes_at _ (match ?x with _ => _ end)) => destruct x : db.

Ltac db := unfold contains, getitem, setitem, delitem, items; eauto 40 with db.

Lemma db_writes_at_new_oid name : db_writes_at name (new_oid name).
Proof.
  intros w r w' E. unfold new_oid, bind, get_collection in E. inversion E; subst.
  split; [reflexivity|]. intros n _. reflexivity.
Qed.
#[local] Hint Resolve db_writes_at_new_oid : db.

Lemma db_writes_at_server_insert name doc : db_writes_at name (server_insert name doc).
Proof. unfold server_insert. db. Qed.
#[local] Hint Resolve db_writes_at_server_insert : db.

Lemma db_writes_at_ensure_id name l : db_writes_at name (ensure_id name l).
Proof. unfold ensure_id. db. Qed.
#[local] Hint Resolve db_writes_at_ensure_id : db.

Lemma db_writes_at_insert_one name l : db_writes_at name (insert_one name l).
Proof. unfold insert_one. db. Qed.
#[local] Hint Resolve db_writes_at_insert_one : db.

Lemma db_writes_at_insert_many name data : db_writes_at name (insert_many name data).
Proof. unfold insert_many. db. Qed.

Lemma db_writes_at_replace_one name key v l : db_writes_at name (replace_one name key v l).
Proof. unfold replace_one. db. Qed.
#[local] Hint Resolve db_writes_at_insert_many db_writes_at_replace_one : db.

Lemma db_writes_at_upsert_document name key c l :
  db_writes_at name (upsert_document name key c l).
Proof. unfold upsert_document. db. Qed.

Lemma db_writes_at_insert_document name c l : db_writes_at name (insert_document name c l).
Proof. unfold insert_document. db. Qed.
#[local] Hint Resolve db_writes_at_upsert_document db_writes_at_insert_document : db.

Lemma db_writes_at_insert_all name data : db_writes_at name (insert_all name data).
Proof. unfold insert_all. db. Qed.
#[local] Hint Resolve db_writes_at_insert_all : db.

(** ** The indexes of the store *)

Lemma index_kept_bind {A B} n (m : M A) (k : A -> M B) :
  index_kept n m -> (forall a, index_kept n (k a)) -> index_kept n (bind m k).
Proof.
  intros Hm Hk w. unfold bind. specialize (Hm w).
  destruct (m w) as [[a|e] w1]; cbn [snd] in *; [|exact Hm].
  rewrite (Hk a w1). exact Hm.
Qed.

Lemma index_kept_try {A} n (m : M A) (h : exn -> M A) :
  index_kept n m -> (forall e, index_kept n (h e)) -> index_kept n (try_except m h).
Proof.
  intros Hm Hh w. unfold try_except. specialize (Hm w).
  destruct (m w) as [[a|e] w1]; cbn [snd] in *; [exact Hm|].
  rewrite (Hh e w1). exact Hm.
Qed.

Lemma index_kept_logger n lv t c : index_kept n (logger lv t c).
Proof. intros w. reflexivity. Qed.

Lemma index_kept_create_unique_index n name field :
  n <> name -> index_kept n (create_unique_index name field).
Proof.
  intros Hn w. unfold create_unique_index, bind, get_collection.
  destruct (bool_decide _); cbn [snd]; world_simpl; [|reflexivity].
  apply lookup_insert_ne. congruence.
Qed.

Lemma index_kept_setup_indexes : index_kept (py "audit_logs") _setup_indexes.
Proof.
  unfold _setup_indexes. apply index_kept_try; [|intros e; apply index_kept_logger].
  repeat (apply index_kept_bind;
          [apply index_kept_create_unique_index; by_compute | intros _]).
  apply index_kept_logger.
Qed.

(** [_setup_indexes] puts no unique index on [audit_logs], whether it
    succeeds or logs its failure: a store set up by it meets the condition
    under which the audit entries are proved to be written. *)
Lemma setup_indexes_audit_logs w :
  unique_indexes (mongo w) !! py "audit_logs" = None ->
  unique_indexes (mongo (snd (_setup_indexes w))) !! py "audit_logs" = None.
Proof. intros H. rewrite index_kept_setup_indexes. exact H. Qed.

(** ** Computations that always return *)

Lemma total_ret {A} (a : A) : total (ret a).
Proof. intros w. eauto. Qed.

Lemma total_logger lv t c : total (logger lv t c).
Proof. intros w. unfold logger. eauto. Qed.

Lemma total_bind {A B} (m : M A) (k : A -> M B) :
  total m -> (forall a, total (k a)) -> total (bind m k).
Proof.
  intros Hm Hk w. destruct (Hm w) as (a & w1 & E1). destruct (Hk a w1) as (b & w2 & E2).
  exists b, w2. unfold bind. rewrite E1. exact E2.
Qed.

Lemma total_try {A} (m : M A) (h : exn -> M A) :
  (forall e, total (h e)) -> total (try_except m h).
Proof.
  intros Hh w. unfold try_except. destruct (m w) as [[a|e] w1]; [eauto|]. apply Hh.
Qed.

Lemma total_fold_each {A S} (xs : list A) (body : S -> A -> M S) :
  (forall c x, total (body c x)) -> forall c, total (fold_each xs body c).
Proof.
  intros Hb. induction xs as [|x xs IH]; intros c; simpl.
  - apply total_ret.
  - apply total_bind; [apply Hb | exact IH].
Qed.

Lemma total_upsert_document name key c l : total (upsert_document name key c l).
Proof.
  unfold upsert_document. apply total_try. intros e.
  apply total_bind; [apply total_logger | intros; apply total_ret].
Qed.

Lemma total_insert_document name c l : total (insert_document name c l).
Proof.
  unfold insert_document. apply total_try. intros e.
  destruct e; try (apply total_bind; [apply total_logger | intros; apply total_ret]).
  apply total_ret.
Qed.

Lemma total_insert_all name data : total (insert_all name data).
Proof.
  unfold insert_all. apply total_try. intros e.
  apply total_bind; [apply total_logger|]. intros _.
  apply total_fold_each. intros. apply total_insert_document.
Qed.

(** ** The audit trail *)

Lemma next_oid_ge docs seq d m :
  d ∈ docs -> dict_get d (py "_id") = Some (VOid m) -> m < next_oid docs seq.
Proof.
  induction docs as [|d0 docs IH]; intros Hin Hd.
  - apply elem_of_nil in Hin. contradiction.
  - simpl. apply elem_of_cons in Hin as [->|Hin].
    + rewrite Hd. lia.
    + specialize (IH Hin Hd).
      destruct (dict_get d0 (py "_id")) as [[]|]; lia.
Qed.

Lemma next_oid_fresh docs seq :
  existsb (fun d' => bool_decide (doc_field d' (py "_id") = VOid (next_oid docs seq))) docs
  = false.
Proof.
  apply not_true_is_false. intros H. apply existsb_exists in H as (d & Hin & Hd).
  apply bool_decide_eq_true in Hd. apply list_elem_of_In in Hin.
  unfold doc_field in Hd.
  destruct (dict_get d (py "_id")) as [v|] eqn:E; simpl in Hd; [|discriminate].
  subst v. pose proof (next_oid_ge _ seq _ _ Hin E). lia.
Qed.

Lemma new_oid_run name w :
  new_oid name w =
    (Ok (VOid (next_oid (stored w name) (oid_seq (mongo w)))),
     set_mongo (Database (collections (mongo w)) (unique_indexes (mongo w))
                  (next_oid (stored w name) (oid_seq (mongo w)) + 1)) w).
Proof. reflexivity. Qed.

Lemma server_insert_run name doc w :
  clashes (py "_id" :: default [] (unique_indexes (mongo w) !! name)) (stored w name) doc
    = false ->
  server_insert name doc w =
    (Ok tt, set_mongo (Database (<[name := stored w name ++ [doc]]> (collections (mongo w)))
                         (unique_indexes (mongo w)) (oid_seq (mongo w))) w).
Proof.
  intros H. unfold server_insert, bind, get_collection, unique_fields.
  fold (stored w name). rewrite H. reflexivity.
Qed.

Lemma server_insert_clash name doc w :
  clashes (py "_id" :: default [] (unique_indexes (mongo w) !! name)) (stored w name) doc
    = true ->
  server_insert name doc w = (Raise DuplicateKeyError, w).
Proof.
  intros H. unfold server_insert, bind, get_collection, unique_fields.
  fold (stored w name). rewrite H. reflexivity.
Qed.

Lemma dict_set_absent (d : dict) k v : dict_get d k = None -> dict_set d k v = d ++ [(k, v)].
Proof.
  induction d as [|[k0 v0] d IH]; simpl; [reflexivity|].
  destruct (bool_decide (k0 = k)); [discriminate|]. intros H. rewrite IH by exact H. reflexivity.
Qed.

Lemma dict_del_absent (d : dict) k : dict_get d k = None -> dict_del d k = d.
Proof.
  induction d as [|[k0 v0] d IH]; simpl; [reflexivity|].
  destruct (bool_decide (k0 = k)); [discriminate|]. intros H. rewrite IH by exact H. reflexivity.
Qed.

Lemma dict_del_app (d1 d2 : dict) k : dict_del (d1 ++ d2) k = dict_del d1 k ++ dict_del d2 k.
Proof.
  induction d1 as [|[k0 v0] d1 IH]; simpl; [reflexivity|].
  destruct (bool_decide (k0 = k)); simpl; rewrite IH; reflexivity.
Qed.

Lemma dict_get_app_absent (d1 d2 : dict) k :
  dict_get d1 k = None -> dict_get (d1 ++ d2) k = dict_get d2 k.
Proof.
  induction d1 as [|[k0 v0] d1 IH]; simpl; [reflexivity|].
  destruct (bool_decide (k0 = k)); [discriminate | exact IH].
Qed.

(** The document the server keeps for a dictionary that got its [_id] from
    the driver. *)
Lemma bson_doc_new_id (d : dict) v :
  dict_get d (py "_id") = None ->
  bson_doc (dict_set d (py "_id") v) = (py "_id", v) :: d.
Proof.
  intros H. unfold bson_doc. rewrite dict_get_set, bool_decide_eq_true_2 by reflexivity.
  rewrite (dict_set_absent _ _ _ H), dict_del_app, (dict_del_absent _ _ H).
  cbn [dict_del]. rewrite bool_decide_eq_true_2 by reflexivity. rewrite app_nil_r. reflexivity.
Qed.

(** [insert_one] on a dictionary without [_id] that clashes with no unique
    index. *)
Lemma insert_one_run name l d w :
  heap w !! l = Some d -> dict_get d (py "_id") = None ->
  let oid := next_oid (stored w name) (oid_seq (mongo w)) in
  clashes (py "_id" :: default [] (unique_indexes (mongo w) !! name)) (stored w name)
          ((py "_id", VOid oid) :: d) = false ->
  insert_one name l w =
    (Ok (VOid oid),
     set_mongo (Database (<[name := stored w name ++ [(py "_id", VOid oid) :: d]]>
                            (collections (mongo w)))
                  (unique_indexes (mongo w)) (oid + 1))
       (set_heap (<[l := dict_set d (py "_id") (VOid oid)]> (heap w)) w)).
Proof.
  intros Hl Hid oid Hc. unfold insert_one.
  assert (E1 : ensure_id name l w =
    (Ok tt, set_heap (<[l := dict_set d (py "_id") (VOid oid)]> (heap w))
              (set_mongo (Database (collections (mongo w)) (unique_indexes (mongo w))
                            (oid + 1)) w))).
  { unfold ensure_id. rewrite (bind_run _ _ _ _ _ (contains_run _ _ _ _ Hl)).
    unfold dict_has. rewrite Hid.
    rewrite (bind_run _ _ _ _ _ (new_oid_run _ _)). fold oid.
    erewrite setitem_run by (cbn [heap set_mongo]; exact Hl). reflexivity. }
  rewrite (bind_run _ _ _ _ _ E1).
  unfold bind at 1. unfold deref. cbn [heap set_heap]. rewrite lookup_insert_eq.
  rewrite (bson_doc_new_id _ _ Hid).
  erewrite bind_run by (apply server_insert_run; exact Hc).
  unfold ret, doc_field. rewrite dict_get_set, bool_decide_eq_true_2 by reflexivity.
  reflexivity.
Qed.

(** With no unique index of its own on [audit_logs],
    [_log_data_operation] appends its entry and returns. *)
Lemma log_data_operation_run name op n i u w :
  unique_indexes (mongo w) !! py "audit_logs" = None ->
  exists oid w',
    _log_data_operation name op n i u w = (Ok tt, w') /\
    stored w' (py "audit_logs") =
      stored w (py "audit_logs") ++ [audit_entry oid (utcnow_at P (ticks w)) op name n i u] /\
    (forall m, m <> py "audit_logs" -> stored w' m = stored w m) /\
    unique_indexes (mongo w') = unique_indexes (mongo w) /\
    ticks w' = S (ticks w) /\
    extends w w'.
Proof.
  intros Hu.
  set (now := utcnow_at P (ticks w)).
  set (l := fresh (dom (heap w))).
  set (oid := next_oid (stored w (py "audit_logs")) (oid_seq (mongo w))).
  exists oid. eexists.
  unfold _log_data_operation, try_except.
  unfold bind at 1. unfold utcnow. fold now.
  unfold bind at 1. unfold new_dict. cbn [heap set_ticks]. fold l.
  erewrite bind_run.
  2:{ apply (insert_one_run _ l (List.tl (audit_entry oid now op name n i u))).
      - apply lookup_insert_eq.
      - reflexivity.
      - cbn [mongo set_mongo set_heap set_ticks unique_indexes]. rewrite Hu.
        cbn [default clashes existsb]. rewrite orb_false_r. apply next_oid_fresh. }
  unfold ret. split; [reflexivity|].
  split; [|split; [|split; [|split]]].
  - unfold stored at 1. world_simpl. rewrite lookup_insert_eq. reflexivity.
  - intros m Hm. unfold stored at 1. world_simpl.
    rewrite lookup_insert_ne by congruence. reflexivity.
  - reflexivity.
  - reflexivity.
  - intros l' d' Hl'. world_simpl. rewrite insert_insert_eq. rewrite lookup_insert_ne; [exact Hl'|].
    intros <-. unfold l in Hl'. rewrite fresh_heap_None in Hl'. discriminate.
Qed.

Lemma store_data_empty name key w :
  store_data name [] key w =
    (Ok (Counts 0 0 0),
     set_logs (logs w ++ [Log WARNING (py "No data provided for collection " ++ name) None]) w).
Proof. reflexivity. Qed.

Lemma db_writes_at_store_loop name data key :
  db_writes_at name
    (if key_given key
     then fold_each data (upsert_document name (default [] key)) (Counts 0 0 0)
     else insert_all name data).
Proof. destruct (key_given key); db. Qed.

Lemma total_store_loop name data key :
  total
    (if key_given key
     then fold_each data (upsert_document name (default [] key)) (Counts 0 0 0)
     else insert_all name data).
Proof.
  destruct (key_given key).
  - apply total_fold_each. intros. apply total_upsert_document.
  - apply total_insert_all.
Qed.


(** ** ISO timestamps sort as instants *)

Local Open Scope Z_scope.

(** *** The calendar *)

Lemma all_from_spec (p : Z -> bool) (k : nat) :
  forall i, all_from k i p = true ->
  forall j, i <= j < i + Z.of_nat k -> p j = true.
Proof.
  induction k as [|k IH]; intros i H j Hj; [lia|].
  simpl in H. apply andb_true_iff in H as [H1 H2].
  destruct (Z.eq_dec j i) as [->|Hne]; [exact H1|].
  apply (IH (i + 1) H2). lia.
Qed.

Lemma year_checked (leap : bool) : all_from 366 0 (day_ok leap) = true.
Proof. destruct leap; vm_compute; reflexivity. Qed.

Lemma day_ok_at (leap : bool) (n : Z) :
  0 <= n < 366 -> day_ok leap n = true.
Proof. intros H. apply (all_from_spec _ 366 0 (year_checked leap)). lia. Qed.

Lemma day_of_year_range (leap : bool) (n : Z) :
  0 <= n < 366 ->
  1 <= fst (day_of_year leap n) <= 12 /\ 1 <= snd (day_of_year leap n) <= 31.
Proof.
  intros H. pose proof (day_ok_at leap n H) as Hok. unfold day_ok in Hok.
  destruct (day_of_year leap n) as [m d]. simpl.
  repeat (apply andb_true_iff in Hok as [Hok ?]). lia.
Qed.

Lemma day_of_year_next (leap : bool) (n : Z) :
  0 <= n -> n + 1 < year_length leap ->
  packed_day (day_of_year leap n) < packed_day (day_of_year leap (n + 1)).
Proof.
  intros H0 H1.
  assert (Hn : 0 <= n < 366) by (destruct leap; simpl in H1; lia).
  pose proof (day_ok_at leap n Hn) as Hok. unfold day_ok in Hok.
  destruct (day_of_year leap n) as [m d].
  apply andb_true_iff in Hok as [_ Hok]. apply orb_true_iff in Hok as [Hok|Hok]; lia.
Qed.

Lemma day_of_year_mono (leap : bool) (n1 n2 : Z) :
  0 <= n1 -> n1 < n2 -> n2 < year_length leap ->
  packed_day (day_of_year leap n1) < packed_day (day_of_year leap n2).
Proof.
  intros H0 H1 H2.
  replace n2 with (n1 + 1 + Z.of_nat (Z.to_nat (n2 - n1 - 1))) in * by lia.
  induction (Z.to_nat (n2 - n1 - 1)) as [|k IH].
  - rewrite Z.add_0_r in *. apply day_of_year_next; lia.
  - eapply Z.lt_trans; [apply IH; lia|].
    replace (n1 + 1 + Z.of_nat (S k)) with (n1 + 1 + Z.of_nat k + 1) by lia.
    apply day_of_year_next; lia.
Qed.

Lemma is_leap_true (y : Z) :
  _is_leap y = true <-> y mod 4 = 0 /\ (y mod 100 <> 0 \/ y mod 400 = 0).
Proof.
  unfold _is_leap.
  rewrite andb_true_iff, orb_true_iff, negb_true_iff, !Z.eqb_eq, Z.eqb_neq. tauto.
Qed.

Lemma days_before_next_year (y : Z) :
  _days_before_year (y + 1) = _days_before_year y + year_length (_is_leap y).
Proof.
  unfold _days_before_year.
  destruct (_is_leap y) eqn:E; unfold year_length.
  - apply is_leap_true in E. Z.div_mod_to_equations. lia.
  - assert (N : ~ (y mod 4 = 0 /\ (y mod 100 <> 0 \/ y mod 400 = 0))).
    { rewrite <- is_leap_true. congruence. }
    Z.div_mod_to_equations. lia.
Qed.

Lemma days_before_year_mono (y1 y2 : Z) :
  y1 <= y2 -> _days_before_year y1 <= _days_before_year y2.
Proof. unfold _days_before_year. intros H. Z.div_mod_to_equations. lia. Qed.

(** [_ord2ymd] inverts [_ymd2ord]: the day is the [doy]-th of its year. *)
Lemma ord2ymd_day_of_year (o : Z) :
  0 <= o ->
  exists y doy,
    _ord2ymd (o + 1) = (y, fst (day_of_year (_is_leap y) doy), snd (day_of_year (_is_leap y) doy)) /\
    1 <= y /\ 0 <= doy < year_length (_is_leap y) /\
    _days_before_year y + doy = o.
Proof.
  intros Ho. unfold _ord2ymd.
  replace (o + 1 - 1) with o by lia.
  pose proof (Z.div_mod o 146097 ltac:(lia)) as E1.
  pose proof (Z.mod_pos_bound o 146097 ltac:(lia)) as B1.
  set (a := o / 146097) in *. set (r := o mod 146097) in *.
  pose proof (Z.div_mod r 36524 ltac:(lia)) as E2.
  pose proof (Z.mod_pos_bound r 36524 ltac:(lia)) as B2.
  set (b := r / 36524) in *. set (r2 := r mod 36524) in *.
  pose proof (Z.div_mod r2 1461 ltac:(lia)) as E3.
  pose proof (Z.mod_pos_bound r2 1461 ltac:(lia)) as B3.
  set (c := r2 / 1461) in *. set (r3 := r2 mod 1461) in *.
  pose proof (Z.div_mod r3 365 ltac:(lia)) as E4.
  pose proof (Z.mod_pos_bound r3 365 ltac:(lia)) as B4.
  set (e := r3 / 365) in *. set (r4 := r3 mod 365) in *.
  clearbody a r b r2 c r3 e r4.
  assert (Ha : 0 <= a) by lia.
  assert (Hb : 0 <= b <= 4) by lia.
  assert (Hc : 0 <= c <= 24) by lia.
  assert (He : 0 <= e <= 4) by lia.
  destruct ((e =? 4) || (b =? 4)) eqn:Esp.
  - exists (a * 400 + 1 + b * 100 + c * 4 + e - 1), 365.
    assert (L : _is_leap (a * 400 + 1 + b * 100 + c * 4 + e - 1) = true).
    { apply is_leap_true. apply orb_true_iff in Esp.
      rewrite !Z.eqb_eq in Esp. Z.div_mod_to_equations. lia. }
    rewrite L. split; [reflexivity|]. split; [lia|]. split; [simpl; lia|].
    apply orb_true_iff in Esp. rewrite !Z.eqb_eq in Esp.
    unfold _days_before_year. Z.div_mod_to_equations. lia.
  - apply orb_false_iff in Esp as [Ee Eb]. apply Z.eqb_neq in Ee, Eb.
    exists (a * 400 + 1 + b * 100 + c * 4 + e), r4.
    assert (L : ((e =? 3) && (negb (c =? 24) || (b =? 3)))%bool =
                _is_leap (a * 400 + 1 + b * 100 + c * 4 + e)).
    { apply eq_true_iff_eq.
      rewrite is_leap_true, andb_true_iff, orb_true_iff, negb_true_iff, !Z.eqb_eq, Z.eqb_neq.
      split; intros H; Z.div_mod_to_equations; lia. }
    rewrite L. unfold day_of_year at 1 2.
    replace (r4 =? 365) with false by (symmetry; apply Z.eqb_neq; lia).
    destruct (month_and_day _ r4) as [m d]. split; [reflexivity|].
    split; [lia|]. split; [unfold year_length; destruct (_is_leap _); lia|].
    unfold _days_before_year. Z.div_mod_to_equations. lia.
Qed.

Lemma ord2ymd_range (o : Z) :
  0 <= o < 3652059 ->
  let '(y, m, d) := _ord2ymd (o + 1) in
  1 <= y <= 9999 /\ 1 <= m <= 12 /\ 1 <= d <= 31.
Proof.
  intros [H0 H1].
  destruct (ord2ymd_day_of_year o H0) as (y & doy & E & Hy & Hdoy & Hsum).
  rewrite E.
  assert (Hd : 0 <= doy < 366) by (destruct (_is_leap y); simpl in Hdoy; lia).
  pose proof (day_of_year_range (_is_leap y) doy Hd) as [Hm Hday].
  split; [|split; assumption].
  split; [assumption|].
  destruct (Z_le_gt_dec 10000 y) as [Hbig|]; [|lia].
  pose proof (days_before_year_mono 10000 y Hbig) as Hmono.
  change (_days_before_year 10000) with 3652059 in Hmono. lia.
Qed.

Lemma ord2ymd_mono (o1 o2 : Z) :
  0 <= o1 -> o1 < o2 ->
  packed_date (_ord2ymd (o1 + 1)) < packed_date (_ord2ymd (o2 + 1)).
Proof.
  intros H0 H12.
  destruct (ord2ymd_day_of_year o1 H0) as (y1 & n1 & E1 & Hy1 & Hn1 & S1).
  destruct (ord2ymd_day_of_year o2 ltac:(lia)) as (y2 & n2 & E2 & Hy2 & Hn2 & S2).
  rewrite E1, E2. unfold packed_date.
  assert (D1 : 0 <= n1 < 366) by (destruct (_is_leap y1); simpl in Hn1; lia).
  assert (D2 : 0 <= n2 < 366) by (destruct (_is_leap y2); simpl in Hn2; lia).
  pose proof (day_of_year_range (_is_leap y1) n1 D1) as [? ?].
  pose proof (day_of_year_range (_is_leap y2) n2 D2) as [? ?].
  destruct (Z.lt_trichotomy y1 y2) as [Hlt|[Heq|Hgt]].
  - lia.
  - subst y2.
    assert (Hn : n1 < n2) by lia.
    pose proof (day_of_year_mono (_is_leap y1) n1 n2 ltac:(lia) Hn ltac:(lia)) as Hm.
    unfold packed_day in Hm.
    destruct (day_of_year (_is_leap y1) n1), (day_of_year (_is_leap y1) n2).
    simpl in *. lia.
  - exfalso.
    pose proof (days_before_year_mono (y2 + 1) y1 ltac:(lia)) as Hm.
    rewrite days_before_next_year in Hm. lia.
Qed.

(** *** Comparing the strings *)

Lemma str_ltb_cons (c : N) (r1 r2 : pystr) :
  str_ltb (c :: r1) (c :: r2) = str_ltb r1 r2.
Proof. simpl. rewrite N.ltb_irrefl, N.eqb_refl. reflexivity. Qed.

Lemma lex_ltb (p x y r1 r2 : Z) :
  0 <= r1 < p -> 0 <= r2 < p ->
  ((x <? y) || ((x =? y) && (r1 <? r2)))%bool = (x * p + r1 <? y * p + r2).
Proof.
  intros H1 H2.
  destruct (Z.ltb_spec x y), (Z.eqb_spec x y), (Z.ltb_spec r1 r2),
    (Z.ltb_spec (x * p + r1) (y * p + r2)); simpl; try reflexivity; exfalso; nia.
Qed.

Lemma str_ltb_digits (k : nat) :
  forall (x y : Z) (r1 r2 : pystr),
  0 <= x < 10 ^ Z.of_nat k -> 0 <= y < 10 ^ Z.of_nat k ->
  str_ltb (digits k x ++ r1) (digits k y ++ r2) =
  ((x <? y) || ((x =? y) && str_ltb r1 r2))%bool.
Proof.
  induction k as [|k IH]; intros x y r1 r2 Hx Hy.
  - simpl in *. replace x with 0 by lia. replace y with 0 by lia. reflexivity.
  - rewrite Nat2Z.inj_succ, Z.pow_succ_r in Hx, Hy by lia.
    assert (Hp : 0 < 10 ^ Z.of_nat k) by (apply Z.pow_pos_nonneg; lia).
    cbn [digits app str_ltb].
    pose proof (Z.div_mod x (10 ^ Z.of_nat k) ltac:(lia)) as Ex.
    pose proof (Z.mod_pos_bound x (10 ^ Z.of_nat k) Hp) as Bx.
    pose proof (Z.div_mod y (10 ^ Z.of_nat k) ltac:(lia)) as Ey.
    pose proof (Z.mod_pos_bound y (10 ^ Z.of_nat k) Hp) as By.
    rewrite (IH _ _ r1 r2 Bx By).
    set (p := 10 ^ Z.of_nat k) in *.
    set (qx := x / p) in *. set (rx := x mod p) in *.
    set (qy := y / p) in *. set (ry := y mod p) in *.
    clearbody p qx rx qy ry.
    assert (0 <= qx) by nia. assert (0 <= qy) by nia.
    destruct (N.ltb_spec (Z.to_N (48 + qx)) (Z.to_N (48 + qy))),
      (N.eqb_spec (Z.to_N (48 + qx)) (Z.to_N (48 + qy))),
      (Z.ltb_spec rx ry), (Z.eqb_spec rx ry),
      (Z.ltb_spec x y), (Z.eqb_spec x y);
      simpl; try reflexivity; try (exfalso; nia).
Qed.

Lemma str_ltb_fraction (u1 u2 : Z) :
  0 <= u1 < 1000000 -> 0 <= u2 < 1000000 ->
  str_ltb (fraction u1) (fraction u2) = (u1 <? u2).
Proof.
  intros H1 H2. unfold fraction.
  destruct (Z.eqb_spec u1 0) as [->|N1], (Z.eqb_spec u2 0) as [->|N2].
  - reflexivity.
  - simpl. symmetry. apply Z.ltb_lt. lia.
  - simpl. symmetry. apply Z.ltb_ge. lia.
  - rewrite str_ltb_cons.
    rewrite <- (app_nil_r (digits 6 u1)), <- (app_nil_r (digits 6 u2)).
    rewrite str_ltb_digits by (simpl; lia).
    simpl. rewrite andb_false_r, orb_false_r. reflexivity.
Qed.

Lemma isoformat_ordered (a b : Z) :
  0 <= a < max_instant -> 0 <= b < max_instant ->
  str_ltb (isoformat a) (isoformat b) = (a <? b).
Proof.
  unfold max_instant. intros Ha Hb.
  unfold isoformat, isoformat_sep.
  assert (Da : 0 <= a / 86400000000 < 3652059) by (Z.div_mod_to_equations; lia).
  assert (Db : 0 <= b / 86400000000 < 3652059) by (Z.div_mod_to_equations; lia).
  pose proof (ord2ymd_range _ Da) as Ra.
  pose proof (ord2ymd_range _ Db) as Rb.
  assert (Hmono : forall o1 o2, 0 <= o1 -> o1 < o2 ->
            packed_date (_ord2ymd (o1 + 1)) < packed_date (_ord2ymd (o2 + 1)))
    by exact ord2ymd_mono.
  pose proof (Hmono (a / 86400000000) (b / 86400000000) ltac:(lia)) as Mab.
  pose proof (Hmono (b / 86400000000) (a / 86400000000) ltac:(lia)) as Mba.
  assert (Meq : a / 86400000000 = b / 86400000000 ->
                packed_date (_ord2ymd (a / 86400000000 + 1)) =
                packed_date (_ord2ymd (b / 86400000000 + 1)))
    by (intros ->; reflexivity).
  clear Hmono.
  destruct (_ord2ymd (a / 86400000000 + 1)) as [[y1 m1] d1].
  destruct (_ord2ymd (b / 86400000000 + 1)) as [[y2 m2] d2].
  unfold packed_date in *.
  repeat first
    [ rewrite str_ltb_cons
    | rewrite str_ltb_digits by (simpl; first [lia | Z.div_mod_to_equations; lia])
    | rewrite str_ltb_fraction by (Z.div_mod_to_equations; lia) ].
  set (ra := a mod 86400000000) in *. set (rb := b mod 86400000000) in *.
  pose proof (Z.div_mod a 86400000000 ltac:(lia)) as Ea.
  pose proof (Z.div_mod b 86400000000 ltac:(lia)) as Eb.
  pose proof (Z.mod_pos_bound a 86400000000 ltac:(lia)) as Ba.
  pose proof (Z.mod_pos_bound b 86400000000 ltac:(lia)) as Bb.
  fold ra in Ea, Ba. fold rb in Eb, Bb.
  set (na := a / 86400000000) in *. set (nb := b / 86400000000) in *.
  clearbody ra rb na nb.
  rewrite (lex_ltb 1000000) by (Z.div_mod_to_equations; lia).
  rewrite (lex_ltb 60000000) by (Z.div_mod_to_equations; lia).
  rewrite (lex_ltb 3600000000) by (Z.div_mod_to_equations; lia).
  replace (ra / 1000000 / 60 / 60 * 3600000000 +
           (ra / 1000000 / 60 mod 60 * 60000000 +
            (ra / 1000000 mod 60 * 1000000 + ra mod 1000000))) with ra
    by (Z.div_mod_to_equations; lia).
  replace (rb / 1000000 / 60 / 60 * 3600000000 +
           (rb / 1000000 / 60 mod 60 * 60000000 +
            (rb / 1000000 mod 60 * 1000000 + rb mod 1000000))) with rb
    by (Z.div_mod_to_equations; lia).
  rewrite (lex_ltb 86400000000) by lia.
  rewrite (lex_ltb (32 * 86400000000)) by lia.
  rewrite (lex_ltb (512 * 86400000000)) by lia.
  destruct (Z.ltb_spec a b), (Z.ltb_spec (y1 * (512 * 86400000000) +
      (m1 * (32 * 86400000000) + (d1 * 86400000000 + ra)))
     (y2 * (512 * 86400000000) + (m2 * (32 * 86400000000) + (d2 * 86400000000 + rb))));
    try reflexivity; exfalso.
  - destruct (Z.lt_trichotomy na nb) as [L|[L|L]]; [specialize (Mab L)|specialize (Meq L)|]; lia.
  - destruct (Z.lt_trichotomy na nb) as [L|[L|L]]; [|specialize (Meq L)|specialize (Mba L)]; lia.
Qed.

Local Close Scope Z_scope.

(** ** Upserts *)

Lemma upsert_document_run name key c l d v w :
  heap w !! l = Some d -> dict_get d key = Some v ->
  dict_get d (py "_id") = None -> operator_first d = false ->
  exists w',
    upsert_document name key c l w =
      (Ok (fst (upsert_effect (py "_id" :: default [] (unique_indexes (mongo w) !! name))
                  (stored w name) (oid_seq (mongo w)) key v d c)), w') /\
    stored w' name =
      snd (upsert_effect (py "_id" :: default [] (unique_indexes (mongo w) !! name))
             (stored w name) (oid_seq (mongo w)) key v d c) /\
    heap w' = heap w /\
    unique_indexes (mongo w') = unique_indexes (mongo w).
Proof.
  intros Hl Hk Hid Hop.
  unfold upsert_document, try_except.
  rewrite (bind_run _ _ _ _ _ (contains_run _ _ _ _ Hl)).
  unfold dict_has at 1. rewrite Hk.
  rewrite (bind_run _ _ _ _ _ (getitem_run _ _ _ _ _ Hl Hk)).
  unfold bind at 1. unfold replace_one.
  unfold bind at 1. unfold deref at 1. rewrite Hl.
  rewrite Hop. unfold bind at 1. unfold ret at 1.
  unfold bind at 1. unfold get_collection at 1. fold (stored w name).
  unfold bind at 1. unfold unique_fields at 1.
  unfold upsert_effect. unfold dict_has. rewrite Hid, (dict_del_absent _ _ Hid).
  cbn [andb].
  destruct (find_first _ (stored w name)) as [i|].
  - case_bool_decide as Heq.
    + unfold ret. cbn [upserted_id modified_count Nat.ltb Nat.leb].
      eexists. split; [reflexivity|]. auto.
    + destruct (clashes _ (delete i (stored w name)) _) eqn:Ec.
      * unfold raise, bind, logger, ret. eexists. split; [reflexivity|]. auto.
      * unfold bind at 1. unfold put_collection. unfold ret.
        cbn [upserted_id modified_count Nat.ltb Nat.leb].
        eexists. split; [reflexivity|].
        split; [|auto]. unfold stored at 1. world_simpl. rewrite lookup_insert_eq. reflexivity.
  - rewrite (bind_run _ _ _ _ _ (new_oid_run _ _)).
    destruct (clashes _ (stored w name) _) eqn:Ec.
    + erewrite bind_raise by (apply server_insert_clash; world_simpl; exact Ec).
      unfold bind, logger, ret. eexists. split; [reflexivity|]. auto.
    + erewrite bind_run by (apply server_insert_run; world_simpl; exact Ec).
      unfold ret. cbn [upserted_id truthy].
      eexists. split; [reflexivity|].
      split; [|auto]. unfold stored at 1. world_simpl. rewrite lookup_insert_eq. reflexivity.
Qed.

Lemma total_log_data_operation name op n i u : total (_log_data_operation name op n i u).
Proof. unfold _log_data_operation. apply total_try. intros e. apply total_logger. Qed.

Lemma db_writes_at_log_data_operation name op n i u :
  db_writes_at (py "audit_logs") (_log_data_operation name op n i u).
Proof. unfold _log_data_operation. db. Qed.

Lemma clashes_nil fields d : clashes fields [] d = false.
Proof. unfold clashes. induction fields; simpl; auto. Qed.

(** Three records under two key values into an empty collection without
    unique index: two documents, two inserts, and one update unless the
    third record equals the first. *)
Lemma store_three_records name key l1 l2 l3 (d1 d2 d3 : dict) v1 v2 w :
  key <> [] -> name <> py "audit_logs" ->
  unique_indexes (mongo w) !! name = None -> stored w name = [] ->
  heap w !! l1 = Some d1 -> heap w !! l2 = Some d2 -> heap w !! l3 = Some d3 ->
  dict_get d1 key = Some v1 -> dict_get d2 key = Some v2 -> dict_get d3 key = Some v1 ->
  v1 <> v2 ->
  Forall (fun d => dict_get d (py "_id") = None /\ operator_first d = false) [d1; d2; d3] ->
  exists c w',
    store_data name [l1; l2; l3] (Some key) w = (Ok c, w') /\
    inserted c = 2%nat /\
    updated c = (if bool_decide (d3 = d1) then 0 else 1)%nat /\
    failed c = 0%nat /\
    length (stored w' name) = 2%nat.
Proof.
  intros Hkey Hname Hu Hempty H1 H2 H3 K1 K2 K3 Hv Hwf.
  apply Forall_cons in Hwf as [[I1 O1] Hwf]. apply Forall_cons in Hwf as [[I2 O2] Hwf].
  apply Forall_cons in Hwf as [[I3 O3] _].
  assert (Hk : key <> py "_id") by (intros ->; congruence).
  (* first record *)
  destruct (upsert_document_run name key (Counts 0 0 0) l1 d1 v1 w H1 K1 I1 O1)
    as (w1 & E1 & S1 & Hh1 & Hi1).
  rewrite Hu, Hempty in E1, S1. unfold upsert_effect in E1, S1.
  cbn [find_first default] in E1, S1. rewrite clashes_nil in E1, S1.
  cbn [fst snd app next_oid fold_right inserted updated failed] in E1, S1.
  set (doc1 := (py "_id", VOid (oid_seq (mongo w))) :: d1) in *.
  assert (F1 : doc_field doc1 key = v1).
  { unfold doc_field, doc1. cbn [dict_get]. rewrite bool_decide_eq_false_2 by congruence.
    rewrite K1. reflexivity. }
  (* second record *)
  rewrite <- Hh1 in H2, H3.
  destruct (upsert_document_run name key (Counts 1 0 0) l2 d2 v2 w1 H2 K2 I2 O2)
    as (w2 & E2 & S2 & Hh2 & Hi2).
  rewrite Hi1, Hu, S1 in E2, S2. unfold upsert_effect in E2, S2.
  cbn [find_first default] in E2, S2.
  rewrite F1, bool_decide_eq_false_2 in E2, S2 by exact Hv.
  cbn [option_map] in E2, S2.
  set (oid2 := next_oid [doc1] (oid_seq (mongo w1))) in *.
  assert (Hoid : oid_seq (mongo w) < oid2).
  { apply (next_oid_ge [doc1] _ doc1); [left | reflexivity]. }
  set (doc2 := (py "_id", VOid oid2) :: d2) in *.
  assert (C2 : clashes [py "_id"] [doc1] doc2 = false).
  { unfold clashes. cbn [existsb]. rewrite !orb_false_r.
    apply bool_decide_eq_false_2. unfold doc_field, doc1, doc2. cbn [dict_get].
    rewrite !bool_decide_eq_true_2 by reflexivity. cbn [default]. intros Heq.
    inversion Heq. lia. }
  rewrite C2 in E2, S2. cbn [fst snd app inserted updated failed] in E2, S2.
  assert (F2 : doc_field doc2 key = v2).
  { unfold doc_field, doc2. cbn [dict_get]. rewrite bool_decide_eq_false_2 by congruence.
    rewrite K2. reflexivity. }
  (* third record *)
  rewrite <- Hh2 in H3.
  destruct (upsert_document_run name key (Counts 2 0 0) l3 d3 v1 w2 H3 K3 I3 O3)
    as (w3 & E3 & S3 & Hh3 & Hi3).
  rewrite Hi2, Hi1, Hu, S2 in E3, S3. unfold upsert_effect in E3, S3.
  cbn [find_first default] in E3, S3.
  rewrite F1, bool_decide_eq_true_2 in E3, S3 by reflexivity.
  cbn [lookup list_lookup default] in E3, S3. unfold id in E3, S3.
  cbn [inserted updated failed] in E3, S3.
  change (doc_field doc1 (py "_id")) with (VOid (oid_seq (mongo w))) in E3, S3.
  assert (C3 : clashes [py "_id"] (delete 0%nat [doc1; doc2])
                 ((py "_id", VOid (oid_seq (mongo w))) :: d3) = false).
  { unfold clashes. cbn [delete list_delete existsb]. rewrite !orb_false_r.
    apply bool_decide_eq_false_2. unfold doc_field, doc2. cbn [dict_get].
    rewrite !bool_decide_eq_true_2 by reflexivity. cbn [default]. intros Heq.
    inversion Heq. lia. }
  rewrite C3 in E3, S3.
  (* the loop, the audit entry, the summary *)
  assert (Hd : ((py "_id", VOid (oid_seq (mongo w))) :: d3 = doc1) <-> d3 = d1).
  { unfold doc1. split; [intros H; inversion H; reflexivity | intros ->; reflexivity]. }
  set (r3 := if bool_decide ((py "_id", VOid (oid_seq (mongo w))) :: d3 = doc1)
             then (Counts 2 0 0, [doc1; doc2])
             else (Counts 2 1 0, <[0%nat := (py "_id", VOid (oid_seq (mongo w))) :: d3]>
                                   [doc1; doc2])) in *.
  destruct (total_log_data_operation name (py "store") 3 (inserted (fst r3))
              (updated (fst r3)) w3) as ([] & w4 & E4).
  destruct (db_writes_at_log_data_operation _ _ _ _ _ _ _ _ E4) as [_ S4].
  do 2 eexists. split.
  - unfold store_data. rewrite bool_decide_eq_false_2 by discriminate.
    unfold key_given. rewrite bool_decide_eq_false_2 by exact Hkey. cbn [negb default].
    unfold try_except. unfold bind at 1. cbn [fold_each].
    rewrite (bind_run _ _ _ _ _ E1), (bind_run _ _ _ _ _ E2), (bind_run _ _ _ _ _ E3).
    unfold ret at 1. cbn [length].
    rewrite (bind_run _ _ _ _ _ E4). unfold bind, logger, ret. reflexivity.
  - unfold stored at 1. world_simpl. fold (stored w4 name).
    rewrite (S4 name Hname), S3. unfold r3.
    case_bool_decide as Hb; [rewrite bool_decide_eq_true_2 by tauto
                            | rewrite bool_decide_eq_false_2 by tauto]; auto.
Qed.


(** ** Retention *)

Lemma retained_all bound docs : expired bound docs = [] -> retained bound docs = docs.
Proof.
  unfold expired, retained. induction docs as [|d docs IH]; simpl; [reflexivity|].
  destruct (collected_before bound d); simpl; [discriminate|].
  intros H. rewrite IH by exact H. reflexivity.
Qed.

Lemma delete_many_run name bound w :
  exists w',
    delete_many name bound w = (Ok (length (expired bound (stored w name))), w') /\
    stored w' name = retained bound (stored w name) /\
    (forall m, m <> name -> stored w' m = stored w m) /\
    unique_indexes (mongo w') = unique_indexes (mongo w) /\
    ticks w' = ticks w.
Proof.
  unfold delete_many, bind, get_collection. fold (stored w name).
  fold (expired bound (stored w name)). fold (retained bound (stored w name)).
  case_bool_decide as He.
  - exists w. unfold ret. split; [reflexivity|].
    split; [symmetry; apply retained_all, He|]. auto.
  - eexists. unfold put_collection, ret. split; [reflexivity|].
    split; [unfold stored at 1; world_simpl; rewrite lookup_insert_eq; reflexivity|].
    split; [|auto]. intros m Hm. unfold stored at 1. world_simpl.
    rewrite lookup_insert_ne by congruence. reflexivity.
Qed.

Lemma stored_set_logs l w m : stored (set_logs l w) m = stored w m.
Proof. reflexivity. Qed.

(** One turn of the cleanup loop, for a collection other than [audit_logs]. *)
Lemma clean_collection_run bound total_deleted name w :
  name <> py "audit_logs" ->
  unique_indexes (mongo w) !! py "audit_logs" = None ->
  let n := length (expired bound (stored w name)) in
  exists w' entries,
    clean_collection bound total_deleted name w = (Ok (total_deleted + n)%nat, w') /\
    stored w' name = retained bound (stored w name) /\
    stored w' (py "audit_logs") = stored w (py "audit_logs") ++ entries /\
    (if (0 <? n)%nat
     then exists oid now, entries = [audit_entry oid now (py "cleanup") name n 0 0]
     else entries = []) /\
    (forall m, m <> name -> m <> py "audit_logs" -> stored w' m = stored w m) /\
    unique_indexes (mongo w') = unique_indexes (mongo w).
Proof.
  intros Hn Hu n.
  destruct (delete_many_run name bound w) as (w1 & E1 & S1 & O1 & I1 & _).
  fold n in E1. unfold clean_collection, try_except at 1.
  rewrite (bind_run _ _ _ _ _ E1). unfold try_except.
  destruct (0 <? n)%nat eqn:En.
  - unfold bind at 1. unfold bind at 1. unfold logger at 1.
    match goal with
    | |- context [_log_data_operation _ _ _ _ _ ?w2] =>
        destruct (log_data_operation_run name (py "cleanup") n 0 0 w2)
          as (oid & w3 & E3 & A3 & O3 & I3 & _); [world_simpl; rewrite I1; exact Hu|]
    end.
    rewrite E3. unfold ret. exists w3. eexists. split; [reflexivity|].
    rewrite stored_set_logs in A3.
    split; [rewrite (O3 name Hn), stored_set_logs; exact S1|].
    split; [rewrite A3, (O1 _ (not_eq_sym Hn)); reflexivity|].
    split; [eauto|].
    split; [intros m Hm Hm'; rewrite (O3 m Hm'), stored_set_logs; apply O1, Hm|].
    rewrite I3. exact I1.
  - unfold bind, ret. exists w1, []. split; [reflexivity|].
    split; [exact S1|]. rewrite app_nil_r.
    split; [apply O1; congruence|]. split; [reflexivity|].
    split; [intros m Hm _; apply O1, Hm | exact I1].
Qed.

Lemma clean_loop_run bound (D : pystr -> list dict) names : forall total_deleted w,
  NoDup names -> py "audit_logs" ∉ names ->
  unique_indexes (mongo w) !! py "audit_logs" = None ->
  (forall n, n ∈ names -> stored w n = D n) ->
  exists w' entries,
    fold_each names (clean_collection bound) total_deleted w =
      (Ok (total_deleted + sum_list (map (fun n => length (expired bound (D n))) names))%nat, w') /\
    (forall n, n ∈ names -> stored w' n = retained bound (D n)) /\
    (forall n, n ∉ names -> n <> py "audit_logs" -> stored w' n = stored w n) /\
    stored w' (py "audit_logs") = stored w (py "audit_logs") ++ entries /\
    Forall2 (fun e n => exists oid now,
               e = audit_entry oid now (py "cleanup") n (length (expired bound (D n))) 0 0)
            entries
            (List.filter (fun n => (0 <? length (expired bound (D n)))%nat) names) /\
    unique_indexes (mongo w') = unique_indexes (mongo w).
Proof.
  induction names as [|n0 names IH]; intros total_deleted w Hnd Ha Hu HD.
  - exists w, []. simpl. unfold ret. rewrite Nat.add_0_r, app_nil_r.
    split; [reflexivity|]. split; [intros n Hn; apply elem_of_nil in Hn; contradiction|].
    split; [auto|]. split; [reflexivity|]. split; [constructor | reflexivity].
  - apply NoDup_cons in Hnd as [Hn0 Hnd]. apply not_elem_of_cons in Ha as [Ha0 Ha].
    destruct (clean_collection_run bound total_deleted n0 w (not_eq_sym Ha0) Hu)
      as (w1 & e1 & E1 & S1 & A1 & K1 & O1 & I1).
    rewrite (HD n0) in E1, S1, K1 by left.
    destruct (IH (total_deleted + length (expired bound (D n0)))%nat w1 Hnd Ha)
      as (w2 & e2 & E2 & S2 & O2 & A2 & F2 & I2).
    { rewrite I1. exact Hu. }
    { intros n Hn. rewrite O1; [apply HD; right; exact Hn | | ].
      - intros ->. contradiction.
      - intros ->. contradiction. }
    exists w2, (e1 ++ e2). cbn [fold_each]. rewrite (bind_run _ _ _ _ _ E1), E2.
    split; [f_equal; f_equal; symmetry; apply Nat.add_assoc|].
    split.
    { intros n Hn. apply elem_of_cons in Hn as [->|Hn]; [|apply S2, Hn].
      rewrite O2 by first [assumption | congruence]. exact S1. }
    split.
    { intros n Hn Hna. apply not_elem_of_cons in Hn as [Hn Hn'].
      rewrite O2 by first [assumption | congruence]. apply O1; first [assumption | congruence]. }
    split; [rewrite A2, A1, app_assoc; reflexivity|].
    split; [|congruence].
    cbn [List.filter]. destruct (0 <? length (expired bound (D n0)))%nat.
    + destruct K1 as (oid & now & ->). constructor; [eauto | exact F2].
    + subst e1. exact F2.
Qed.

Lemma collections_to_clean_facts :
  NoDup collections_to_clean /\ py "audit_logs" ∉ collections_to_clean.
Proof. split; by_compute. Qed.


(** * Further properties of [PrivacyUtils] *)

Lemma split_once_inv (s local domain : pystr) :
  split_once 64 s = Some (local, domain) -> s = local ++ 64 :: domain /\ 64 ∉ local.
Proof.
  revert local. induction s as [|c s IH]; intros local E; simpl in E; [discriminate|].
  destruct (c =? 64) eqn:Ec.
  - apply N.eqb_eq in Ec. inversion E; subst. split; [reflexivity | apply not_elem_of_nil].
  - apply N.eqb_neq in Ec.
    destruct (split_once 64 s) as [[a b]|]; [|discriminate].
    inversion E; subst. destruct (IH a eq_refl) as [-> Ha].
    split; [reflexivity|]. apply not_elem_of_cons. split; [congruence | exact Ha].
Qed.

Lemma last_app_singleton {A} (l : list A) (x d : A) : List.last (l ++ [x]) d = x.
Proof. induction l as [|y [|z l] IH]; simpl in *; auto. Qed.

Lemma last_elem_of (l : pystr) (d : N) : l <> [] -> List.last l d ∈ l.
Proof.
  induction l as [|x [|y l] IH]; intros H; [congruence | left |].
  right. apply IH. discriminate.
Qed.

(** X1. [_mask_email] returns a string as long as the one it is given, so
    the mask shows the length of the local part, and masking a masked
    address changes nothing. *)
Theorem mask_email_length_idempotent (email : pystr) :
  length (_mask_email email) = length email /\
  _mask_email (_mask_email email) = _mask_email email.
Proof.
  unfold _mask_email at 1 3 4.
  destruct (split_once 64 email) as [[local domain]|] eqn:E.
  - destruct (split_once_inv _ _ _ E) as [-> Hl].
    set (masked := if (2 <? length local)%nat
                   then firstn 1 local ++ repeat 42 (length local - 2) ++ [List.last local 0]
                   else repeat 42 (length local)).
    assert (Hlen : length masked = length local).
    { unfold masked. destruct (2 <? length local)%nat eqn:E2.
      - apply Nat.ltb_lt in E2.
        rewrite !length_app, length_firstn, repeat_length. cbn [length]. lia.
      - apply repeat_length. }
    assert (Hat : 64 ∉ masked).
    { unfold masked. destruct (2 <? length local)%nat eqn:E2.
      - apply Nat.ltb_lt in E2. intros Hin.
        apply elem_of_app in Hin as [Hin|Hin].
        + apply Hl. destruct local; [inversion Hin|]. simpl in Hin.
          apply list_elem_of_singleton in Hin. subst. left.
        + apply elem_of_app in Hin as [Hin|Hin].
          * apply list_elem_of_In, repeat_spec in Hin. discriminate.
          * apply list_elem_of_singleton in Hin. apply Hl. rewrite Hin.
            apply last_elem_of. intros ->. simpl in E2. lia.
      - intros Hin. apply list_elem_of_In, repeat_spec in Hin. discriminate. }
    split.
    + rewrite !length_app. simpl. lia.
    + change (masked ++ [64] ++ domain) with (masked ++ 64 :: domain).
      unfold _mask_email. rewrite (split_once_found _ _ Hat). f_equal.
      rewrite Hlen. unfold masked.
      destruct (2 <? length local)%nat eqn:E2; [|reflexivity].
      apply Nat.ltb_lt in E2.
      destruct local as [|c local]; [simpl in E2; lia|].
      cbn [firstn app].
      set (x := List.last (c :: local) 0). set (stars := repeat 42 (length (c :: local) - 2)).
      change (take 0 (take 0 local ++ stars ++ [x])) with (@nil N).
      change (take 0 local) with (@nil N). cbn [app].
      change (c :: stars ++ [x]) with ((c :: stars) ++ [x]) at 1.
      rewrite last_app_singleton. reflexivity.
  - split; [reflexivity|]. unfold _mask_email. rewrite E. reflexivity.
Qed.

(** X2. What [_hash_field] returns is the SHA-256 digest of the UTF-8
    encoding, and what [_encrypt_field] returns is the base64 text of a
    Fernet token of it. The fallbacks never supply a value: the only step
    that can fail is the encoding, which the fallback repeats, so a value
    without encoding raises [UnicodeEncodeError] from both, after one log
    line for each attempt that was made. *)
Theorem hash_and_encrypt_never_fall_back (v : pystr) (w : world) :
  match encode v with
  | Some b =>
      _hash_field v w = (Ok (SHA256.hexdigest b), w) /\
      exists iv t w',
        _encrypt_field v w = (Ok (b64encode (fernet_encrypt (cipher self) iv t b)), w') /\
        logs w' = logs w
  | None =>
      fst (_hash_field v w) = Raise UnicodeEncodeError /\
      fst (_encrypt_field v w) = Raise UnicodeEncodeError /\
      length (logs (snd (_hash_field v w))) = S (length (logs w)) /\
      length (logs (snd (_encrypt_field v w))) = S (S (length (logs w)))
  end.
Proof.
  rewrite hash_field_run, encrypt_field_run.
  destruct (encode v) as [b|].
  - split; [reflexivity|]. do 3 eexists. split; reflexivity.
  - cbn [fst snd logs set_logs]. rewrite !length_app. simpl.
    repeat split; lia.
Qed.

(** ** Attendance and library records *)

Lemma drop_fields_run c fs : forall dc w,
  heap w !! c = Some dc ->
  for_each fs (fun field =>
    let* present := contains c field in
    if present then delitem c field else ret tt) w =
    (Ok tt, set_heap (<[c := fold_left dict_del fs dc]> (heap w)) w).
Proof.
  induction fs as [|f fs IH]; intros dc w Hc; simpl.
  - unfold ret. rewrite set_heap_id by exact Hc. reflexivity.
  - assert (Hb : (let* present := contains c f in
                  if present then delitem c f else ret tt) w =
                 (Ok tt, set_heap (<[c := dict_del dc f]> (heap w)) w)).
    { rewrite (bind_run _ _ _ _ _ (contains_run _ _ _ _ Hc)).
      destruct (dict_has dc f) eqn:Hf; [apply delitem_run; assumption|].
      unfold ret. rewrite dict_del_absent, set_heap_id; [reflexivity | exact Hc |].
      unfold dict_has in Hf. destruct (dict_get dc f); [discriminate | reflexivity]. }
    rewrite (bind_run _ _ _ _ _ Hb).
    rewrite (IH (dict_del dc f)) by (simpl; apply lookup_insert_eq).
    simpl. rewrite insert_insert_eq. reflexivity.
Qed.

Lemma dict_get_drop_fields fs : forall (d : dict) k,
  dict_get (fold_left dict_del fs d) k = if bool_decide (k ∈ fs) then None else dict_get d k.
Proof.
  induction fs as [|f fs IH]; intros d k; cbn [fold_left].
  - case_bool_decide as H; [inversion H | reflexivity].
  - rewrite IH, dict_get_del.
    case_bool_decide as E1.
    + rewrite bool_decide_eq_true_2 by (right; exact E1). reflexivity.
    + case_bool_decide as E2.
      * subst f. rewrite bool_decide_eq_true_2 by left. reflexivity.
      * rewrite bool_decide_eq_false_2; [reflexivity|].
        intros H. apply elem_of_cons in H as [H|H]; congruence.
Qed.

(** A record that is an object of the heap goes through
    [anonymize_usage_record] with one new object and nothing else written;
    the call raises exactly when the identifier has no encoding. *)
Lemma anonymize_usage_record_spec s d w r w' :
  heap w !! s = Some d -> is_dict d ->
  anonymize_usage_record s w = (r, w') ->
  exists dc, heap w' = <[fresh (dom (heap w)) := dc]> (heap w) /\
    match r with
    | Ok c => c = fresh (dom (heap w)) /\ usage_record d dc
    | Raise e => e = UnicodeEncodeError /\
        exists sid, dict_get d (py "student_id") = Some sid /\ encode (py_str sid) = None
    end.
Proof.
  intros Hs Hd E. unfold anonymize_usage_record in E.
  set (c := fresh (dom (heap w))) in *.
  assert (Hsc : s <> c).
  { intros ->. unfold c in Hs. rewrite fresh_heap_None in Hs. discriminate. }
  rewrite (bind_run _ _ _ _ _ (copy_run _ _ _ Hs)) in E. fold c in E.
  erewrite bind_run in E
    by (apply anonymize_record_run; [simpl; apply lookup_insert_eq | exact Hd]).
  rewrite heap_set_heap, set_heap_twice, insert_insert_eq in E.
  set (w1 := set_heap (<[c := mask_dict d]> (heap w)) w) in *.
  assert (H1s : heap w1 !! s = Some d)
    by (simpl; rewrite lookup_insert_ne by congruence; exact Hs).
  assert (H1c : heap w1 !! c = Some (mask_dict d)) by (simpl; apply lookup_insert_eq).
  rewrite (bind_run _ _ _ _ _ (contains_run _ _ _ _ H1s)) in E.
  unfold bind at 1 in E. unfold dict_has in E. unfold usage_record.
  destruct (dict_get d (py "student_id")) as [sid|] eqn:Hsid.
  - unfold bind at 1 in E. rewrite (getitem_run _ _ _ _ _ H1s Hsid) in E.
    unfold bind at 1 in E. rewrite generate_anonymous_id_run in E.
    destruct (encode (py_str sid)) as [b|] eqn:Eb.
    + unfold bind at 1 in E. rewrite (setitem_run _ _ _ _ _ H1c) in E.
      erewrite delitem_run in E; cycle 1.
      { simpl. apply lookup_insert_eq. }
      { unfold dict_has. rewrite dict_get_set_ne by discriminate.
        rewrite dict_get_mask_dict, Hsid. reflexivity. }
      unfold bind at 1 in E. erewrite drop_fields_run in E
        by (simpl; apply lookup_insert_eq).
      unfold bind at 1 in E. unfold utcnow in E.
      erewrite bind_run in E by (apply setitem_run; simpl; apply lookup_insert_eq).
      unfold ret in E. simpl in E. inversion E; subst r w'. simpl.
      eexists. split; [rewrite !insert_insert_eq; reflexivity|].
      split; [reflexivity|].
      do 2 eexists. split; [|reflexivity].
      eexists. split; [|reflexivity]. exists b. split; [exact Eb | reflexivity].
    + inversion E; subst r w'. simpl. exists (mask_dict d).
      split; [reflexivity|]. split; [reflexivity|]. exists sid. split; [reflexivity | exact Eb].
  - unfold ret at 1 in E.
    unfold bind at 1 in E. erewrite drop_fields_run in E by exact H1c.
    unfold bind at 1 in E. unfold utcnow in E.
    erewrite bind_run in E by (apply setitem_run; simpl; apply lookup_insert_eq).
    unfold ret in E. simpl in E. inversion E; subst r w'. simpl.
    eexists. split; [rewrite !insert_insert_eq; reflexivity|].
    split; [reflexivity|].
    do 2 eexists. split; reflexivity.
Qed.

Lemma collect_usage_spec records : forall w outs w',
  records_in w records ->
  collect records anonymize_usage_record w = (Ok outs, w') ->
  Forall2 (fun s o => forall d, heap w !! s = Some d ->
             exists d', heap w' !! o = Some d' /\ usage_record d d')
          records outs.
Proof.
  induction records as [|s records IH]; intros w outs w' Hin E; simpl in E.
  - inversion E; subst. constructor.
  - apply Forall_cons in Hin as [(d & Hs & Hd) Hin].
    unfold bind at 1 in E.
    destruct (anonymize_usage_record s w) as [[c|e] w1] eqn:E1; [|discriminate].
    destruct (anonymize_usage_record_spec _ _ _ _ _ Hs Hd E1) as (dc & H1 & -> & Hrec).
    assert (Hext1 : extends w w1) by (apply (extends_fresh _ _ dc), H1).
    unfold bind at 1 in E.
    destruct (collect records anonymize_usage_record w1) as [[ys|e] w2] eqn:E2; [|discriminate].
    inversion E; subst outs w2.
    pose proof (grows_collect records anonymize_usage_record
                  grows_anonymize_usage_record w1) as Hext2.
    rewrite E2 in Hext2. simpl in Hext2.
    constructor.
    + intros d0 Hd0. rewrite Hs in Hd0. inversion Hd0; subst d0.
      exists dc. split; [|exact Hrec].
      apply Hext2. rewrite H1. apply lookup_insert_eq.
    + specialize (IH w1 ys w' (records_in_extends _ _ _ Hext1 Hin) E2).
      eapply Forall2_impl; [exact IH|].
      intros s' o' H d' Hd'. apply H, Hext1, Hd'.
Qed.

Lemma usage_data_Ok (text : nat -> pystr) (fail : pystr) records w outs w' :
  try_except
    (let* anonymized_records := collect records anonymize_usage_record in
     logger INFO (text (length anonymized_records)) None ;;;
     ret anonymized_records)
    (fun e => logger ERROR fail (Some e) ;;; raise e) w = (Ok outs, w') ->
  exists w1, collect records anonymize_usage_record w = (Ok outs, w1) /\ heap w' = heap w1.
Proof.
  unfold try_except, bind, logger, ret, raise.
  destruct (collect records anonymize_usage_record w) as [[ys|e] w1]; [|discriminate].
  intros E. inversion E; subst. exists w1. split; reflexivity.
Qed.

Lemma usage_record_lookups d d' :
  usage_record d d' ->
  dict_get d' (py "student_id") = None /\
  (forall f, f ∈ pii_fields -> dict_get d' f = None) /\
  match dict_get d (py "student_id") with
  | Some sid => exists a, pseudonym_of sid a /\
                  dict_get d' (py "anonymous_id") = Some (VStr a)
  | None => dict_get d' (py "anonymous_id") = mask_value <$> dict_get d (py "anonymous_id")
  end /\
  (exists t, dict_get d' (py "anonymized_at") = Some (VStr (isoformat t))) /\
  (forall k, k ∉ pii_fields -> k <> py "student_id" -> k <> py "anonymous_id" ->
     k <> py "anonymized_at" -> dict_get d' k = mask_value <$> dict_get d k).
Proof.
  intros (d1 & t & H1 & ->).
  assert (Hpii : forall f, f ∈ pii_fields ->
            dict_get (dict_set (fold_left dict_del pii_fields d1) (py "anonymized_at")
                        (VStr (isoformat t))) f = None).
  { intros f Hf. rewrite dict_get_set_ne by (intros <-; revert Hf; by_compute).
    rewrite dict_get_drop_fields, bool_decide_eq_true_2 by exact Hf. reflexivity. }
  assert (Hplain : forall k, k ∉ pii_fields -> k <> py "anonymized_at" ->
            dict_get (dict_set (fold_left dict_del pii_fields d1) (py "anonymized_at")
                        (VStr (isoformat t))) k = dict_get d1 k).
  { intros k Hk Hk'. rewrite dict_get_set_ne by congruence.
    rewrite dict_get_drop_fields, bool_decide_eq_false_2 by exact Hk. reflexivity. }
  assert (Hsid : py "student_id" ∉ pii_fields) by by_compute.
  assert (Han : py "anonymous_id" ∉ pii_fields) by by_compute.
  split; [|split; [exact Hpii|split; [|split]]].
  - rewrite Hplain by first [exact Hsid | discriminate].
    destruct (dict_get d (py "student_id")) as [sid|] eqn:E.
    + destruct H1 as (a & _ & ->). rewrite dict_get_del, bool_decide_eq_true_2; reflexivity.
    + subst d1. rewrite dict_get_mask_dict, E. reflexivity.
  - rewrite Hplain by first [exact Han | discriminate].
    destruct (dict_get d (py "student_id")) as [sid|].
    + destruct H1 as (a & Ha & ->). exists a. split; [exact Ha|].
      rewrite dict_get_del, bool_decide_eq_false_2 by discriminate.
      rewrite dict_get_set, bool_decide_eq_true_2; reflexivity.
    + subst d1. apply dict_get_mask_dict.
  - exists t. rewrite dict_get_set, bool_decide_eq_true_2; reflexivity.
  - intros k Hk Hk1 Hk2 Hk3. rewrite Hplain by assumption.
    destruct (dict_get d (py "student_id")) as [sid|].
    + destruct H1 as (a & _ & ->).
      rewrite dict_get_del, bool_decide_eq_false_2 by congruence.
      rewrite dict_get_set_ne by congruence. apply dict_get_mask_dict.
    + subst d1. apply dict_get_mask_dict.
Qed.

(** X3. A record that [anonymize_attendance_data] or
    [anonymize_library_data] returns has no [student_id] and none of the PII
    fields, and no derived field stands in for them; it carries the
    pseudonym of the identifier under [anonymous_id] when the input record
    had a [student_id], the time under [anonymized_at], and every other
    field of the input with its value as the free-text masks leave it. *)
Theorem anonymize_usage_data_shape records w outs w' :
  anonymization_enabled self = true ->
  records_in w records ->
  anonymize_attendance_data records w = (Ok outs, w') \/
  anonymize_library_data records w = (Ok outs, w') ->
  Forall2 (fun s o => forall d, heap w !! s = Some d ->
     exists d', heap w' !! o = Some d' /\
       dict_get d' (py "student_id") = None /\
       (forall f, f ∈ pii_fields -> dict_get d' f = None) /\
       match dict_get d (py "student_id") with
       | Some sid => exists a, pseudonym_of sid a /\
                       dict_get d' (py "anonymous_id") = Some (VStr a)
       | None => dict_get d' (py "anonymous_id") =
                   mask_value <$> dict_get d (py "anonymous_id")
       end /\
       (exists t, dict_get d' (py "anonymized_at") = Some (VStr (isoformat t))) /\
       (forall k, k ∉ pii_fields -> k <> py "student_id" -> k <> py "anonymous_id" ->
          k <> py "anonymized_at" -> dict_get d' k = mask_value <$> dict_get d k))
    records outs.
Proof.
  intros Hen Hin E.
  assert (Hrun : exists w1, collect records anonymize_usage_record w = (Ok outs, w1) /\
                            heap w' = heap w1).
  { destruct E as [E|E];
      [unfold anonymize_attendance_data in E | unfold anonymize_library_data in E];
      rewrite Hen in E; cbn [negb] in E; cbv iota in E.
    - exact (usage_data_Ok
               (fun n => py "Anonymized " ++ str_of_nat n ++ py " attendance records")
               _ _ _ _ _ E).
    - exact (usage_data_Ok
               (fun n => py "Anonymized " ++ str_of_nat n ++ py " library records")
               _ _ _ _ _ E). }
  destruct Hrun as (w1 & E1 & Hh).
  pose proof (collect_usage_spec _ _ _ _ Hin E1) as F.
  eapply Forall2_impl; [exact F|].
  intros s o H d Hd. destruct (H d Hd) as (d' & Hd' & Hrec).
  exists d'. split; [rewrite Hh; exact Hd'|].
  apply usage_record_lookups, Hrec.
Qed.

(** ** Round trips of the codecs *)

Ltac nlia := zify; Z.to_euclidean_division_equations; lia.

Ltac ntrue := symmetry; first [apply N.ltb_lt | apply N.leb_le | apply N.eqb_eq]; nlia.
Ltac nfalse := symmetry; first [apply N.ltb_ge | apply N.leb_gt | apply N.eqb_neq]; nlia.

(** UTF-8: decoding what [encode] made of a string gives the string back. *)
Lemma decode_utf8_char (c : N) (b rest : list N) :
  c < 0x110000 -> utf8_char c = Some b ->
  decode (b ++ rest) = option_map (cons c) (decode rest).
Proof.
  intros Hc E. unfold utf8_char in E.
  destruct (c <? 0x80) eqn:E1.
  { apply N.ltb_lt in E1. inversion E; subst b. cbn [app decode].
    replace (c <? 0x80) with true by ntrue. reflexivity. }
  apply N.ltb_ge in E1.
  destruct (c <? 0x800) eqn:E2.
  { apply N.ltb_lt in E2. inversion E; subst b. cbn [app decode].
    replace (0xC0 + c / 64 <? 0x80) with false by nfalse.
    replace (0xC0 + c / 64 <? 0xC2) with false by nfalse.
    replace (0xC0 + c / 64 <? 0xE0) with true by ntrue.
    unfold is_cont.
    replace (0x80 <=? 0x80 + c mod 64) with true by ntrue.
    replace (0x80 + c mod 64 <? 0xC0) with true by ntrue.
    cbn [andb].
    replace ((0xC0 + c / 64 - 0xC0) * 64 + (0x80 + c mod 64 - 0x80)) with c by nlia.
    reflexivity. }
  apply N.ltb_ge in E2.
  destruct (c <? 0x10000) eqn:E3.
  { apply N.ltb_lt in E3.
    destruct ((0xD800 <=? c) && (c <=? 0xDFFF)) eqn:Es; [discriminate|].
    inversion E; subst b. cbn [app decode].
    replace (0xE0 + c / 4096 <? 0x80) with false by nfalse.
    replace (0xE0 + c / 4096 <? 0xC2) with false by nfalse.
    replace (0xE0 + c / 4096 <? 0xE0) with false by nfalse.
    replace (0xE0 + c / 4096 <? 0xF0) with true by ntrue.
    unfold is_cont.
    replace (0x80 <=? 0x80 + (c / 64) mod 64) with true by ntrue.
    replace (0x80 + (c / 64) mod 64 <? 0xC0) with true by ntrue.
    replace (0x80 <=? 0x80 + c mod 64) with true by ntrue.
    replace (0x80 + c mod 64 <? 0xC0) with true by ntrue.
    replace (((0xE0 + c / 4096 - 0xE0) * 64 + (0x80 + (c / 64) mod 64 - 0x80)) * 64
             + (0x80 + c mod 64 - 0x80)) with c by nlia.
    replace (0x800 <=? c) with true by ntrue.
    rewrite Es. reflexivity. }
  apply N.ltb_ge in E3.
  inversion E; subst b. cbn [app decode].
  replace (0xF0 + c / 262144 <? 0x80) with false by nfalse.
  replace (0xF0 + c / 262144 <? 0xC2) with false by nfalse.
  replace (0xF0 + c / 262144 <? 0xE0) with false by nfalse.
  replace (0xF0 + c / 262144 <? 0xF0) with false by nfalse.
  replace (0xF0 + c / 262144 <? 0xF5) with true by ntrue.
  unfold is_cont.
  replace (0x80 <=? 0x80 + (c / 4096) mod 64) with true by ntrue.
  replace (0x80 + (c / 4096) mod 64 <? 0xC0) with true by ntrue.
  replace (0x80 <=? 0x80 + (c / 64) mod 64) with true by ntrue.
  replace (0x80 + (c / 64) mod 64 <? 0xC0) with true by ntrue.
  replace (0x80 <=? 0x80 + c mod 64) with true by ntrue.
  replace (0x80 + c mod 64 <? 0xC0) with true by ntrue.
  replace ((((0xF0 + c / 262144 - 0xF0) * 64 + (0x80 + (c / 4096) mod 64 - 0x80)) * 64
            + (0x80 + (c / 64) mod 64 - 0x80)) * 64 + (0x80 + c mod 64 - 0x80))
    with c by nlia.
  replace (0x10000 <=? c) with true by ntrue.
  replace (c <? 0x110000) with true by ntrue.
  reflexivity.
Qed.

Lemma decode_encode (s : pystr) (b : list N) :
  Forall (fun c => c < 0x110000) s -> encode s = Some b -> decode b = Some s.
Proof.
  intros Hs. revert b. induction Hs as [|c s Hc _ IH]; intros b E; simpl in E.
  - inversion E. reflexivity.
  - destruct (utf8_char c) as [bc|] eqn:Ec; [|discriminate].
    destruct (encode s) as [bs|]; [|discriminate].
    inversion E; subst b.
    rewrite (decode_utf8_char _ _ _ Hc Ec), (IH bs eq_refl). reflexivity.
Qed.

Lemma encode_ascii (s : pystr) : Forall (fun c => c < 128) s -> encode s = Some s.
Proof.
  induction 1 as [|c s Hc _ IH]; simpl; [reflexivity|].
  unfold utf8_char. replace (c <? 0x80) with true by ntrue. rewrite IH. reflexivity.
Qed.

(** base64 *)

Lemma b64_value_char (i : N) : i < 64 -> b64_value (b64_char i) = Some i.
Proof.
  intros Hi. unfold b64_char.
  destruct (i <? 26) eqn:E1.
  { apply N.ltb_lt in E1. unfold b64_value.
    replace (65 <=? 65 + i) with true by ntrue.
    replace (65 + i <=? 90) with true by ntrue. cbn [andb]. f_equal. nlia. }
  apply N.ltb_ge in E1.
  destruct (i <? 52) eqn:E2.
  { apply N.ltb_lt in E2. unfold b64_value.
    replace (65 <=? 71 + i) with true by ntrue.
    replace (71 + i <=? 90) with false by nfalse.
    replace (97 <=? 71 + i) with true by ntrue.
    replace (71 + i <=? 122) with true by ntrue. cbn [andb]. f_equal. nlia. }
  apply N.ltb_ge in E2.
  destruct (i <? 62) eqn:E3.
  { apply N.ltb_lt in E3. unfold b64_value.
    replace (65 <=? i - 4) with false by nfalse.
    replace (97 <=? i - 4) with false by nfalse.
    replace (48 <=? i - 4) with true by ntrue.
    replace (i - 4 <=? 57) with true by ntrue. cbn [andb]. f_equal. nlia. }
  apply N.ltb_ge in E3.
  destruct (i =? 62) eqn:E4.
  - apply N.eqb_eq in E4. subst i. reflexivity.
  - apply N.eqb_neq in E4. assert (i = 63) by lia. subst i. reflexivity.
Qed.

Lemma b64_char_not_pad (i : N) : (b64_char i =? 61) = false.
Proof.
  apply N.eqb_neq. unfold b64_char.
  destruct (i <? 26) eqn:E1; [apply N.ltb_lt in E1; lia|]. apply N.ltb_ge in E1.
  destruct (i <? 52) eqn:E2; [apply N.ltb_lt in E2; lia|]. apply N.ltb_ge in E2.
  destruct (i <? 62) eqn:E3; [apply N.ltb_lt in E3; lia|].
  destruct (i =? 62); discriminate.
Qed.

Lemma sextets_all (v : N) : v < 64 -> v ∈ sextets.
Proof.
  intros H. unfold sextets. rewrite <- (N2Nat.id v).
  apply list_elem_of_fmap_2, list_elem_of_In, in_seq. lia.
Qed.

Lemma join_sextets (l v : N) :
  l < 64 -> v < 64 ->
  N.lor (N.shiftl l 2) (N.shiftr v 4) mod 256 = (l * 4 + v / 16) mod 256 /\
  N.lor (N.shiftl (l mod 16) 4) (N.shiftr v 2) mod 256 = ((l mod 16) * 16 + v / 4) mod 256 /\
  N.lor (N.shiftl (l mod 4) 6) v mod 256 = ((l mod 4) * 64 + v) mod 256 /\
  N.land v 0x0f = v mod 16 /\ N.land v 0x03 = v mod 4.
Proof.
  intros Hl Hv.
  assert (H : forallb (fun l => forallb (fun v =>
    (N.lor (N.shiftl l 2) (N.shiftr v 4) mod 256 =? (l * 4 + v / 16) mod 256) &&
    (N.lor (N.shiftl (l mod 16) 4) (N.shiftr v 2) mod 256 =? ((l mod 16) * 16 + v / 4) mod 256) &&
    (N.lor (N.shiftl (l mod 4) 6) v mod 256 =? ((l mod 4) * 64 + v) mod 256) &&
    (N.land v 0x0f =? v mod 16) && (N.land v 0x03 =? v mod 4)) sextets) sextets = true)
    by (vm_compute; reflexivity).
  rewrite forallb_forall in H. specialize (H l (proj1 (list_elem_of_In _ _) (sextets_all l Hl))).
  rewrite forallb_forall in H. specialize (H v (proj1 (list_elem_of_In _ _) (sextets_all v Hv))).
  repeat (apply andb_true_iff in H as [H ?]).
  repeat split; apply N.eqb_eq; assumption.
Qed.

Lemma a2b_first (i : N) (s : list N) (leftchar : N) (pads : nat) :
  i < 64 -> a2b_base64 (b64_char i :: s) 0 leftchar pads = a2b_base64 s 1 i 0.
Proof.
  intros Hi. cbn [a2b_base64]. rewrite b64_char_not_pad, (b64_value_char i Hi). reflexivity.
Qed.

Lemma a2b_second (i : N) (s : list N) (leftchar : N) (pads : nat) :
  i < 64 -> leftchar < 64 ->
  a2b_base64 (b64_char i :: s) 1 leftchar pads =
    option_map (cons ((leftchar * 4 + i / 16) mod 256)) (a2b_base64 s 2 (i mod 16) 0).
Proof.
  intros Hi Hl. cbn [a2b_base64]. rewrite b64_char_not_pad, (b64_value_char i Hi).
  destruct (join_sextets leftchar i Hl Hi) as (-> & _ & _ & -> & _). reflexivity.
Qed.

Lemma a2b_third (i : N) (s : list N) (leftchar : N) (pads : nat) :
  i < 64 -> leftchar < 16 ->
  a2b_base64 (b64_char i :: s) 2 leftchar pads =
    option_map (cons ((leftchar * 16 + i / 4) mod 256)) (a2b_base64 s 3 (i mod 4) 0).
Proof.
  intros Hi Hl. cbn [a2b_base64]. rewrite b64_char_not_pad, (b64_value_char i Hi).
  destruct (join_sextets leftchar i ltac:(lia) Hi) as (_ & H & _ & _ & ->).
  rewrite (N.mod_small leftchar 16 Hl) in H. rewrite H. reflexivity.
Qed.

Lemma a2b_fourth (i : N) (s : list N) (leftchar : N) (pads : nat) :
  i < 64 -> leftchar < 4 ->
  a2b_base64 (b64_char i :: s) 3 leftchar pads =
    option_map (cons ((leftchar * 64 + i) mod 256)) (a2b_base64 s 0 0 0).
Proof.
  intros Hi Hl. cbn [a2b_base64]. rewrite b64_char_not_pad, (b64_value_char i Hi).
  destruct (join_sextets leftchar i ltac:(lia) Hi) as (_ & _ & H & _ & _).
  rewrite (N.mod_small leftchar 4 Hl) in H. rewrite H. reflexivity.
Qed.

Lemma b64decode_b64encode : forall bs : list N,
  Forall (fun b => b < 256) bs -> b64decode (b64encode bs) = Some bs.
Proof.
  unfold b64decode. fix IH 1. intros [|b0 [|b1 [|b2 rest]]] H.
  - reflexivity.
  - apply Forall_cons in H as [H0 _]. cbn [b64encode].
    rewrite a2b_first by nlia. rewrite a2b_second by nlia.
    cbn [a2b_base64 N.eqb Pos.eqb Nat.leb Nat.add option_map].
    f_equal. f_equal. nlia.
  - apply Forall_cons in H as [H0 H]. apply Forall_cons in H as [H1 _]. cbn [b64encode].
    rewrite a2b_first by nlia. rewrite a2b_second by nlia. rewrite a2b_third by nlia.
    cbn [a2b_base64 N.eqb Pos.eqb Nat.leb Nat.add option_map].
    f_equal. f_equal; [nlia|]. f_equal. nlia.
  - apply Forall_cons in H as [H0 H]. apply Forall_cons in H as [H1 H].
    apply Forall_cons in H as [H2 H]. cbn [b64encode app].
    rewrite a2b_first by nlia. rewrite a2b_second by nlia. rewrite a2b_third by nlia.
    rewrite a2b_fourth by nlia. rewrite (IH rest H). cbn [option_map].
    f_equal. f_equal; [nlia|]. f_equal; [nlia|]. f_equal. nlia.
Qed.

(** ** Decrypting what was encrypted *)

Lemma utf8_char_octets (c : N) (b : list N) :
  c < 0x110000 -> utf8_char c = Some b -> Forall (fun x => x < 256) b.
Proof.
  intros Hc E. unfold utf8_char in E.
  destruct (c <? 0x80) eqn:E1.
  { apply N.ltb_lt in E1. inversion E; subst. repeat constructor. lia. }
  destruct (c <? 0x800) eqn:E2.
  { apply N.ltb_lt in E2. inversion E; subst. repeat constructor; nlia. }
  destruct (c <? 0x10000) eqn:E3.
  { apply N.ltb_lt in E3. destruct ((0xD800 <=? c) && (c <=? 0xDFFF)); [discriminate|].
    inversion E; subst. repeat constructor; nlia. }
  inversion E; subst. repeat constructor; nlia.
Qed.

Lemma encode_octets (s : pystr) (b : list N) :
  Forall (fun c => c < 0x110000) s -> encode s = Some b -> Forall (fun x => x < 256) b.
Proof.
  intros Hs. revert b. induction Hs as [|c s Hc _ IH]; intros b E; simpl in E.
  - inversion E. constructor.
  - destruct (utf8_char c) as [bc|] eqn:Ec; [|discriminate].
    destruct (encode s) as [bs|]; [|discriminate].
    inversion E; subst b. apply Forall_app. split.
    + apply (utf8_char_octets _ _ Hc Ec).
    + apply IH. reflexivity.
Qed.

(** [_decrypt_field] stage by stage: the text is encoded, the base64 is
    undone, the cipher opens the token, the plaintext is decoded; the first
    stage that fails decides the error, which is logged once and raised. *)
Lemma decrypt_field_run (encrypted_value : pystr) (w : world) :
  let failed e :=
    (Raise e, set_logs (logs w ++ [Log ERROR (py "Field decryption failed: ") (Some e)]) w) in
  _decrypt_field encrypted_value w =
    match encode encrypted_value with
    | None => failed UnicodeEncodeError
    | Some b =>
        match b64decode b with
        | None => failed ValueError
        | Some token =>
            match fernet_decrypt (cipher self) token with
            | None => failed InvalidToken
            | Some data =>
                match decode data with
                | None => failed UnicodeDecodeError
                | Some s => (Ok s, w)
                end
            end
        end
    end.
Proof.
  unfold _decrypt_field, try_except, bind, encode_str, cipher_decrypt, decode_bytes.
  destruct (encode encrypted_value) as [b|]; [|reflexivity].
  unfold ret at 1. destruct (b64decode b) as [token|]; [|reflexivity].
  unfold ret at 1. destruct (fernet_decrypt (cipher self) token) as [data|]; [|reflexivity].
  unfold ret at 1. destruct (decode data); reflexivity.
Qed.

(** X4. [_decrypt_field] undoes [_encrypt_field]: for a string of Unicode
    code points, whatever [_encrypt_field] returns decrypts to the string
    it was given, in any later state and without a trace in the log,
    provided the cipher opens the tokens it makes from the random octets
    of the platform and its tokens are octets. *)
Theorem decrypt_field_inverts_encrypt_field (v c : pystr) (w w1 w2 : world) :
  (forall n t data,
     fernet_decrypt (cipher self) (fernet_encrypt (cipher self) (urandom_at P n) t data)
       = Some data) ->
  (forall n t data, Forall (fun x => x < 256) data ->
     Forall (fun x => x < 256) (fernet_encrypt (cipher self) (urandom_at P n) t data)) ->
  Forall (fun x => x < 0x110000) v ->
  _encrypt_field v w = (Ok c, w1) ->
  _decrypt_field c w2 = (Ok v, w2).
Proof.
  intros Hopen Hoct Hv E. rewrite encrypt_field_run in E.
  destruct (encode v) as [b|] eqn:Eb; [|discriminate].
  inversion E; subst c w1. clear E.
  rewrite decrypt_field_run.
  rewrite encode_ascii by apply b64encode_ascii.
  rewrite b64decode_b64encode by (apply Hoct, (encode_octets _ _ Hv Eb)).
  rewrite Hopen. rewrite (decode_encode _ _ Hv Eb). reflexivity.
Qed.

(** X5. [_decrypt_field] has no fallback. It returns only when all four
    stages succeed, and then leaves the world as it is; otherwise it raises
    the error of the first stage that fails, [UnicodeEncodeError] for text
    without encoding, [ValueError] for text that is not base64,
    [InvalidToken] for a token the cipher rejects, [UnicodeDecodeError] for
    a plaintext that is not UTF-8, after one line in the log and with the
    heap and the database untouched. *)
Theorem decrypt_field_raises_or_returns (encrypted_value : pystr) (w : world) :
  match _decrypt_field encrypted_value w with
  | (Ok s, w') =>
      w' = w /\
      exists b token data,
        encode encrypted_value = Some b /\ b64decode b = Some token /\
        fernet_decrypt (cipher self) token = Some data /\ decode data = Some s
  | (Raise e, w') =>
      w' = set_logs (logs w ++ [Log ERROR (py "Field decryption failed: ") (Some e)]) w /\
      match encode encrypted_value with
      | None => e = UnicodeEncodeError
      | Some b =>
          match b64decode b with
          | None => e = ValueError
          | Some token =>
              match fernet_decrypt (cipher self) token with
              | None => e = InvalidToken
              | Some data => e = UnicodeDecodeError /\ decode data = None
              end
          end
      end
  end.
Proof.
  rewrite decrypt_field_run. cbv zeta.
  destruct (encode encrypted_value) as [b|] eqn:Eb; [|split; reflexivity].
  destruct (b64decode b) as [token|] eqn:Et; [|split; reflexivity].
  destruct (fernet_decrypt (cipher self) token) as [data|] eqn:Ec; [|split; reflexivity].
  destruct (decode data) as [s|] eqn:Ed.
  - split; [reflexivity|]. exists b, token, data. repeat split; assumption.
  - split; [reflexivity|]. split; reflexivity.
Qed.

(** ** validate_ferpa_compliance *)

Section Validate.

Variable unicode_lower : pystr -> pystr.
Variable recursion_frames : nat.
Variable recursion_error : pystr.

Lemma entry_findings_nil (current_path key : pystr) (value : pyobj) :
  entry_findings unicode_lower current_path key value = [] <->
  negb (bool_decide (lower unicode_lower key ∈ pii_fields)) &&
  match value with OLeaf (VStr s) => pattern_free s | _ => true end = true.
Proof.
  unfold entry_findings, pattern_free.
  destruct (bool_decide (lower unicode_lower key ∈ pii_fields)); cbn [negb andb app].
  { split; discriminate. }
  destruct value as [[| | |s| |]| |]; try (split; reflexivity).
  induction pii_patterns as [|tp l IH]; cbn [flat_map forallb]; [split; reflexivity|].
  destruct (re_search (snd tp) s); cbn [negb andb app]; [split; discriminate | exact IH].
Qed.

(** With room for the nesting, [check_for_pii] returns, and it adds nothing
    to the findings exactly when the object is free of PII as [pii_free]
    says. *)
Lemma check_for_pii_enough (frames : nat) : forall obj path acc,
  (depth obj <= frames)%nat ->
  exists found, check_for_pii unicode_lower frames obj path acc = Some (acc ++ found) /\
                (found = [] <-> pii_free unicode_lower obj = true).
Proof.
  induction frames as [|frames IH]; intros obj path acc Hd.
  { destruct obj; simpl in Hd; lia. }
  destruct obj as [v|entries|elements]; cbn [check_for_pii].
  - exists []. rewrite app_nil_r. split; [reflexivity | split; reflexivity].
  - cbn [depth] in Hd. apply le_S_n in Hd. cbn [pii_free].
    revert acc Hd. induction entries as [|[key value] rest IHr]; intros acc Hd.
    + exists []. rewrite app_nil_r. split; [reflexivity | split; reflexivity].
    + set (current_path := if bool_decide (path = []) then key else path ++ [46] ++ key).
      destruct (IH value current_path
                  (acc ++ entry_findings unicode_lower current_path key value))
        as (f1 & -> & H1); [lia|].
      destruct (IHr ((acc ++ entry_findings unicode_lower current_path key value) ++ f1))
        as (f2 & -> & H2); [lia|].
      exists (entry_findings unicode_lower current_path key value ++ f1 ++ f2).
      split; [rewrite !app_assoc; reflexivity|].
      pose proof (entry_findings_nil current_path key value) as He.
      rewrite andb_true_iff in He.
      rewrite !andb_true_iff, <- H1, <- H2.
      split.
      * intros H. apply app_eq_nil in H as [H3 H]. apply app_eq_nil in H as [H4 H5].
        apply He in H3 as [? ?]. repeat split; assumption.
      * intros [[[Ha Hb] ->] ->]. rewrite (proj2 He (conj Ha Hb)). reflexivity.
  - cbn [depth] in Hd. apply le_S_n in Hd. cbn [pii_free].
    generalize 0%nat as i.
    revert acc Hd. induction elements as [|element rest IHr]; intros acc Hd i.
    + exists []. rewrite app_nil_r. split; [reflexivity | split; reflexivity].
    + destruct (IH element (path ++ [91] ++ str_of_nat i ++ [93]) acc)
        as (f1 & -> & H1); [lia|].
      destruct (IHr (acc ++ f1) ltac:(lia) (S i)) as (f2 & -> & H2).
      exists (f1 ++ f2). split; [rewrite app_assoc; reflexivity|].
      rewrite andb_true_iff, <- H1, <- H2. split.
      * intros H. apply app_eq_nil in H. exact H.
      * intros [-> ->]. reflexivity.
Qed.

(** Without room for the nesting, [check_for_pii] raises. *)
Lemma check_for_pii_short (frames : nat) : forall obj path acc,
  (frames < depth obj)%nat -> check_for_pii unicode_lower frames obj path acc = None.
Proof.
  induction frames as [|frames IH]; intros obj path acc Hd; [reflexivity|].
  destruct obj as [v|entries|elements]; cbn [check_for_pii].
  - simpl in Hd. lia.
  - cbn [depth] in Hd. apply Nat.succ_lt_mono in Hd.
    revert acc. induction entries as [|[key value] rest IHr]; intros acc; [lia|].
    set (current_path := if bool_decide (path = []) then key else path ++ [46] ++ key).
    destruct (le_lt_dec (depth value) frames) as [Hv|Hv].
    + destruct (check_for_pii_enough frames value current_path
                  (acc ++ entry_findings unicode_lower current_path key value) Hv)
        as (f1 & -> & _).
      apply IHr. lia.
    + rewrite (IH value _ _ Hv). reflexivity.
  - cbn [depth] in Hd. apply Nat.succ_lt_mono in Hd.
    generalize 0%nat as i.
    revert acc. induction elements as [|element rest IHr]; intros acc i; [lia|].
    destruct (le_lt_dec (depth element) frames) as [Hv|Hv].
    + destruct (check_for_pii_enough frames element (path ++ [91] ++ str_of_nat i ++ [93])
                  acc Hv) as (f1 & -> & _).
      apply IHr. lia.
    + rewrite (IH element _ _ Hv). reflexivity.
Qed.


(** X7. Strings that are elements of a list are not inspected: a
    dictionary whose only entry has a key that is no PII field name and a
    list of strings for its value is reported compliant whatever the
    strings hold, an e-mail address or a social security number included. *)
Theorem validate_ferpa_compliance_skips_list_strings (k : pystr) (strings : list pystr)
    (w : world) :
  lower unicode_lower k ∉ pii_fields -> (3 <= recursion_frames)%nat ->
  exists r,
    validate_ferpa_compliance unicode_lower recursion_frames recursion_error
      (ODict [(k, OList (map (fun s => OLeaf (VStr s)) strings))]) w
      = (Ok r, w) /\
    compliant r = true /\ issues r = [].
Proof.
  intros Hk Hf. unfold validate_ferpa_compliance.
  set (data := ODict [(k, OList (map (fun s => OLeaf (VStr s)) strings))]).
  assert (Hd : (depth data <= recursion_frames)%nat).
  { unfold data. cbn [depth]. rewrite Nat.max_0_r.
    assert (H : ((fix deepest (l : list pyobj) : nat :=
                    match l with
                    | [] => 0%nat
                    | v :: l' => Nat.max (depth v) (deepest l')
                    end) (map (fun s => OLeaf (VStr s)) strings) <= 1)%nat).
    { clear. induction strings as [|s strings IH]; simpl; lia. }
    lia. }
  assert (Hp : pii_free unicode_lower data = true).
  { unfold data. cbn [pii_free]. rewrite bool_decide_eq_false_2 by exact Hk.
    cbn [negb andb]. rewrite andb_true_r.
    clear. induction strings as [|s strings IH]; cbn [map pii_free andb];
      [reflexivity | exact IH]. }
  destruct (check_for_pii_enough recursion_frames data [] [] Hd) as (found & -> & Hfound).
  apply Hfound in Hp. subst found. cbn [app].
  rewrite bool_decide_eq_true_2 by reflexivity. cbn [negb andb].
  unfold data. eexists. split; [reflexivity|]. cbn [compliant issues].
  rewrite andb_false_r. split; reflexivity.
Qed.

End Validate.

(** * Further properties of [MongoDBClient] *)

(** ** What is never deleted *)

Lemma keeps_bind {A B} d n (m : M A) (k : A -> M B) :
  keeps d n m -> (forall a, keeps d n (k a)) -> keeps d n (bind m k).
Proof.
  intros Hm Hk w H. unfold bind. specialize (Hm w H).
  destruct (m w) as [[a|e] w1]; cbn [snd] in *; [apply Hk, Hm | exact Hm].
Qed.

Lemma keeps_try {A} d n (m : M A) (h : exn -> M A) :
  keeps d n m -> (forall e, keeps d n (h e)) -> keeps d n (try_except m h).
Proof.
  intros Hm Hh w H. unfold try_except. specialize (Hm w H).
  destruct (m w) as [[a|e] w1]; cbn [snd] in *; [exact Hm | apply Hh, Hm].
Qed.

Lemma keeps_db_kept {A} d n (m : M A) : db_kept m -> keeps d n m.
Proof.
  intros Hm w H. destruct (m w) as [r w'] eqn:E. cbn [snd].
  destruct (Hm _ _ _ E) as [_ Hc]. unfold stored in *. rewrite Hc. exact H.
Qed.

Lemma keeps_for_each {A} d n (xs : list A) (body : A -> M unit) :
  (forall x, keeps d n (body x)) -> keeps d n (for_each xs body).
Proof.
  intros Hb. induction xs as [|x xs IH]; simpl.
  - intros w H. exact H.
  - apply keeps_bind; auto.
Qed.

Lemma keeps_collect {A B} d n (xs : list A) (f : A -> M B) :
  (forall x, keeps d n (f x)) -> keeps d n (collect xs f).
Proof.
  intros Hf. induction xs as [|x xs IH]; simpl.
  - intros w H. exact H.
  - apply keeps_bind; [apply Hf|]. intros y.
    apply keeps_bind; [exact IH|]. intros ys w H. exact H.
Qed.

Lemma keeps_fold_each {A S} d n (xs : list A) (body : S -> A -> M S) :
  (forall c x, keeps d n (body c x)) -> forall c, keeps d n (fold_each xs body c).
Proof.
  intros Hb. induction xs as [|x xs IH]; intros c; simpl.
  - intros w H. exact H.
  - apply keeps_bind; [apply Hb | exact IH].
Qed.

Lemma keeps_new_oid d n name : keeps d n (new_oid name).
Proof. intros w H. exact H. Qed.

Lemma keeps_server_insert d n name doc : keeps d n (server_insert name doc).
Proof.
  intros w H. unfold server_insert, bind, get_collection, unique_fields.
  destruct (clashes _ _ doc); [exact H|].
  unfold put_collection. cbn [snd]. rewrite stored_put. case_bool_decide as E; [|exact H].
  subst n. apply elem_of_app. left. exact H.
Qed.

Create HintDb keeps.
#[local] Hint Resolve keeps_new_oid keeps_server_insert : keeps.
#[local] Hint Extern 2 (keeps _ _ (bind _ _)) => apply keeps_bind; [|intros] : keeps.
#[local] Hint Extern 2 (keeps _ _ (try_except _ _)) => apply keeps_try; [|intros] : keeps.
#[local] Hint Extern 2 (keeps _ _ (for_each _ _)) => apply keeps_for_each; intros : keeps.
#[local] Hint Extern 2 (keeps _ _ (collect _ _)) => apply keeps_collect; intros : keeps.
#[local] Hint Extern 2 (keeps _ _ (fold_each _ _ _)) => apply keeps_fold_each; intros : keeps.
#[local] Hint Extern 3 (keeps _ _ (if ?b then _ else _)) => destruct b : keeps.
#[local] Hint Extern 3 (keeps _ _ (match ?x with _ => _ end)) => destruct x : keeps.
#[local] Hint Extern 6 (keeps _ _ _) => apply keeps_db_kept; solve [db] : keeps.

Ltac keeps := unfold contains, getitem, setitem, delitem, items; eauto 40 with keeps.

Lemma keeps_insert_one d n name l : keeps d n (insert_one name l).
Proof. unfold insert_one, ensure_id. keeps. Qed.
#[local] Hint Resolve keeps_insert_one : keeps.

Lemma keeps_insert_many d n name data : keeps d n (insert_many name data).
Proof. unfold insert_many, ensure_id. keeps. Qed.
#[local] Hint Resolve keeps_insert_many : keeps.

Lemma keeps_log_data_operation d n name op t i u :
  keeps d n (_log_data_operation name op t i u).
Proof. unfold _log_data_operation. keeps. Qed.
#[local] Hint Resolve keeps_log_data_operation : keeps.

Lemma keeps_log_audit_event d n action user_id details :
  keeps d n (_log_audit_event action user_id details).
Proof. unfold _log_audit_event. keeps. Qed.
#[local] Hint Resolve keeps_log_audit_event : keeps.

Lemma keeps_delete_many d n name bound :
  collected_before bound d = false -> keeps d n (delete_many name bound).
Proof.
  intros Hd w H. unfold delete_many, bind, get_collection. fold (stored w name).
  case_bool_decide as E; [exact H|].
  unfold put_collection, ret. cbn [snd]. rewrite stored_put. case_bool_decide as E2; [|exact H].
  subst n. apply list_elem_of_In, filter_In. split; [apply list_elem_of_In, H|].
  rewrite Hd. reflexivity.
Qed.

Lemma undated_not_before d bound : undated d -> collected_before bound d = false.
Proof.
  intros H. unfold collected_before.
  destruct (dict_get d (py "collected_at")) as [[| | |s| |]|] eqn:E; try reflexivity.
  exfalso. apply (H s). exact E.
Qed.

(** X8. [cleanup_old_data] never deletes a document that has no
    [collected_at] or whose [collected_at] is not a string, a [datetime]
    for instance: in whatever collection it is stored and whatever the
    retention, it is still stored after the call. *)
Theorem cleanup_old_data_keeps_undated (days_to_keep : Z) (d : dict) (n : pystr) (w : world) :
  undated d -> d ∈ stored w n ->
  d ∈ stored (snd (cleanup_old_data days_to_keep w)) n.
Proof.
  intros Hd. revert w. fold (keeps d n (cleanup_old_data days_to_keep)).
  unfold cleanup_old_data.
  apply keeps_try; [|intros e; keeps].
  apply keeps_bind; [keeps|]. intros now.
  apply keeps_bind; [unfold minus_days; keeps|]. intros cutoff.
  apply keeps_bind; [|intros total; keeps].
  apply keeps_fold_each. intros c name. unfold clean_collection.
  apply keeps_try; [|intros e; keeps].
  apply keeps_bind; [apply keeps_delete_many, undated_not_before, Hd|].
  intros deleted_count. keeps.
Qed.

(** X9. When the cutoff is no date of the calendar, because more days are
    asked for than [timedelta] takes or the result falls before year 1 or
    after year 9999, [cleanup_old_data] raises [OverflowError] after one
    line in the log and deletes nothing. *)
Theorem cleanup_old_data_out_of_range (days_to_keep : Z) (w : world) :
  let now := utcnow_at P (ticks w) in
  let cutoff := (now - days_to_keep * 86400000000)%Z in
  ~ ((Z.abs days_to_keep <= 999999999)%Z /\ (0 <= cutoff < max_instant)%Z) ->
  cleanup_old_data days_to_keep w =
    (Raise OverflowError,
     set_logs (logs w ++ [Log ERROR (py "Data cleanup failed: ") (Some OverflowError)])
       (set_ticks (S (ticks w)) w)).
Proof.
  intros now cutoff H. unfold cleanup_old_data, try_except.
  unfold bind at 1. unfold utcnow. fold now.
  unfold bind at 1. unfold minus_days. fold cutoff.
  destruct (Z.abs days_to_keep <=? 999999999)%Z eqn:E1; [|reflexivity].
  apply Z.leb_le in E1.
  destruct ((0 <=? cutoff)%Z && (cutoff <? max_instant)%Z) eqn:E2; [|reflexivity].
  exfalso. apply H. apply andb_true_iff in E2 as [Ea Eb].
  apply Z.leb_le in Ea. apply Z.ltb_lt in Eb. lia.
Qed.

Lemma keeps_insert_all d n name data : keeps d n (insert_all name data).
Proof. unfold insert_all, insert_document. keeps. Qed.

(** X10. Without an upsert key [store_data] only adds: a document that is
    stored, in the collection written to or in any other, is still stored
    and unchanged after the call, whatever the records are and whether the
    writes succeed or not. *)
Theorem store_data_only_adds (name : pystr) (data : list nat) (d : dict) (n : pystr)
    (w : world) :
  d ∈ stored w n -> d ∈ stored (snd (store_data name data None w)) n.
Proof.
  revert w. fold (keeps d n (store_data name data None)).
  pose proof (keeps_insert_all d n name data).
  unfold store_data. cbn [key_given]. keeps.
Qed.


(** ** Setting up the indexes *)

Lemma create_unique_index_run name field w :
  distinct_on field (stored w name) ->
  create_unique_index name field w =
    (Ok tt,
     set_mongo (Database (collections (mongo w))
                  (<[name := default [] (unique_indexes (mongo w) !! name) ++ [field]]>
                     (unique_indexes (mongo w)))
                  (oid_seq (mongo w))) w).
Proof.
  intros H. unfold create_unique_index, bind, get_collection. fold (stored w name).
  rewrite bool_decide_eq_true_2 by exact H. reflexivity.
Qed.

Lemma create_unique_index_fails name field w :
  ~ distinct_on field (stored w name) ->
  create_unique_index name field w = (Raise DuplicateKeyError, w).
Proof.
  intros H. unfold create_unique_index, bind, get_collection. fold (stored w name).
  rewrite bool_decide_eq_false_2 by exact H. reflexivity.
Qed.

Lemma db_collections_create_unique_index name field w :
  collections (mongo (snd (create_unique_index name field w))) = collections (mongo w).
Proof.
  unfold create_unique_index, bind, get_collection.
  destruct (bool_decide _); reflexivity.
Qed.

(** X12. When in each of the five collections the documents differ on the
    field to be indexed, [_setup_indexes] returns with the five unique
    indexes in place, [student_id] on [canvas_students] among them, and
    with every document where it was. *)
Theorem setup_indexes_creates_unique_indexes (w : world) :
  (forall n f, (n, f) ∈ unique_index_specs -> distinct_on f (stored w n)) ->
  exists w',
    _setup_indexes w = (Ok tt, w') /\
    collections (mongo w') = collections (mongo w) /\
    forall n f, (n, f) ∈ unique_index_specs ->
      f ∈ default [] (unique_indexes (mongo w') !! n).
Proof.
  intros H. unfold _setup_indexes, try_except.
  assert (H1 := H (py "canvas_students") (py "student_id") ltac:(by_compute)).
  assert (H2 := H (py "moodle_users") (py "user_id") ltac:(by_compute)).
  assert (H3 := H (py "canvas_courses") (py "course_id") ltac:(by_compute)).
  assert (H4 := H (py "moodle_courses") (py "course_id") ltac:(by_compute)).
  assert (H5 := H (py "canvas_assignments") (py "assignment_id") ltac:(by_compute)).
  rewrite (bind_run _ _ _ _ _ (create_unique_index_run _ _ _ H1)).
  erewrite bind_run by (apply create_unique_index_run; exact H2).
  erewrite bind_run by (apply create_unique_index_run; exact H3).
  erewrite bind_run by (apply create_unique_index_run; exact H4).
  erewrite bind_run by (apply create_unique_index_run; exact H5).
  unfold logger. eexists. split; [reflexivity|]. split; [reflexivity|].
  intros n f Hnf. world_simpl.
  repeat (apply elem_of_cons in Hnf as [Hnf|Hnf];
          [inversion Hnf; subst n f;
           repeat (rewrite lookup_insert_ne by by_compute);
           rewrite lookup_insert_eq; cbn [default]; apply elem_of_app; right; left|]).
  inversion Hnf.
Qed.

(** X13. [_setup_indexes] never raises and moves no document. Its index
    requests stand in one [try]: when two documents of [canvas_students]
    have the same [student_id], the first request fails, the failure is
    logged, and none of the five unique indexes is created. *)
Theorem setup_indexes_stops_at_first_failure (w : world) :
  fst (_setup_indexes w) = Ok tt /\
  collections (mongo (snd (_setup_indexes w))) = collections (mongo w) /\
  (~ distinct_on (py "student_id") (stored w (py "canvas_students")) ->
   unique_indexes (mongo (snd (_setup_indexes w))) = unique_indexes (mongo w) /\
   logs (snd (_setup_indexes w)) =
     logs w ++ [Log ERROR (py "Failed to create MongoDB indexes: ")
                  (Some DuplicateKeyError)]).
Proof.
  split; [|split].
  - unfold _setup_indexes, try_except, logger, bind.
    repeat match goal with
    | |- context [create_unique_index ?n ?f ?w0] =>
        destruct (create_unique_index n f w0) as [[[]|?] ?]; try reflexivity
    end.
  - unfold _setup_indexes, try_except, logger, bind.
    repeat match goal with
    | |- context [create_unique_index ?n ?f ?w0] =>
        let E := fresh "E" in
        pose proof (db_collections_create_unique_index n f w0) as E;
        destruct (create_unique_index n f w0) as [[[]|?] ?]; cbn [snd] in E;
        try (cbn [snd mongo set_logs collections]; congruence)
    end.
  - intros H. unfold _setup_indexes, try_except.
    rewrite (bind_raise _ _ _ _ _ (create_unique_index_fails _ _ _ H)).
    split; reflexivity.
Qed.

(** ** Audit entries that are lost *)

(** [insert_one] on a dictionary without [_id]: the driver gives it one, and
    the server stores the document unless a unique index refuses it. *)
Lemma insert_one_new name l d w :
  heap w !! l = Some d -> dict_get d (py "_id") = None ->
  let oid := next_oid (stored w name) (oid_seq (mongo w)) in
  let doc := (py "_id", VOid oid) :: d in
  let w1 := set_heap (<[l := dict_set d (py "_id") (VOid oid)]> (heap w))
              (set_mongo (Database (collections (mongo w)) (unique_indexes (mongo w))
                            (oid + 1)) w) in
  insert_one name l w =
    if clashes (py "_id" :: default [] (unique_indexes (mongo w) !! name)) (stored w name) doc
    then (Raise DuplicateKeyError, w1)
    else (Ok (VOid oid),
          set_mongo (Database (<[name := stored w name ++ [doc]]> (collections (mongo w)))
                       (unique_indexes (mongo w)) (oid + 1)) w1).
Proof.
  intros Hl Hid oid doc w1. unfold insert_one.
  assert (E1 : ensure_id name l w = (Ok tt, w1)).
  { unfold ensure_id. rewrite (bind_run _ _ _ _ _ (contains_run _ _ _ _ Hl)).
    unfold dict_has. rewrite Hid.
    rewrite (bind_run _ _ _ _ _ (new_oid_run _ _)). fold oid.
    erewrite setitem_run by (cbn [heap set_mongo]; exact Hl). reflexivity. }
  rewrite (bind_run _ _ _ _ _ E1).
  unfold bind at 1. unfold deref. unfold w1 at 1. cbn [heap set_heap].
  rewrite lookup_insert_eq. rewrite (bson_doc_new_id _ _ Hid). fold doc.
  destruct (clashes _ (stored w name) doc) eqn:Ec.
  - erewrite bind_raise by (apply server_insert_clash; exact Ec). reflexivity.
  - erewrite bind_run by (apply server_insert_run; exact Ec).
    unfold ret, doc_field. rewrite dict_get_set, bool_decide_eq_true_2 by reflexivity.
    reflexivity.
Qed.


(** ** Reading the store *)

Lemma fetch_document_run doc w :
  fetch_document doc w =
    (Ok (fresh (dom (heap w))),
     set_heap (<[fresh (dom (heap w)) := fetched doc]> (heap w)) w).
Proof.
  unfold fetch_document, new_dict, fetched.
  set (l := fresh (dom (heap w))).
  set (w1 := set_heap (<[l := decode_doc doc]> (heap w)) w).
  assert (H1 : heap w1 !! l = Some (decode_doc doc)) by apply lookup_insert_eq.
  unfold bind at 1. fold l. fold w1.
  rewrite (bind_run _ _ _ _ _ (contains_run _ _ _ _ H1)).
  unfold dict_has.
  destruct (dict_get (decode_doc doc) (py "_id")) as [i|] eqn:E.
  - unfold bind at 1. unfold bind at 1. rewrite (getitem_run _ _ _ _ _ H1 E).
    rewrite (setitem_run _ _ _ _ _ H1). unfold ret. unfold w1.
    cbn [heap set_heap]. rewrite insert_insert_eq. reflexivity.
  - unfold bind, ret. reflexivity.
Qed.

(** Fetching documents one after the other: as many new objects, all
    different, and nothing else touched. *)
Lemma collect_fetch docs : forall w,
  exists locs w',
    collect docs fetch_document w = (Ok locs, w') /\
    mongo w' = mongo w /\ logs w' = logs w /\ ticks w' = ticks w /\
    extends w w' /\
    Forall (fun l => heap w !! l = None) locs /\ NoDup locs /\
    holds w' locs docs.
Proof.
  induction docs as [|doc docs IH]; intros w.
  - exists [], w. simpl. unfold ret. repeat split; try constructor.
    intros l d H. exact H.
  - set (l := fresh (dom (heap w))).
    set (w1 := set_heap (<[l := fetched doc]> (heap w)) w).
    destruct (IH w1) as (locs & w' & E & Hm & Hl & Ht & Hext & Hfresh & Hnd & Hh).
    assert (Hext1 : extends w w1).
    { intros l' d' H'. unfold w1. cbn [heap set_heap].
      rewrite lookup_insert_ne; [exact H'|]. intros <-. unfold l in H'.
      rewrite fresh_heap_None in H'. discriminate. }
    exists (l :: locs), w'. cbn [collect].
    rewrite (bind_run _ _ _ _ _ (fetch_document_run doc w)). fold l. fold w1.
    rewrite (bind_run _ _ _ _ _ E). unfold ret.
    split; [reflexivity|]. split; [exact Hm|]. split; [exact Hl|]. split; [exact Ht|].
    split; [intros l' d' H'; apply Hext, Hext1, H'|].
    assert (Hl1 : heap w1 !! l = Some (fetched doc)) by apply lookup_insert_eq.
    split; [|split].
    + constructor; [apply fresh_heap_None|].
      eapply Forall_impl; [exact Hfresh|]. intros l' H'. cbn beta in H'.
      destruct (heap w !! l') as [d'|] eqn:E'; [|reflexivity].
      rewrite (Hext1 _ _ E') in H'. discriminate.
    + constructor; [|exact Hnd]. intros Hin.
      rewrite Forall_forall in Hfresh. specialize (Hfresh l Hin).
      rewrite Hl1 in Hfresh. discriminate.
    + constructor; [apply Hext, Hl1 | exact Hh].
Qed.

Lemma holds_extends w w' locs docs : extends w w' -> holds w locs docs -> holds w' locs docs.
Proof.
  intros He H. unfold holds in *. eapply Forall2_impl; [exact H|].
  intros l doc Hl. apply He, Hl.
Qed.

Lemma holds_nil w locs docs : holds w locs docs -> (locs = [] <-> docs = []).
Proof. intros H. inversion H; subst; split; intros; congruence. Qed.

Lemma map_fst_assoc_set {V} (d : list (pystr * V)) k v :
  map fst (assoc_set d k v) = if bool_decide (k ∈ map fst d) then map fst d else map fst d ++ [k].
Proof.
  induction d as [|[k0 v0] d IH]; cbn [assoc_set map fst].
  - case_bool_decide as H; [inversion H | reflexivity].
  - destruct (decide (k0 = k)) as [->|Hne].
    + rewrite (bool_decide_eq_true_2 (k = k)) by reflexivity.
      rewrite bool_decide_eq_true_2 by left. reflexivity.
    + rewrite (bool_decide_eq_false_2 (k0 = k)) by exact Hne.
      cbn [map fst]. rewrite IH. destruct (decide (k ∈ map fst d)) as [Hin|Hin].
      * rewrite (bool_decide_eq_true_2 _ Hin).
        rewrite bool_decide_eq_true_2 by (right; exact Hin). reflexivity.
      * rewrite (bool_decide_eq_false_2 _ Hin).
        rewrite bool_decide_eq_false_2; [reflexivity|].
        intros H. apply elem_of_cons in H as [H|H]; congruence.
Qed.

Lemma elem_of_assoc_set {V} (d : list (pystr * V)) k v k' v' :
  NoDup (map fst d) ->
  (k', v') ∈ assoc_set d k v -> k' = k /\ v' = v \/ k' <> k /\ (k', v') ∈ d.
Proof.
  induction d as [|[k0 v0] d IH]; cbn [assoc_set map fst]; intros Hnd H.
  - apply list_elem_of_singleton in H. inversion H. left. split; reflexivity.
  - apply NoDup_cons in Hnd as [Hk0 Hnd]. destruct (decide (k0 = k)) as [->|Hne].
    + rewrite bool_decide_eq_true_2 in H by reflexivity.
      apply elem_of_cons in H as [H|H].
      * inversion H. left. split; reflexivity.
      * right. split; [|right; exact H]. intros ->. apply Hk0.
        apply list_elem_of_fmap. exists (k, v'). split; [reflexivity | exact H].
    + rewrite bool_decide_eq_false_2 in H by exact Hne.
      apply elem_of_cons in H as [H|H].
      * inversion H; subst. right. split; [congruence | left].
      * destruct (IH Hnd H) as [?|[? ?]]; [left; assumption|].
        right. split; [assumption | right; assumption].
Qed.

(** [_log_audit_event] when [audit_logs] has no unique index of its own. *)
Lemma log_audit_event_run action user_id details w :
  unique_indexes (mongo w) !! py "audit_logs" = None ->
  exists oid w',
    _log_audit_event action user_id details w = (Ok tt, w') /\
    stored w' (py "audit_logs") =
      stored w (py "audit_logs") ++
      [access_entry oid (utcnow_at P (ticks w)) action user_id details] /\
    (forall m, m <> py "audit_logs" -> stored w' m = stored w m) /\
    unique_indexes (mongo w') = unique_indexes (mongo w) /\
    extends w w'.
Proof.
  intros Hu.
  set (now := utcnow_at P (ticks w)).
  set (l := fresh (dom (heap w))).
  set (oid := next_oid (stored w (py "audit_logs")) (oid_seq (mongo w))).
  exists oid. eexists.
  unfold _log_audit_event, try_except.
  unfold bind at 1. unfold utcnow. fold now.
  unfold bind at 1. unfold new_dict. cbn [heap set_ticks]. fold l.
  erewrite bind_run.
  2:{ apply (insert_one_run _ l (List.tl (access_entry oid now action user_id details))).
      - apply lookup_insert_eq.
      - reflexivity.
      - cbn [mongo set_mongo set_heap set_ticks unique_indexes]. rewrite Hu.
        cbn [default clashes existsb]. rewrite orb_false_r. apply next_oid_fresh. }
  unfold ret. split; [reflexivity|].
  split; [|split; [|split]].
  - unfold stored at 1. world_simpl. rewrite lookup_insert_eq. reflexivity.
  - intros m Hm. unfold stored at 1. world_simpl.
    rewrite lookup_insert_ne by congruence. reflexivity.
  - reflexivity.
  - intros l' d' Hl'. world_simpl. rewrite insert_insert_eq.
    rewrite lookup_insert_ne; [exact Hl'|].
    intros <-. unfold l in Hl'. rewrite fresh_heap_None in Hl'. discriminate.
Qed.

Lemma total_log_audit_event action user_id details :
  total (_log_audit_event action user_id details).
Proof. unfold _log_audit_event. apply total_try. intros e. apply total_logger. Qed.

Lemma heap_kept_server_insert name doc : heap_kept (server_insert name doc).
Proof.
  intros w r w' E. unfold server_insert, bind, get_collection, unique_fields in E.
  destruct (clashes _ _ doc); inversion E; reflexivity.
Qed.

Lemma writes_at_insert_one name l : writes_at l (insert_one name l).
Proof.
  assert (Hs : forall doc, heap_kept (server_insert name doc))
    by apply heap_kept_server_insert.
  assert (Ho : heap_kept (new_oid name)) by (intros w r w' E; inversion E; reflexivity).
  unfold insert_one, ensure_id. frame.
Qed.

(** A new dictionary followed by writes to it. *)
Lemma grows_new_dict_then {A} (d : dict) (k : nat -> M A) :
  (forall l, writes_at l (k l)) -> grows (let* l := new_dict d in k l).
Proof.
  intros Hk w. unfold bind at 1. unfold new_dict.
  set (l := fresh (dom (heap w))).
  destruct (k l _) as [r w'] eqn:E.
  destruct (Hk l _ _ _ E) as [dl Hdl]; [simpl; rewrite lookup_insert_eq; eauto|].
  simpl in Hdl. rewrite insert_insert_eq in Hdl.
  apply (extends_fresh _ _ dl). exact Hdl.
Qed.

Lemma grows_log_audit_event action user_id details :
  grows (_log_audit_event action user_id details).
Proof.
  unfold _log_audit_event. apply grows_try; [|intros e; apply grows_heap_kept; frame].
  apply grows_bind; [apply grows_heap_kept; frame|]. intros now.
  apply grows_new_dict_then. intros l.
  pose proof (writes_at_insert_one (py "audit_logs") l). frame.
Qed.

Section Reads.

Variable server_sort : pystr -> Z -> list dict -> list dict.

Lemma get_collection_data_run name filter_query limit sort_field sort_direction w :
  exists locs w',
    get_collection_data server_sort name filter_query limit sort_field sort_direction w
      = (Ok locs, w') /\
    mongo w' = mongo w /\ ticks w' = ticks w /\
    extends w w' /\
    Forall (fun l => heap w !! l = None) locs /\ NoDup locs /\
    holds w' locs
      (selected server_sort filter_query limit sort_field sort_direction (stored w name)).
Proof.
  unfold get_collection_data, try_except.
  unfold bind at 1. unfold get_collection. fold (stored w name).
  fold (selected server_sort filter_query limit sort_field sort_direction (stored w name)).
  destruct (collect_fetch
              (selected server_sort filter_query limit sort_field sort_direction (stored w name)) w)
    as (locs & w' & E & Hm & Hl & Ht & Hext & Hfresh & Hnd & Hh).
  rewrite (bind_run _ _ _ _ _ E). unfold bind, logger, ret.
  do 2 eexists. split; [reflexivity|]. cbn [mongo ticks set_logs].
  repeat split; assumption.
Qed.


(** *** get_student_data *)

(** The two lookups of one collection. *)
Lemma first_match_run name student_id w :
  exists hit w',
    first_match server_sort name student_id id_fields w = (Ok hit, w') /\
    mongo w' = mongo w /\ ticks w' = ticks w /\ extends w w' /\
    match hit with
    | Some locs => student_documents student_id (stored w name) <> [] /\
                   holds w' locs (student_documents student_id (stored w name))
    | None => student_documents student_id (stored w name) = []
    end.
Proof.
  unfold id_fields. cbn [map first_match].
  destruct (get_collection_data_run name (Some [(py "student_id", student_id)]) None None
              DESCENDING w) as (l1 & w1 & E1 & M1 & T1 & X1 & _ & _ & H1).
  rewrite (bind_run _ _ _ _ _ E1).
  unfold selected in H1. cbn [key_given limited default] in H1. unfold id in H1.
  cbv zeta in H1.
  unfold student_documents.
  case_bool_decide as El1.
  - subst l1. apply holds_nil in H1. rewrite (proj1 H1 eq_refl).
    rewrite bool_decide_eq_true_2 by reflexivity.
    destruct (get_collection_data_run name (Some [(py "user_id", student_id)]) None None
                DESCENDING w1) as (l2 & w2 & E2 & M2 & T2 & X2 & _ & _ & H2).
    rewrite (bind_run _ _ _ _ _ E2).
    unfold selected in H2. cbn [key_given limited default] in H2. unfold id in H2.
    cbv zeta in H2.
    assert (S12 : stored w1 name = stored w name) by (unfold stored; rewrite M1; reflexivity).
    rewrite S12 in H2.
    case_bool_decide as El2.
    + subst l2. apply holds_nil in H2. unfold ret. do 2 eexists. split; [reflexivity|].
      split; [congruence|]. split; [congruence|].
      split; [eapply extends_trans; eassumption|]. apply H2. reflexivity.
    + unfold ret. do 2 eexists. split; [reflexivity|].
      split; [congruence|]. split; [congruence|].
      split; [eapply extends_trans; eassumption|].
      split; [|exact H2]. intros Hn. apply El2. apply (holds_nil _ _ _ H2). exact Hn.
  - unfold ret. do 2 eexists. split; [reflexivity|].
    split; [exact M1|]. split; [exact T1|]. split; [exact X1|].
    assert (Hne : List.filter (matches [(py "student_id", student_id)]) (stored w name) <> []).
    { intros Hn. apply El1. apply (holds_nil _ _ _ H1). exact Hn. }
    rewrite bool_decide_eq_false_2 by exact Hne. split; assumption.
Qed.

Lemma collect_student_data_run student_id acc name w :
  exists acc' w',
    collect_student_data server_sort student_id acc name w = (Ok acc', w') /\
    mongo w' = mongo w /\ ticks w' = ticks w /\ extends w w' /\
    (student_documents student_id (stored w name) = [] /\ acc' = acc \/
     student_documents student_id (stored w name) <> [] /\
     exists locs, acc' = assoc_set acc name locs /\
                  holds w' locs (student_documents student_id (stored w name))).
Proof.
  destruct (first_match_run name student_id w) as (hit & w1 & E1 & M1 & T1 & X1 & H1).
  unfold collect_student_data, try_except. rewrite (bind_run _ _ _ _ _ E1).
  destruct hit as [locs|]; unfold ret; do 2 eexists; (split; [reflexivity|]);
    (split; [exact M1|]); (split; [exact T1|]); (split; [exact X1|]).
  - right. destruct H1 as [Hne Hh]. split; [exact Hne|]. exists locs.
    split; [reflexivity | exact Hh].
  - left. split; [exact H1 | reflexivity].
Qed.

(** The loop over the collections; [D] is the content of the collections,
    which the loop does not change. *)
Lemma student_loop_run student_id (D : pystr -> list dict) names : forall done acc w,
  (forall n, stored w n = D n) ->
  NoDup (map fst acc) ->
  (forall n, n ∈ map fst acc <-> n ∈ done /\ student_documents student_id (D n) <> []) ->
  (forall n locs, (n, locs) ∈ acc -> holds w locs (student_documents student_id (D n))) ->
  exists acc' w',
    fold_each names (collect_student_data server_sort student_id) acc w = (Ok acc', w') /\
    mongo w' = mongo w /\ ticks w' = ticks w /\ extends w w' /\
    NoDup (map fst acc') /\
    (forall n, n ∈ map fst acc' <->
               n ∈ done ++ names /\ student_documents student_id (D n) <> []) /\
    (forall n locs, (n, locs) ∈ acc' -> holds w' locs (student_documents student_id (D n))).
Proof.
  induction names as [|name names IH]; intros done acc w HD Hnd Hkeys Hh.
  - exists acc, w. cbn [fold_each]. unfold ret. rewrite app_nil_r.
    split; [reflexivity|]. split; [reflexivity|]. split; [reflexivity|].
    split; [apply extends_refl|]. split; [exact Hnd|]. split; [exact Hkeys | exact Hh].
  - destruct (collect_student_data_run student_id acc name w)
      as (acc1 & w1 & E1 & M1 & T1 & X1 & Hcase).
    rewrite HD in Hcase.
    assert (HD1 : forall n, stored w1 n = D n)
      by (intros n; unfold stored; rewrite M1; apply HD).
    destruct (IH (done ++ [name]) acc1 w1 HD1) as (acc' & w' & E & M & T & X & R).
    + destruct Hcase as [[_ ->]|[_ (locs & -> & _)]]; [exact Hnd|].
      rewrite map_fst_assoc_set. case_bool_decide as Ein; [exact Hnd|].
      apply NoDup_app. split; [exact Hnd|]. split; [|apply NoDup_singleton].
      intros x Hx Hx'. apply list_elem_of_singleton in Hx'. subst x. contradiction.
    + intros n. destruct Hcase as [[He ->]|[Hne (locs & -> & _)]].
      * rewrite Hkeys, elem_of_app, list_elem_of_singleton. split.
        -- intros [? ?]. split; [left|]; assumption.
        -- intros [[?| ->] ?]; [split; assumption | contradiction].
      * rewrite map_fst_assoc_set. case_bool_decide as Ein.
        -- rewrite Hkeys, elem_of_app, list_elem_of_singleton. split.
           ++ intros [? ?]. split; [left|]; assumption.
           ++ intros [[?| ->] ?]; [split; assumption|]. apply Hkeys, Ein.
        -- rewrite !elem_of_app, list_elem_of_singleton, Hkeys. split.
           ++ intros [[? ?]| ->];
                [split; [left|]; assumption | split; [right; reflexivity | exact Hne]].
           ++ intros [[?| ->] ?]; [left; split; assumption | right; reflexivity].
    + intros n locs Hin. destruct Hcase as [[_ ->]|[_ (locs1 & -> & Hh1)]].
      * apply (holds_extends w); [exact X1 | apply Hh, Hin].
      * destruct (elem_of_assoc_set _ _ _ _ _ Hnd Hin) as [[-> ->]|[_ Hin']].
        -- exact Hh1.
        -- apply (holds_extends w); [exact X1 | apply Hh, Hin'].
    + exists acc', w'. cbn [fold_each]. rewrite (bind_run _ _ _ _ _ E1).
      split; [exact E|]. split; [congruence|]. split; [congruence|].
      split; [eapply extends_trans; eassumption|].
      destruct R as (R1 & R2 & R3). split; [exact R1|]. split; [|exact R3].
      intros n. rewrite R2, <- app_assoc. reflexivity.
Qed.

Lemma get_student_data_run student_id include_collections w :
  let names := default default_include_collections include_collections in
  exists student_data w1,
    fold_each names (collect_student_data server_sort student_id) [] w = (Ok student_data, w1) /\
    get_student_data server_sort student_id include_collections w =
      (Ok student_data,
       snd (_log_audit_event (py "student_data_access") student_id
              (py "Accessed data from " ++ str_of_nat (length student_data)
               ++ py " collections") w1)) /\
    mongo w1 = mongo w /\ ticks w1 = ticks w /\ extends w w1 /\
    NoDup (map fst student_data) /\
    (forall n, n ∈ map fst student_data <->
               n ∈ names /\ student_documents student_id (stored w n) <> []) /\
    (forall n locs, (n, locs) ∈ student_data ->
                    holds w1 locs (student_documents student_id (stored w n))).
Proof.
  intros names.
  destruct (student_loop_run student_id (stored w) names [] [] w) as
    (acc & w1 & E & M & T & X & Hnd & Hk & Hh).
  - reflexivity.
  - constructor.
  - intros n. cbn [map]. split; [intros H; inversion H | intros [H _]; inversion H].
  - intros n locs H. inversion H.
  - exists acc, w1. split; [exact E|]. split.
    + unfold get_student_data, try_except. fold names. rewrite (bind_run _ _ _ _ _ E).
      destruct (total_log_audit_event (py "student_data_access") student_id
                  (py "Accessed data from " ++ str_of_nat (length acc) ++ py " collections") w1)
        as ([] & w2 & E2).
      rewrite (bind_run _ _ _ _ _ E2), E2. reflexivity.
    + repeat (split; [assumption|]). assumption.
Qed.

(** X16. [get_student_data] always returns. Its result has one entry for
    each collection asked for in which some document has the identifier as
    its [student_id] or, when none has, as its [user_id], and no other
    entry. The entry holds these documents as [get_collection_data] returns
    them; documents that match by [user_id] are left out as soon as one
    matches by [student_id]. No object that existed is changed. *)
Theorem get_student_data_finds (student_id : value) (include_collections : option (list pystr))
    (w : world) :
  exists student_data w',
    get_student_data server_sort student_id include_collections w = (Ok student_data, w') /\
    extends w w' /\
    NoDup (map fst student_data) /\
    (forall n, n ∈ map fst student_data <->
       n ∈ default default_include_collections include_collections /\
       student_documents student_id (stored w n) <> []) /\
    (forall n locs, (n, locs) ∈ student_data ->
       holds w' locs (student_documents student_id (stored w n))).
Proof.
  destruct (get_student_data_run student_id include_collections w)
    as (acc & w1 & _ & E & _ & _ & X & Hnd & Hk & Hh).
  pose proof (grows_log_audit_event (py "student_data_access") student_id
                (py "Accessed data from " ++ str_of_nat (length acc) ++ py " collections") w1)
    as X2.
  do 2 eexists. split; [exact E|].
  split; [eapply extends_trans; eassumption|].
  split; [exact Hnd|]. split; [exact Hk|].
  intros n locs Hin. apply (holds_extends w1); [exact X2 | apply Hh, Hin].
Qed.


End Reads.

(** ** Bulk inserts *)

Lemma clashes_incl fields (docs docs' : list dict) d :
  (forall x, x ∈ docs -> x ∈ docs') ->
  clashes fields docs d = true -> clashes fields docs' d = true.
Proof.
  intros Hin H. unfold clashes in *.
  apply existsb_exists in H as (f & Hf & H). apply existsb_exists. exists f. split; [exact Hf|].
  apply existsb_exists in H as (x & Hx & H). apply existsb_exists. exists x. split; [|exact H].
  apply list_elem_of_In, Hin, list_elem_of_In, Hx.
Qed.

Lemma clashes_self fields (docs : list dict) d :
  d ∈ docs -> clashes (py "_id" :: fields) docs d = true.
Proof.
  intros H. unfold clashes. cbn [existsb]. apply orb_true_iff. left.
  apply existsb_exists. exists d. split; [apply list_elem_of_In, H|].
  apply bool_decide_eq_true_2. reflexivity.
Qed.

(** The driver gives every document its [_id] first. *)
Lemma ensure_id_run name l d w :
  heap w !! l = Some d ->
  exists d',
    ensure_id name l w =
      (Ok tt, set_heap (<[l := d']> (heap w))
                (set_mongo (Database (collections (mongo w)) (unique_indexes (mongo w))
                              (if dict_has d (py "_id") then oid_seq (mongo w)
                               else next_oid (stored w name) (oid_seq (mongo w)) + 1)) w)) /\
    dict_has d' (py "_id") = true /\
    d' = (if dict_has d (py "_id") then d
          else dict_set d (py "_id")
                 (VOid (next_oid (stored w name) (oid_seq (mongo w))))).
Proof.
  intros Hl. unfold ensure_id. rewrite (bind_run _ _ _ _ _ (contains_run _ _ _ _ Hl)).
  destruct (dict_has d (py "_id")) eqn:Hid.
  - exists d. unfold ret. split; [|split; [exact Hid | reflexivity]].
    rewrite (insert_id _ _ _ Hl). destruct w as [h t dr lg [c i s]]; reflexivity.
  - eexists. rewrite (bind_run _ _ _ _ _ (new_oid_run _ _)).
    erewrite setitem_run by (cbn [heap set_mongo]; exact Hl).
    split; [reflexivity|]. split; [|reflexivity].
    unfold dict_has. rewrite dict_get_set, bool_decide_eq_true_2 by reflexivity. reflexivity.
Qed.

Lemma ensure_ids_run name data : forall w,
  (forall l, l ∈ data -> is_Some (heap w !! l)) ->
  exists w',
    for_each data (ensure_id name) w = (Ok tt, w') /\
    collections (mongo w') = collections (mongo w) /\
    unique_indexes (mongo w') = unique_indexes (mongo w) /\
    logs w' = logs w /\ ticks w' = ticks w /\
    dom (heap w') = dom (heap w) /\
    (forall l, has_id_at w l -> has_id_at w' l) /\
    (forall l, l ∈ data -> has_id_at w' l) /\
    (forall l, l ∉ data -> heap w' !! l = heap w !! l).
Proof.
  induction data as [|l0 data IH]; intros w Hv.
  - exists w. cbn [for_each]. unfold ret. repeat (split; [reflexivity|]).
    split; [auto|]. split; [intros l H; inversion H | reflexivity].
  - destruct (Hv l0 ltac:(left)) as [d0 Hl0].
    destruct (ensure_id_run name l0 d0 w Hl0) as (d0' & E0 & Hid0 & _).
    set (w1 := set_heap (<[l0 := d0']> (heap w)) _) in E0.
    assert (Hdom1 : dom (heap w1) = dom (heap w)).
    { unfold w1. cbn [heap set_heap set_mongo]. apply dom_insert_lookup_L.
      rewrite Hl0. eauto. }
    destruct (IH w1) as (w' & E & C & I & Lg & T & Dm & Hkeep & Hall & Hout).
    { intros l Hl. apply elem_of_dom. rewrite Hdom1. apply elem_of_dom, Hv. right. exact Hl. }
    assert (H01 : has_id_at w1 l0).
    { exists d0'. split; [apply lookup_insert_eq | exact Hid0]. }
    exists w'. cbn [for_each]. rewrite (bind_run _ _ _ _ _ E0).
    split; [exact E|]. split; [rewrite C; reflexivity|]. split; [rewrite I; reflexivity|].
    split; [rewrite Lg; reflexivity|]. split; [rewrite T; reflexivity|].
    split; [rewrite Dm; exact Hdom1|].
    assert (Hstep : forall l, has_id_at w l -> has_id_at w1 l).
    { intros l (d & Hl & Hid). destruct (decide (l = l0)) as [->|Hne]; [exact H01|].
      exists d. split; [|exact Hid]. unfold w1. cbn [heap set_heap set_mongo].
      rewrite lookup_insert_ne by congruence. exact Hl. }
    split; [intros l Hl; apply Hkeep, Hstep, Hl|].
    split.
    + intros l Hl. apply elem_of_cons in Hl as [->|Hl]; [apply Hkeep, H01 | apply Hall, Hl].
    + intros l Hl. apply not_elem_of_cons in Hl as [Hne Hl].
      rewrite (Hout l Hl). unfold w1. cbn [heap set_heap set_mongo].
      apply lookup_insert_ne. congruence.
Qed.

(** The attempts of an unordered bulk insert: every document is sent, and
    afterwards each is either stored or refused by a unique index, against
    a stored document. *)
Lemma attempts_run name data : forall w,
  (forall l, l ∈ data -> is_Some (heap w !! l)) ->
  let fields := py "_id" :: default [] (unique_indexes (mongo w) !! name) in
  exists results w',
    collect data (fun document =>
      let* d := deref document in
      try_except (server_insert name (bson_doc d) ;;; ret (Some (doc_field d (py "_id"))))
                 (fun _ => ret None)) w = (Ok results, w') /\
    heap w' = heap w /\ logs w' = logs w /\ ticks w' = ticks w /\
    unique_indexes (mongo w') = unique_indexes (mongo w) /\
    length results = length data /\
    (forall x, x ∈ stored w name -> x ∈ stored w' name) /\
    (forall m, m <> name -> stored w' m = stored w m) /\
    (forall l d, l ∈ data -> heap w !! l = Some d ->
       clashes fields (stored w' name) (bson_doc d) = true).
Proof.
  induction data as [|l0 data IH]; intros w Hv fields.
  - exists [], w. cbn [collect]. unfold ret. repeat (split; [reflexivity|]).
    split; [auto|]. split; [auto|]. intros l d H. inversion H.
  - destruct (Hv l0 ltac:(left)) as [d0 Hl0].
    assert (E0 : exists r0 w1,
      (let* d := deref l0 in
       try_except (server_insert name (bson_doc d) ;;; ret (Some (doc_field d (py "_id"))))
                  (fun _ => ret None)) w = (Ok r0, w1) /\
      heap w1 = heap w /\ logs w1 = logs w /\ ticks w1 = ticks w /\
      unique_indexes (mongo w1) = unique_indexes (mongo w) /\
      (forall x, x ∈ stored w name -> x ∈ stored w1 name) /\
      (forall m, m <> name -> stored w1 m = stored w m) /\
      clashes fields (stored w1 name) (bson_doc d0) = true).
    { unfold bind at 1. unfold deref. rewrite Hl0. unfold try_except.
      destruct (clashes fields (stored w name) (bson_doc d0)) eqn:Ec.
      - rewrite (bind_raise _ _ _ _ _ (server_insert_clash _ _ _ Ec)).
        unfold ret. exists None, w. repeat (split; [reflexivity|]).
        split; [auto|]. split; [auto | exact Ec].
      - rewrite (bind_run _ _ _ _ _ (server_insert_run _ _ _ Ec)).
        unfold ret. do 2 eexists. split; [reflexivity|].
        repeat (split; [reflexivity|]).
        split; [|split].
        + intros x Hx. rewrite stored_put, bool_decide_eq_true_2 by reflexivity.
          apply elem_of_app. left. exact Hx.
        + intros m Hm. rewrite stored_put, bool_decide_eq_false_2 by congruence. reflexivity.
        + rewrite stored_put, bool_decide_eq_true_2 by reflexivity.
          apply clashes_self. apply elem_of_app. right. left. }
    destruct E0 as (r0 & w1 & E0 & H1 & L1 & T1 & I1 & K1 & O1 & C1).
    destruct (IH w1) as (rs & w' & E & H2 & L2 & T2 & I2 & Len & K2 & O2 & C2).
    { intros l Hl. rewrite H1. apply Hv. right. exact Hl. }
    exists (r0 :: rs), w'. cbn [collect]. rewrite (bind_run _ _ _ _ _ E0).
    rewrite (bind_run _ _ _ _ _ E). unfold ret.
    split; [reflexivity|]. split; [congruence|]. split; [congruence|]. split; [congruence|].
    split; [congruence|]. split; [cbn [length]; congruence|].
    split; [intros x Hx; apply K2, K1, Hx|].
    split; [intros m Hm; rewrite (O2 m Hm); apply O1, Hm|].
    intros l d Hl Hd. rewrite I1 in C2. fold fields in C2.
    apply elem_of_cons in Hl as [->|Hl].
    + rewrite Hl0 in Hd. inversion Hd; subst d.
      apply (clashes_incl _ _ _ _ K2 C1).
    + apply (C2 l d Hl). rewrite H1. exact Hd.
Qed.

(** When every record has its [_id] and is stored or refused already, the
    one-by-one loop that follows a failed bulk insert inserts nothing and
    counts nothing. *)
Lemma insert_documents_all_skipped name data : forall c w,
  (forall l, l ∈ data -> exists d, heap w !! l = Some d /\ dict_has d (py "_id") = true /\
     clashes (py "_id" :: default [] (unique_indexes (mongo w) !! name)) (stored w name)
       (bson_doc d) = true) ->
  fold_each data (insert_document name) c w = (Ok c, w).
Proof.
  induction data as [|l0 data IH]; intros c w H; [reflexivity|].
  destruct (H l0 ltac:(left)) as (d & Hl & Hid & Hc).
  assert (E0 : insert_document name c l0 w = (Ok c, w)).
  { unfold insert_document, try_except, insert_one.
    assert (E1 : ensure_id name l0 w = (Ok tt, w)).
    { unfold ensure_id. rewrite (bind_run _ _ _ _ _ (contains_run _ _ _ _ Hl)).
      rewrite Hid. reflexivity. }
    unfold bind at 1. unfold bind at 1. rewrite E1.
    unfold bind at 1. unfold deref. rewrite Hl.
    rewrite (bind_raise _ _ _ _ _ (server_insert_clash _ _ _ Hc)). reflexivity. }
  cbn [fold_each]. rewrite (bind_run _ _ _ _ _ E0). apply IH.
  intros l Hin. apply H. right. exact Hin.
Qed.

Lemma omap_all_some {A} (results : list (option A)) :
  forallb (fun r => match r with Some _ => true | None => false end) results = true ->
  length (omap id results) = length results.
Proof.
  induction results as [|[a|] rs IH]; cbn [forallb]; intros H.
  - reflexivity.
  - cbn [andb] in H. change (S (length (omap id rs)) = S (length rs)).
    f_equal. apply IH, H.
  - discriminate.
Qed.

(** [insert_many] on records that are objects: it returns the identifiers
    of all, or raises [BulkWriteError]; either way every record has its
    [_id] afterwards and is stored or refused against a stored document. *)
Lemma insert_many_run name data w :
  (forall l, l ∈ data -> is_Some (heap w !! l)) ->
  exists r w2,
    insert_many name data w = (r, w2) /\
    (r = Raise BulkWriteError \/ exists ids, r = Ok ids /\ length ids = length data) /\
    logs w2 = logs w /\ ticks w2 = ticks w /\
    unique_indexes (mongo w2) = unique_indexes (mongo w) /\
    (forall x, x ∈ stored w name -> x ∈ stored w2 name) /\
    (forall m, m <> name -> stored w2 m = stored w m) /\
    dom (heap w2) = dom (heap w) /\
    (forall l, l ∉ data -> heap w2 !! l = heap w !! l) /\
    (forall l, l ∈ data -> exists d, heap w2 !! l = Some d /\ dict_has d (py "_id") = true /\
       clashes (py "_id" :: default [] (unique_indexes (mongo w) !! name)) (stored w2 name)
         (bson_doc d) = true).
Proof.
  intros Hv.
  destruct (ensure_ids_run name data w Hv) as (w1 & E1 & C1 & I1 & L1 & T1 & D1 & _ & Hid & O1).
  destruct (attempts_run name data w1) as (rs & w2 & E2 & H2 & L2 & T2 & I2 & Len & K2 & O2 & C2).
  { intros l Hl. destruct (Hid l Hl) as (d & Hd & _). rewrite Hd. eauto. }
  assert (S1 : forall m, stored w1 m = stored w m)
    by (intros m; unfold stored; rewrite C1; reflexivity).
  unfold insert_many. rewrite (bind_run _ _ _ _ _ E1), (bind_run _ _ _ _ _ E2).
  assert (Rest :
    logs w2 = logs w /\ ticks w2 = ticks w /\
    unique_indexes (mongo w2) = unique_indexes (mongo w) /\
    (forall x, x ∈ stored w name -> x ∈ stored w2 name) /\
    (forall m, m <> name -> stored w2 m = stored w m) /\
    dom (heap w2) = dom (heap w) /\
    (forall l, l ∉ data -> heap w2 !! l = heap w !! l) /\
    (forall l, l ∈ data -> exists d, heap w2 !! l = Some d /\ dict_has d (py "_id") = true /\
       clashes (py "_id" :: default [] (unique_indexes (mongo w) !! name)) (stored w2 name)
         (bson_doc d) = true)).
  { split; [congruence|]. split; [congruence|]. split; [congruence|].
    split; [intros x Hx; apply K2; rewrite S1; exact Hx|].
    split; [intros m Hm; rewrite (O2 m Hm); apply S1|].
    split; [rewrite H2; exact D1|].
    split; [intros l Hl; rewrite H2; apply O1, Hl|].
    intros l Hl. destruct (Hid l Hl) as (d & Hd & Hi).
    exists d. split; [rewrite H2; exact Hd|]. split; [exact Hi|].
    rewrite <- I1. apply (C2 l d Hl Hd). }
  destruct (forallb _ rs) eqn:Ef.
  - exists (Ok (omap id rs)), w2. split; [reflexivity|]. split; [|exact Rest].
    right. exists (omap id rs). split; [reflexivity|].
    exact (eq_trans (omap_all_some _ Ef) Len).
  - exists (Raise BulkWriteError), w2. split; [reflexivity|]. split; [|exact Rest].
    left. reflexivity.
Qed.

Lemma grows_log_data_operation name op t i u : grows (_log_data_operation name op t i u).
Proof.
  unfold _log_data_operation. apply grows_try; [|intros e; apply grows_heap_kept; frame].
  apply grows_bind; [apply grows_heap_kept; frame|]. intros now.
  apply grows_new_dict_then. intros l.
  pose proof (writes_at_insert_one (py "audit_logs") l). frame.
Qed.


(** ** Storing, then reading *)

Lemma next_oid_above docs n : oids_below n docs -> next_oid docs n = n.
Proof.
  induction docs as [|d docs IH]; intros H; [reflexivity|].
  cbn [next_oid fold_right]. fold (next_oid docs n).
  rewrite IH by (intros x m Hx; apply H; right; exact Hx).
  destruct (dict_get d (py "_id")) as [[| | | | |m]|] eqn:E; try reflexivity.
  pose proof (H d m ltac:(left) E). lia.
Qed.

Lemma oids_below_next docs seq : oids_below (next_oid docs seq) docs.
Proof. intros d m Hd E. exact (next_oid_ge docs seq d m Hd E). Qed.

Lemma oids_below_succ n docs : oids_below n docs -> oids_below (n + 1) docs.
Proof. intros H d m Hd E. pose proof (H d m Hd E). lia. Qed.

Lemma Forall2_impl_in {A B} (R R' : A -> B -> Prop) (xs : list A) (ys : list B) :
  Forall2 R xs ys -> (forall x y, x ∈ xs -> R x y -> R' x y) -> Forall2 R' xs ys.
Proof.
  induction 1 as [|x y xs ys Hxy H IH]; intros Himp; constructor.
  - apply Himp; [left | exact Hxy].
  - apply IH. intros x' y' Hx'. apply Himp. right. exact Hx'.
Qed.

(** Records without [_id] at different objects get the identifiers
    [n], [n + 1], ... in turn. *)
Lemma ensure_ids_fresh name data : forall ds n w,
  NoDup data ->
  Forall2 (fun l d => heap w !! l = Some d /\ dict_get d (py "_id") = None) data ds ->
  next_oid (stored w name) (oid_seq (mongo w)) = n ->
  exists w',
    for_each data (ensure_id name) w = (Ok tt, w') /\
    collections (mongo w') = collections (mongo w) /\
    unique_indexes (mongo w') = unique_indexes (mongo w) /\
    Forall2 (fun l d => heap w' !! l = Some d) data (with_ids n ds) /\
    (forall l, l ∉ data -> heap w' !! l = heap w !! l).
Proof.
  induction data as [|l0 data IH]; intros ds n w Hnd Hf Hn.
  - inversion Hf; subst. exists w. cbn [for_each with_ids]. unfold ret.
    repeat (split; [reflexivity|]). split; [constructor | reflexivity].
  - inversion Hf as [|? d0 ? ds' [Hl0 Hid0] Hf']; subst.
    apply NoDup_cons in Hnd as [Hnot Hnd].
    destruct (ensure_id_run name l0 d0 w Hl0) as (d0' & E0 & _ & Hd0').
    unfold dict_has in E0, Hd0'. rewrite Hid0 in E0, Hd0'. cbn [is_Some_dec bool_decide] in *.
    set (n := next_oid (stored w name) (oid_seq (mongo w))) in *.
    set (w1 := set_heap _ _) in E0.
    destruct (IH ds' (n + 1) w1 Hnd) as (w' & E & C & I & Hall & Hout).
    + apply (Forall2_impl_in _ _ _ _ Hf').
      intros l d Hl [H1 H2]. split; [|exact H2]. unfold w1. cbn [heap set_heap set_mongo].
      rewrite lookup_insert_ne; [exact H1|]. intros <-. contradiction.
    + unfold w1. cbn [mongo set_heap set_mongo oid_seq].
      change (stored _ name) with (stored w name).
      apply next_oid_above, oids_below_succ, oids_below_next.
    + exists w'. cbn [for_each with_ids]. rewrite (bind_run _ _ _ _ _ E0).
      split; [exact E|]. split; [rewrite C; reflexivity|]. split; [rewrite I; reflexivity|].
      split.
      * constructor; [|exact Hall]. rewrite (Hout l0 Hnot). unfold w1.
        cbn [heap set_heap set_mongo]. rewrite lookup_insert_eq, Hd0'. reflexivity.
      * intros l Hl. apply not_elem_of_cons in Hl as [Hne Hl]. rewrite (Hout l Hl).
        unfold w1. cbn [heap set_heap set_mongo]. apply lookup_insert_ne. congruence.
Qed.

Lemma no_clash_fresh_oid (docs : list dict) n (d : dict) :
  oids_below n docs -> clashes [py "_id"] docs ((py "_id", VOid n) :: d) = false.
Proof.
  intros Hb. unfold clashes. cbn [existsb]. rewrite orb_false_r.
  apply not_true_is_false. intros H. apply existsb_exists in H as (x & Hx & H).
  apply bool_decide_eq_true in H. apply list_elem_of_In in Hx.
  unfold doc_field in H. cbn [dict_get] in H.
  rewrite bool_decide_eq_true_2 in H by reflexivity.
  destruct (dict_get x (py "_id")) as [v|] eqn:E; simpl in H; [|discriminate].
  subst v. pose proof (Hb x n Hx E). lia.
Qed.

(** With no unique index but that of [_id], the server takes each of them,
    in turn. *)
Lemma attempts_fresh name data : forall ds n w,
  Forall2 (fun l d => heap w !! l = Some d) data (with_ids n ds) ->
  Forall (fun d => dict_get d (py "_id") = None) ds ->
  unique_indexes (mongo w) !! name = None ->
  oids_below n (stored w name) ->
  exists results w',
    collect data (fun document =>
      let* d := deref document in
      try_except (server_insert name (bson_doc d) ;;; ret (Some (doc_field d (py "_id"))))
                 (fun _ => ret None)) w = (Ok results, w') /\
    forallb (fun r => match r with Some _ => true | None => false end) results = true /\
    length results = length data /\
    heap w' = heap w /\ logs w' = logs w /\ ticks w' = ticks w /\
    unique_indexes (mongo w') = unique_indexes (mongo w) /\
    stored w' name = stored w name ++ new_documents n ds /\
    (forall m, m <> name -> stored w' m = stored w m).
Proof.
  induction data as [|l0 data IH]; intros ds n w Hf Hno Hu Hb.
  - destruct ds; [|inversion Hf]. exists [], w. cbn [collect new_documents]. unfold ret.
    rewrite app_nil_r. repeat (split; [reflexivity|]). reflexivity.
  - destruct ds as [|d0 ds]; [inversion Hf|]. cbn [with_ids] in Hf.
    inversion Hf as [|? ? ? ? Hl0 Hf']; subst.
    inversion Hno as [|? ? Hid0 Hno']; subst.
    assert (Hc : clashes (py "_id" :: default [] (unique_indexes (mongo w) !! name))
                   (stored w name) ((py "_id", VOid n) :: d0) = false)
      by (rewrite Hu; apply no_clash_fresh_oid, Hb).
    pose proof (server_insert_run name _ w Hc) as E0.
    set (w1 := set_mongo _ w) in E0.
    assert (S1 : stored w1 name = stored w name ++ [(py "_id", VOid n) :: d0]).
    { unfold w1. rewrite stored_put, bool_decide_eq_true_2 by reflexivity. reflexivity. }
    destruct (IH ds (n + 1) w1) as (rs & w' & E & Hall & Len & H2 & L2 & T2 & I2 & S2 & O2).
    + exact Hf'.
    + exact Hno'.
    + exact Hu.
    + rewrite S1. intros x m Hx Ex. apply elem_of_app in Hx as [Hx|Hx].
      * pose proof (Hb x m Hx Ex). lia.
      * apply list_elem_of_singleton in Hx. subst x. cbn [dict_get] in Ex.
        rewrite bool_decide_eq_true_2 in Ex by reflexivity. inversion Ex. lia.
    + exists (Some (doc_field (dict_set d0 (py "_id") (VOid n)) (py "_id")) :: rs), w'.
      cbn [collect]. unfold bind at 1. unfold bind at 1. unfold deref. rewrite Hl0.
      rewrite (bson_doc_new_id _ _ Hid0). unfold try_except.
      rewrite (bind_run _ _ _ _ _ E0). unfold ret at 1.
      rewrite (bind_run _ _ _ _ _ E). unfold ret.
      split; [reflexivity|]. split; [exact Hall|]. split; [cbn [length]; congruence|].
      split; [exact H2|]. split; [exact L2|]. split; [exact T2|]. split; [exact I2|].
      split.
      * rewrite S2, S1, <- app_assoc. reflexivity.
      * intros m Hm. rewrite (O2 m Hm). unfold w1.
        rewrite stored_put, bool_decide_eq_false_2 by congruence. reflexivity.
Qed.

Lemma filter_matches_all (docs : list dict) : List.filter (matches []) docs = docs.
Proof. induction docs as [|d docs IH]; [reflexivity|]. cbn. f_equal. exact IH. Qed.


(** ** From the anonymizer to the store *)

Lemma id_not_pii f : f ∈ py "student_id" :: pii_fields -> py "_id" <> f.
Proof.
  intros Hf <-.
  assert (H : py "_id" ∉ py "student_id" :: pii_fields) by by_compute.
  exact (H Hf).
Qed.

Lemma anonymous_set_id (d : dict) v : anonymous d -> anonymous (dict_set d (py "_id") v).
Proof.
  intros [Hs Hp]. split.
  - rewrite dict_get_set, bool_decide_eq_false_2 by (apply id_not_pii; left). exact Hs.
  - intros f Hf.
    rewrite dict_get_set, bool_decide_eq_false_2 by (apply id_not_pii; right; exact Hf).
    apply Hp, Hf.
Qed.

Lemma anonymous_bson_doc (d : dict) : anonymous d -> anonymous (bson_doc d).
Proof.
  intros [Hs Hp]. unfold bson_doc.
  destruct (dict_get d (py "_id")) as [i|]; [|split; assumption].
  split.
  - cbn [dict_get]. rewrite bool_decide_eq_false_2 by (apply id_not_pii; left).
    rewrite dict_get_del, bool_decide_eq_false_2 by (apply id_not_pii; left). exact Hs.
  - intros f Hf. cbn [dict_get].
    rewrite bool_decide_eq_false_2 by (apply id_not_pii; right; exact Hf).
    rewrite dict_get_del, bool_decide_eq_false_2 by (apply id_not_pii; right; exact Hf).
    apply Hp, Hf.
Qed.

Lemma anonymous_audit_entry oid now op name t i u :
  anonymous (audit_entry oid now op name t i u).
Proof.
  split; [reflexivity|]. intros f Hf.
  repeat (apply elem_of_cons in Hf as [->|Hf]; [reflexivity|]). inversion Hf.
Qed.

Section Adds.

Variable records : list nat.

Lemma adds_bind {A B} (m : M A) (k : A -> M B) :
  adds_anonymous records m -> (forall a, adds_anonymous records (k a)) ->
  adds_anonymous records (bind m k).
Proof.
  intros Hm Hk w Hw. destruct (Hm w Hw) as [H1 S1]. unfold bind.
  destruct (m w) as [[a|e] w1]; cbn [snd] in *; [|split; assumption].
  destruct (Hk a w1 H1) as [H2 S2]. split; [exact H2|].
  intros n x Hx. destruct (S2 n x Hx) as [H|H]; [apply S1, H | right; exact H].
Qed.

Lemma adds_try {A} (m : M A) (h : exn -> M A) :
  adds_anonymous records m -> (forall e, adds_anonymous records (h e)) ->
  adds_anonymous records (try_except m h).
Proof.
  intros Hm Hh w Hw. destruct (Hm w Hw) as [H1 S1]. unfold try_except.
  destruct (m w) as [[a|e] w1]; cbn [snd] in *; [split; assumption|].
  destruct (Hh e w1 H1) as [H2 S2]. split; [exact H2|].
  intros n x Hx. destruct (S2 n x Hx) as [H|H]; [apply S1, H | right; exact H].
Qed.

Lemma adds_kept {A} (m : M A) : heap_kept m -> db_kept m -> adds_anonymous records m.
Proof.
  intros Hh Hd w Hw. destruct (m w) as [r w'] eqn:E. cbn [snd].
  pose proof (Hh _ _ _ E) as H1. destruct (Hd _ _ _ E) as [_ H2]. split.
  - intros l Hl. rewrite H1. apply Hw, Hl.
  - intros n x Hx. left. unfold stored in *. rewrite <- H2. exact Hx.
Qed.

Lemma adds_ret {A} (a : A) : adds_anonymous records (ret a).
Proof. intros w Hw. split; [exact Hw | intros n x Hx; left; exact Hx]. Qed.

Lemma adds_raise {A} e : adds_anonymous records (@raise A e).
Proof. intros w Hw. split; [exact Hw | intros n x Hx; left; exact Hx]. Qed.

Lemma adds_logger lv t c : adds_anonymous records (logger lv t c).
Proof. intros w Hw. split; [exact Hw | intros n x Hx; left; exact Hx]. Qed.

Lemma adds_for_each (xs : list nat) (body : nat -> M unit) :
  (forall x, adds_anonymous records (body x)) -> adds_anonymous records (for_each xs body).
Proof.
  intros H. induction xs as [|x xs IH]; cbn [for_each]; [apply adds_ret|].
  apply adds_bind; [apply H | intros _; exact IH].
Qed.

Lemma adds_collect {B} (xs : list nat) (f : nat -> M B) :
  (forall x, x ∈ xs -> adds_anonymous records (f x)) -> adds_anonymous records (collect xs f).
Proof.
  induction xs as [|x xs IH]; intros H; cbn [collect]; [apply adds_ret|].
  apply adds_bind; [apply H; left|]. intros y.
  apply adds_bind; [apply IH; intros x' Hx'; apply H; right; exact Hx'|].
  intros ys. apply adds_ret.
Qed.

Lemma adds_fold_each {S} (xs : list nat) (body : S -> nat -> M S) : forall c,
  (forall c x, x ∈ xs -> adds_anonymous records (body c x)) ->
  adds_anonymous records (fold_each xs body c).
Proof.
  induction xs as [|x xs IH]; intros c H; cbn [fold_each]; [apply adds_ret|].
  apply adds_bind; [apply H; left|]. intros c'.
  apply IH. intros c'' x' Hx'. apply H. right. exact Hx'.
Qed.

(** The driver's [_id] leaves a record anonymous. *)
Lemma adds_ensure_id name l : adds_anonymous records (ensure_id name l).
Proof.
  intros w Hw. destruct (heap w !! l) as [d|] eqn:Hl.
  - destruct (ensure_id_run name l d w Hl) as (d' & E & _ & Hd'). rewrite E. cbn [snd]. split.
    + intros l' Hl'. cbn [heap set_heap set_mongo].
      destruct (decide (l' = l)) as [->|Hne].
      * rewrite lookup_insert_eq. exists d'. split; [reflexivity|].
        destruct (Hw l Hl') as (d0 & Hd0 & Ha). rewrite Hl in Hd0. inversion Hd0; subst d0.
        rewrite Hd'. destruct (dict_has d (py "_id")); [exact Ha | apply anonymous_set_id, Ha].
      * rewrite lookup_insert_ne by congruence. apply Hw, Hl'.
    + intros n x Hx. left. exact Hx.
  - unfold ensure_id, contains, bind, deref. rewrite Hl. cbn [snd].
    split; [exact Hw | intros n x Hx; left; exact Hx].
Qed.

Lemma adds_server_insert name (doc : dict) :
  anonymous doc -> adds_anonymous records (server_insert name doc).
Proof.
  intros Ha w Hw.
  destruct (clashes (py "_id" :: default [] (unique_indexes (mongo w) !! name))
              (stored w name) doc) eqn:Ec.
  - rewrite (server_insert_clash _ _ _ Ec). cbn [snd].
    split; [exact Hw | intros n x Hx; left; exact Hx].
  - rewrite (server_insert_run _ _ _ Ec). cbn [snd]. split; [exact Hw|].
    intros n x Hx. rewrite stored_put in Hx. case_bool_decide; [|left; exact Hx].
    subst n. apply elem_of_app in Hx as [Hx|Hx]; [left; exact Hx|].
    apply list_elem_of_singleton in Hx. subst x. right. exact Ha.
Qed.

(** What is read from a record is anonymous. *)
Lemma adds_deref_then {A} l (k : dict -> M A) :
  l ∈ records -> (forall d, anonymous d -> adds_anonymous records (k d)) ->
  adds_anonymous records (let* d := deref l in k d).
Proof.
  intros Hl Hk w Hw. destruct (Hw l Hl) as (d & Hd & Ha).
  assert (E : (let* d := deref l in k d) w = k d w)
    by (unfold bind, deref; rewrite Hd; reflexivity).
  rewrite E. apply (Hk d Ha w Hw).
Qed.

Lemma adds_insert_one name l : l ∈ records -> adds_anonymous records (insert_one name l).
Proof.
  intros Hl. unfold insert_one.
  apply adds_bind; [apply adds_ensure_id|]. intros _.
  apply adds_deref_then; [exact Hl|]. intros d Ha.
  apply adds_bind; [apply adds_server_insert, anonymous_bson_doc, Ha|].
  intros _. apply adds_ret.
Qed.

Lemma adds_insert_many name data :
  (forall l, l ∈ data -> l ∈ records) -> adds_anonymous records (insert_many name data).
Proof.
  intros Hsub. unfold insert_many.
  apply adds_bind; [apply adds_for_each; intros l; apply adds_ensure_id|]. intros _.
  apply adds_bind.
  - apply adds_collect. intros l Hl. apply adds_deref_then; [apply Hsub, Hl|]. intros d Ha.
    apply adds_try; [|intros e; apply adds_ret].
    apply adds_bind; [apply adds_server_insert, anonymous_bson_doc, Ha|].
    intros _. apply adds_ret.
  - intros results. destruct (forallb _ results); [apply adds_ret | apply adds_raise].
Qed.

Lemma adds_insert_all name data :
  (forall l, l ∈ data -> l ∈ records) -> adds_anonymous records (insert_all name data).
Proof.
  intros Hsub. unfold insert_all. apply adds_try.
  - apply adds_bind; [apply adds_insert_many, Hsub|]. intros ids. apply adds_ret.
  - intros e. apply adds_bind; [apply adds_logger|]. intros _.
    apply adds_fold_each. intros c l Hl. unfold insert_document.
    apply adds_try.
    + apply adds_bind; [apply adds_insert_one, Hsub, Hl|]. intros _. apply adds_ret.
    + intros [] ; try apply adds_ret;
        (apply adds_bind; [apply adds_logger | intros _; apply adds_ret]).
Qed.

(** The audit entry names no student. *)
Lemma adds_log_data_operation name op t i u :
  adds_anonymous records (_log_data_operation name op t i u).
Proof.
  intros w Hw. split.
  - intros l Hl. destruct (Hw l Hl) as (d & Hd & Ha). exists d. split; [|exact Ha].
    apply (grows_log_data_operation name op t i u w), Hd.
  - set (l := fresh (dom (heap w))).
    set (now := utcnow_at P (ticks w)).
    set (oid := next_oid (stored w (py "audit_logs")) (oid_seq (mongo w))).
    assert (Ed : _log_data_operation name op t i u w =
      let wn := set_heap (<[l := List.tl (audit_entry oid now op name t i u)]> (heap w))
                  (set_ticks (S (ticks w)) w) in
      match insert_one (py "audit_logs") l wn with
      | (Ok _, w') => (Ok tt, w')
      | (Raise e, w') =>
          (Ok tt, set_logs (logs w' ++ [Log ERROR (py "Failed to log data operation: ")
                                          (Some e)]) w')
      end).
    { unfold _log_data_operation, try_except, bind, utcnow, new_dict, logger, ret.
      cbn [heap set_ticks]. fold l. fold now. cbv zeta.
      destruct (insert_one _ l _) as [[v|e] w']; reflexivity. }
    rewrite Ed. cbv zeta.
    rewrite (insert_one_new (py "audit_logs") l (List.tl (audit_entry oid now op name t i u)))
      by (first [apply lookup_insert_eq | reflexivity]).
    cbn [heap mongo set_heap set_mongo set_ticks collections unique_indexes oid_seq].
    fold (stored w (py "audit_logs")). fold oid.
    destruct (clashes _ _ _); cbn [snd]; intros n x Hx.
    + left. exact Hx.
    + unfold stored in Hx.
      cbn [mongo set_mongo set_heap set_ticks set_logs collections] in Hx.
      destruct (decide (n = py "audit_logs")) as [->|Hne].
      * rewrite lookup_insert_eq in Hx. simpl in Hx.
        apply elem_of_app in Hx as [Hx|Hx]; [left; exact Hx|].
        apply list_elem_of_singleton in Hx. subst x. right.
        apply (anonymous_audit_entry oid now op name t i u).
      * rewrite lookup_insert_ne in Hx by congruence. left. exact Hx.
Qed.

Lemma adds_store_data name data :
  (forall l, l ∈ data -> l ∈ records) -> adds_anonymous records (store_data name data None).
Proof.
  intros Hsub. unfold store_data. cbn [key_given].
  destruct (bool_decide (data = [])).
  - apply adds_bind; [apply adds_logger | intros _; apply adds_ret].
  - apply adds_try.
    + apply adds_bind; [apply adds_insert_all, Hsub|]. intros c.
      apply adds_bind; [apply adds_log_data_operation|]. intros _.
      apply adds_bind; [apply adds_logger | intros _; apply adds_ret].
    + intros e. apply adds_bind; [apply adds_logger | intros _; apply adds_raise].
Qed.

End Adds.

(** X20. What the attendance and the library task store is anonymous.
    When [anonymize_attendance_data] or [anonymize_library_data] has
    returned records and these objects are untouched since, a [store_data]
    of them without upsert key, into whatever collection and whether its
    writes succeed or not, adds to the database only documents that have
    no [student_id] and none of the PII fields: every document of every
    collection afterwards was there before or is such a document. *)
Theorem stored_usage_data_is_anonymous (records : list nat) (w : world) (outs : list nat)
    (w1 w2 : world) (name : pystr) :
  anonymization_enabled self = true ->
  records_in w records ->
  anonymize_attendance_data records w = (Ok outs, w1) \/
  anonymize_library_data records w = (Ok outs, w1) ->
  (forall o, o ∈ outs -> heap w2 !! o = heap w1 !! o) ->
  forall n x, x ∈ stored (snd (store_data name outs None w2)) n ->
    x ∈ stored w2 n \/
    dict_get x (py "student_id") = None /\ forall f, f ∈ pii_fields -> dict_get x f = None.
Proof.
  intros Hen Hin E Hsame.
  assert (Hrun : exists w0, collect records anonymize_usage_record w = (Ok outs, w0) /\
                            heap w1 = heap w0).
  { destruct E as [E|E];
      [unfold anonymize_attendance_data in E | unfold anonymize_library_data in E];
      rewrite Hen in E; cbn [negb] in E; cbv iota in E.
    - exact (usage_data_Ok
               (fun n => py "Anonymized " ++ str_of_nat n ++ py " attendance records")
               _ _ _ _ _ E).
    - exact (usage_data_Ok
               (fun n => py "Anonymized " ++ str_of_nat n ++ py " library records")
               _ _ _ _ _ E). }
  destruct Hrun as (w0 & E0 & Hh).
  pose proof (collect_usage_spec _ _ _ _ Hin E0) as F.
  assert (Hw2 : anonymous_at outs w2).
  { intros o Ho. rewrite (Hsame o Ho), Hh.
    unfold records_in in Hin. clear -F Hin Ho.
    induction F as [|s o' records outs Hso F IH].
    - inversion Ho.
    - inversion Hin as [|? ? (d & Hd & _) Hin']; subst.
      apply elem_of_cons in Ho as [->|Ho]; [|exact (IH Hin' Ho)].
      destruct (Hso d Hd) as (d' & Hd' & Hrec). exists d'. split; [exact Hd'|].
      destruct (usage_record_lookups _ _ Hrec) as (H1 & H2 & _). split; assumption. }
  destruct (adds_store_data outs name outs (fun l Hl => Hl) w2 Hw2) as [_ H].
  exact H.
Qed.

End Pipeline.

(** * Examples *)

Example sha256_abc :
  SHA256.hexdigest [97; 98; 99] =
  py "ba7816bf8f01cfea414140de5dae2223b00361a396177a9cb410ff61f20015ad".
Proof. vm_compute. reflexivity. Qed.

Example md5_abc : MD5.hexdigest [97; 98; 99] = py "900150983cd24fb0d6963f7d28e17f72".
Proof. vm_compute. reflexivity. Qed.

Example b64encode_hello : b64encode (py "hello!!") = py "aGVsbG8hIQ==".
Proof. vm_compute. reflexivity. Qed.

Example utf8_round :
  encode [0x20ac; 0x41; 0x1f600] = Some [0xe2; 0x82; 0xac; 0x41; 0xf0; 0x9f; 0x98; 0x80] /\
  decode [0xe2; 0x82; 0xac; 0x41; 0xf0; 0x9f; 0x98; 0x80] = Some [0x20ac; 0x41; 0x1f600].
Proof. vm_compute. auto. Qed.

Example str_of_Z_examples :
  str_of_Z (-120) = py "-120" /\ str_of_Z 0 = py "0" /\ str_of_nat 12 = py "12".
Proof. vm_compute. auto. Qed.

Example anonymize_two_records :
  fst (anonymize_student_data demo_platform demo_self [0%nat; 1%nat] demo_world) = Ok [4%nat; 5%nat].
Proof. vm_compute. reflexivity. Qed.

Example sha256_constants :
  length SHA256.K = 64%nat /\ nth 0 SHA256.K 0 = 0x428a2f98 /\
  nth 63 SHA256.K 0 = 0xc67178f2 /\ SHA256.ra SHA256.H0 = 0x6a09e667 /\
  SHA256.rh SHA256.H0 = 0x5be0cd19.
Proof. vm_compute. auto. Qed.

Example sha256_two_blocks :
  SHA256.hexdigest (repeat 97 70) =
  py "6bd5e5034855a11241f0dee8fc72850ffd9955b28347a86428b5fa19119f6ad0".
Proof. vm_compute. reflexivity. Qed.

Example isoformat_examples :
  isoformat 63844847999000005 = py "2024-02-29T23:59:59.000005" /\
  isoformat 63871329600000000 = py "2025-01-01T12:00:00" /\
  isoformat 315537897599999999 = py "9999-12-31T23:59:59.999999" /\
  isoformat 59931705601000000 = py "1900-03-01T00:00:01" /\
  py_str (VDate 63113817600000000) = py "2000-12-31 00:00:00".
Proof. vm_compute. auto 6. Qed.

(** * The theorems at work, and where the claims fail *)

Lemma demo_records_in : records_in demo_world [0%nat; 1%nat].
Proof.
  repeat constructor.
  - exists ann. split; [reflexivity | by_compute].
  - exists bob. split; [reflexivity | by_compute].
Defined.

Lemma demo_records_in_all : records_in demo_world [0%nat; 2%nat; 1%nat].
Proof.
  repeat constructor.
  - exists ann. split; [reflexivity | by_compute].
  - exists eve. split; [reflexivity | by_compute].
  - exists bob. split; [reflexivity | by_compute].
Defined.



(** C2: Ann's and Bob's returned records. *)
Lemma anonymize_student_data_keeps_student_id_witness :
  Forall2 (fun s o => forall d sid,
             heap demo_world !! s = Some d -> dict_get d (py "student_id") = Some sid ->
             exists d' a,
               heap (snd (anonymize_student_data demo_platform demo_self
                            [0%nat; 1%nat] demo_world)) !! o = Some d' /\
               dict_get d' (py "anonymous_id") = Some (VStr a) /\
               pseudonym_of sid a /\
               dict_get d' (py "student_id") = Some (mask_value demo_platform sid))
          [0%nat; 1%nat] [4%nat; 5%nat].
Proof.
  apply (anonymize_student_data_keeps_student_id demo_platform demo_self
           [0%nat; 1%nat] demo_world [4%nat; 5%nat] _ eq_refl demo_records_in).
  vm_compute. reflexivity.
Defined.

(** C2 fails: the record returned for Ann carries her raw identifier under
    [student_id], next to the pseudonym. *)
Lemma anonymize_student_data_returns_student_id :
  exists d',
    heap (snd (anonymize_student_data demo_platform demo_self [0%nat] demo_world)) !! 4%nat
      = Some d' /\
    dict_get ann (py "student_id") = Some (VStr (py "1001")) /\
    dict_get d' (py "student_id") = Some (VStr (py "1001")) /\
    dict_get d' (py "anonymous_id") = Some (VStr (py "anon_fe675fe7aaee830b")).
Proof. eexists. split; [vm_compute; reflexivity|]. repeat split; vm_compute; reflexivity. Qed.

(** C3: Ann's and Bob's returned records. *)
Lemma anonymize_student_data_pii_fields_witness :
  Forall2 (fun s o => forall d f v,
             heap demo_world !! s = Some d -> f ∈ pii_fields -> dict_get d f = Some v ->
             exists d' x,
               heap (snd (anonymize_student_data demo_platform demo_self
                            [0%nat; 1%nat] demo_world)) !! o = Some d' /\
               dict_get d' f = None /\
               dict_get d' (derived_key f) = Some (VStr x) /\
               derived_value demo_self f (mask_value demo_platform v) x /\
               dict_get d' (other_key f) =
                 mask_value demo_platform <$> dict_get d (other_key f))
          [0%nat; 1%nat] [4%nat; 5%nat].
Proof.
  apply (anonymize_student_data_pii_fields demo_platform demo_self
           [0%nat; 1%nat] demo_world [4%nat; 5%nat] _ eq_refl demo_records_in).
  vm_compute. reflexivity.
Defined.

(** C3 fails: Dan's record has the PII field [email] and a field named
    [email_hash]; the returned record has both [email_encrypted] and
    [email_hash]. *)
Lemma anonymize_student_data_both_suffixes :
  exists d' x,
    heap (snd (anonymize_student_data demo_platform demo_self [3%nat] demo_world)) !! 4%nat
      = Some d' /\
    py "email" ∈ pii_fields /\
    dict_has dan (py "email") = true /\
    dict_get d' (py "email_encrypted") = Some (VStr x) /\
    dict_get d' (py "email_hash") = Some (VStr (py "0000")).
Proof.
  do 2 eexists. split; [vm_compute; reflexivity|].
  split; [by_compute|]. repeat split; vm_compute; reflexivity.
Qed.

(** C8: Ann's record after each of the three operations, and the two new
    records of the student batch. *)
Lemma anonymize_leaves_input_witness :
  (heap (snd (anonymize_student_data demo_platform demo_self [0%nat; 1%nat] demo_world))
     !! 0%nat = Some ann /\
   heap (snd (anonymize_attendance_data demo_platform demo_self [0%nat; 1%nat] demo_world))
     !! 0%nat = Some ann /\
   heap (snd (anonymize_library_data demo_platform demo_self [0%nat; 1%nat] demo_world))
     !! 0%nat = Some ann) /\
  Forall (fun o => heap demo_world !! o = None) [4%nat; 5%nat].
Proof.
  destruct (anonymize_leaves_input demo_platform demo_self [0%nat; 1%nat] demo_world
              0%nat ann eq_refl) as [Hkeep Hnew].
  split; [exact Hkeep|].
  apply (Hnew eq_refl). left. vm_compute. reflexivity.
Defined.

(** C10: Ann's record through [_anonymize_record]. *)
Lemma anonymize_record_first_pattern_witness :
  exists d' w',
    _anonymize_record demo_platform 0%nat demo_world = (Ok 0%nat, w') /\
    heap w' = <[0%nat := d']> (heap demo_world) /\
    map fst d' = map fst ann /\
    forall k v, dict_get ann k = Some v ->
      dict_get d' k =
        Some match v with
             | VStr s =>
                 VStr (if re_search demo_platform pattern_email s then _mask_email s
                       else if re_search demo_platform (pattern_phone demo_platform) s
                            then _mask_phone demo_platform s
                       else if re_search demo_platform (pattern_ssn demo_platform) s
                            then _mask_ssn s
                       else s)
             | _ => v
             end.
Proof.
  assert (H : is_dict ann) by by_compute.
  exact (anonymize_record_first_pattern demo_platform 0%nat ann demo_world eq_refl H).
Defined.

(** A note with an email address and a phone number is masked as an email
    address only: the phone number stays. *)
Example anonymize_record_email_first :
  re_search demo_platform pattern_email (py "jo@x.com 555-123-4567") = true /\
  re_search demo_platform (pattern_phone demo_platform) (py "jo@x.com 555-123-4567") = true /\
  (heap (snd (_anonymize_record demo_platform 0%nat demo_world)) !! 0%nat)
    ≫= (fun d => dict_get d (py "notes"))
    = Some (VStr (py "**@x.com 555-123-4567")).
Proof. repeat split; vm_compute; reflexivity. Qed.









(** * The further properties at work *)

(** X3: the attendance records of Ann and Bob. *)
Lemma anonymize_usage_data_shape_witness :
  Forall2 (fun s o => forall d, heap demo_world !! s = Some d ->
     exists d',
       heap (snd (anonymize_attendance_data demo_platform demo_self [0%nat; 1%nat]
                    demo_world)) !! o = Some d' /\
       dict_get d' (py "student_id") = None /\
       (forall f, f ∈ pii_fields -> dict_get d' f = None) /\
       match dict_get d (py "student_id") with
       | Some sid => exists a, pseudonym_of sid a /\
                       dict_get d' (py "anonymous_id") = Some (VStr a)
       | None => dict_get d' (py "anonymous_id") =
                   mask_value demo_platform <$> dict_get d (py "anonymous_id")
       end /\
       (exists t, dict_get d' (py "anonymized_at") = Some (VStr (isoformat t))) /\
       (forall k, k ∉ pii_fields -> k <> py "student_id" -> k <> py "anonymous_id" ->
          k <> py "anonymized_at" ->
          dict_get d' k = mask_value demo_platform <$> dict_get d k))
    [0%nat; 1%nat] [4%nat; 5%nat].
Proof.
  apply (anonymize_usage_data_shape demo_platform demo_self [0%nat; 1%nat] demo_world
           [4%nat; 5%nat] _ eq_refl demo_records_in).
  left. vm_compute. reflexivity.
Defined.

Lemma demo_cipher_opens n (t : Z) data :
  fernet_decrypt (cipher demo_self)
    (fernet_encrypt (cipher demo_self) (urandom_at demo_platform n) t data) = Some data.
Proof. reflexivity. Defined.

Lemma demo_cipher_octets n (t : Z) data :
  Forall (fun x => x < 256) data ->
  Forall (fun x => x < 256)
    (fernet_encrypt (cipher demo_self) (urandom_at demo_platform n) t data).
Proof.
  intros H. cbn [fernet_encrypt cipher demo_self demo_cipher urandom_at demo_platform].
  constructor; [reflexivity|]. apply Forall_app. split; [|exact H].
  apply Forall_forall. intros x Hx. apply list_elem_of_In, repeat_spec in Hx. subst x.
  apply N.mod_lt. discriminate.
Defined.

(** X4: Ann's address, encrypted in one world and decrypted in another. *)
Lemma decrypt_field_inverts_encrypt_field_witness :
  exists c w1,
    _encrypt_field demo_platform demo_self (py "ann.lee@example.edu") demo_world
      = (Ok c, w1) /\
    _decrypt_field demo_self c store_world = (Ok (py "ann.lee@example.edu"), store_world).
Proof.
  do 2 eexists. split; [vm_compute; reflexivity|].
  eapply (decrypt_field_inverts_encrypt_field demo_platform demo_self
            (py "ann.lee@example.edu") _ demo_world _ store_world
            demo_cipher_opens demo_cipher_octets).
  - by_compute.
  - vm_compute. reflexivity.
Defined.

(** X7: a list of contacts with an e-mail address and a social security
    number in it. *)
Lemma validate_ferpa_compliance_skips_list_strings_witness :
  exists r,
    validate_ferpa_compliance demo_platform demo_self demo_lower demo_frames
      demo_recursion_error
      (ODict [(py "contacts",
               OList (map (fun s => OLeaf (VStr s))
                        [py "ann.lee@example.edu"; py "123-45-6789"]))])
      demo_world = (Ok r, demo_world) /\
    compliant r = true /\ issues r = [].
Proof.
  apply (validate_ferpa_compliance_skips_list_strings demo_platform demo_self demo_lower
           demo_frames demo_recursion_error (py "contacts")
           [py "ann.lee@example.edu"; py "123-45-6789"] demo_world).
  - by_compute.
  - unfold demo_frames. lia.
Defined.

(** X8: Kim's Canvas document carries a [datetime]; a cleanup that keeps
    nothing leaves it. *)
Lemma cleanup_old_data_keeps_undated_witness :
  kim_canvas ∈ stored (snd (cleanup_old_data demo_platform 0 campus_world))
                 (py "canvas_students").
Proof.
  apply (cleanup_old_data_keeps_undated demo_platform 0 kim_canvas (py "canvas_students")
           campus_world).
  - intros s. vm_compute. discriminate.
  - by_compute.
Defined.

(** X9: a thousand million days are more than [timedelta] takes. *)
Lemma cleanup_old_data_out_of_range_witness :
  cleanup_old_data demo_platform 1000000000 campus_world =
    (Raise OverflowError,
     set_logs (logs campus_world ++
               [Log ERROR (py "Data cleanup failed: ") (Some OverflowError)])
       (set_ticks (S (ticks campus_world)) campus_world)).
Proof.
  apply (cleanup_old_data_out_of_range demo_platform 1000000000 campus_world).
  intros [H _]. lia.
Defined.

(** X10: two records stored next to Kim's and Lee's documents. *)
Lemma store_data_only_adds_witness :
  lee_canvas ∈
    stored (snd (store_data demo_platform (py "canvas_students") [0%nat; 1%nat] None
                   campus_world)) (py "canvas_students").
Proof.
  apply (store_data_only_adds demo_platform (py "canvas_students") [0%nat; 1%nat]
           lee_canvas (py "canvas_students") campus_world).
  by_compute.
Defined.

(** X12: the campus database has no two documents with the same key. *)
Lemma setup_indexes_creates_unique_indexes_witness :
  exists w',
    _setup_indexes campus_world = (Ok tt, w') /\
    collections (mongo w') = collections (mongo campus_world) /\
    forall n f, (n, f) ∈ unique_index_specs ->
      f ∈ default [] (unique_indexes (mongo w') !! n).
Proof.
  apply (setup_indexes_creates_unique_indexes campus_world).
  intros n f H.
  repeat (apply elem_of_cons in H as [H|H]; [inversion H; subst n f; by_compute|]).
  inversion H.
Defined.

(** X13: with two documents for Kim's [student_id] no index is created. *)
Lemma setup_indexes_stops_at_first_failure_witness :
  unique_indexes (mongo (snd (_setup_indexes twin_world))) = unique_indexes (mongo twin_world) /\
  logs (snd (_setup_indexes twin_world)) =
    logs twin_world ++ [Log ERROR (py "Failed to create MongoDB indexes: ")
                          (Some DuplicateKeyError)].
Proof.
  destruct (setup_indexes_stops_at_first_failure twin_world) as (_ & _ & H).
  apply H. by_compute.
Defined.



Lemma indexed_records_in : records_in indexed_world [0%nat; 1%nat; 2%nat].
Proof.
  repeat constructor.
  - exists rec_a. split; [reflexivity | by_compute].
  - exists rec_b. split; [reflexivity | by_compute].
  - exists rec_a. split; [reflexivity | by_compute].
Defined.



(** X20: the attendance records of Ann and Bob, anonymized and stored. *)
Lemma stored_usage_data_is_anonymous_witness :
  Forall (fun x => dict_get x (py "student_id") = None /\
                   forall f, f ∈ pii_fields -> dict_get x f = None)
    (stored
       (snd (store_data demo_platform (py "attendance_records") [4%nat; 5%nat] None
               (snd (anonymize_attendance_data demo_platform demo_self [0%nat; 1%nat]
                       demo_world))))
       (py "attendance_records")).
Proof.
  assert (E : anonymize_attendance_data demo_platform demo_self [0%nat; 1%nat] demo_world =
              (Ok [4%nat; 5%nat],
               snd (anonymize_attendance_data demo_platform demo_self [0%nat; 1%nat]
                      demo_world))) by (vm_compute; reflexivity).
  apply Forall_forall. intros x Hx.
  destruct (stored_usage_data_is_anonymous demo_platform demo_self [0%nat; 1%nat] demo_world
              [4%nat; 5%nat] _ _ (py "attendance_records") eq_refl demo_records_in
              (or_introl E) (fun o _ => eq_refl) (py "attendance_records") x Hx) as [H|H].
  - vm_compute in H. inversion H.
  - exact H.
Defined.
